(** * GitLab embedding pipeline: a shallow embedding and its properties

    The development follows the TypeScript sources of the webhook-driven
    embedding pipeline:

    - [services/embedding.ts]   content filter, batching, chunking;
    - [services/database.ts]    the PostgreSQL storage engine;
    - [services/gitlab.ts]      the repository provider adapter;
    - [controllers/webhook.ts]  the event dispatcher;
    - [controllers/search.ts]   the search endpoint;
    - [controllers/repository.ts] the clone-based ingestion helper
      [generateProjectIdFromPath].

    JavaScript strings are sequences of UTF-16 code units, numbers that
    hold lengths, counters and identifiers are integers, and [async]
    functions are run to completion one after the other in a state and
    exception monad over an explicit world (database, event log, clock). *)

From Stdlib Require Import String Ascii.
From Stdlib Require Import DecimalString DecimalNat Decimal.
From Stdlib Require Import List NArith ZArith Lia Bool.
From Stdlib Require Import Sorting.Sorted Sorting.Permutation.
Import ListNotations.

Set Warnings "-register-all".

Local Open Scope Z_scope.

(* ===================================================================== *)
(** ** JavaScript strings *)
(* ===================================================================== *)

(** A string is the list of its UTF-16 code units; [s.length] is the
    length of the list and [s.charCodeAt(i)] its [i]-th element. *)
Definition char := N.
Definition jsstring := list char.

(** A string literal of the source (all literals there are ASCII). *)
Definition lit (s : string) : jsstring :=
  map N_of_ascii (list_ascii_of_string s).
Arguments lit s%_string.

Definition char_eqb : char -> char -> bool := N.eqb.

Fixpoint str_eqb (a b : jsstring) : bool :=
  match a, b with
  | [], [] => true
  | x :: a', y :: b' => char_eqb x y && str_eqb a' b'
  | _, _ => false
  end.

(** [!s] for a string [s]: only the empty string is falsy. *)
Definition is_empty (s : jsstring) : bool :=
  match s with [] => true | _ :: _ => false end.

Definition NL : char := 10%N.

(** [s.split(sep)] for a one-character separator. *)
Fixpoint split_on (sep : char) (s : jsstring) : list jsstring :=
  match s with
  | [] => [[]]
  | c :: rest =>
      if char_eqb c sep then [] :: split_on sep rest
      else match split_on sep rest with
           | [] => [[c]]
           | l :: ls => (c :: l) :: ls
           end
  end.

(** Template-literal rendering of a non-negative integer. *)
Definition decimal (n : nat) : jsstring :=
  lit (NilEmpty.string_of_uint (Nat.to_uint n)).

(** [s.startsWith(p)] *)
Fixpoint starts_with (p s : jsstring) : bool :=
  match p, s with
  | [], _ => true
  | x :: p', y :: s' => char_eqb x y && starts_with p' s'
  | _ :: _, [] => false
  end.

(** [s.replace(pat, repl)] with a string pattern: the first occurrence
    only. *)
Fixpoint replace_first (pat repl s : jsstring) : jsstring :=
  if starts_with pat s then repl ++ skipn (length pat) s
  else match s with
       | [] => []
       | c :: rest => c :: replace_first pat repl rest
       end.

(* ===================================================================== *)
(** ** Data model ([models/embedding.ts]) *)
(* ===================================================================== *)

(** Embedding components are numbers the pipeline only carries around;
    dates are kept as milliseconds since the epoch. *)
Definition vector := list Z.
Definition Date := Z.

Record CodeFile := mkCodeFile {
  path : jsstring;
  content : jsstring;
  language : jsstring;
  lastModified : Date
}.

Record CodeEmbedding := mkCodeEmbedding {
  projectId : Z;
  repositoryUrl : jsstring;
  filePath : jsstring;
  emb_content : jsstring;
  embedding : vector;
  emb_language : jsstring;
  commitId : jsstring;
  branch : jsstring;
  createdAt : Date;
  updatedAt : Date
}.

Record ProjectMetadata := mkProjectMetadata {
  pm_projectId : Z;
  name : jsstring;
  description : jsstring;
  url : jsstring;
  defaultBranch : jsstring;
  lastProcessedCommit : jsstring;
  lastProcessedAt : Date
}.

Record EmbeddingBatch := mkEmbeddingBatch {
  eb_projectId : Z;
  eb_commitId : jsstring;
  eb_branch : jsstring;
  files : list CodeFile;
  embeddings : list CodeEmbedding;
  eb_createdAt : Date
}.

(* ===================================================================== *)
(** ** Content filter ([EmbeddingService.isBinaryContent]) *)
(* ===================================================================== *)

(** [content.includes('\0')] *)
Definition includes_nul (content : jsstring) : bool :=
  existsb (N.eqb 0) content.

(** The predicate of the [filter] callback:
    [code < 32 && code !== 9 && code !== 10 && code !== 13]. *)
Definition nonPrintable (code : char) : bool :=
  ((code <? 32) && negb (code =? 9) && negb (code =? 10)
   && negb (code =? 13))%N.

Definition nonPrintableCount (content : jsstring) : nat :=
  length (filter nonPrintable content).

(** *** The product [content.length * 0.1] in binary64

    The literal [0.1] denotes the double [7205759403792794 * 2^-56].  The
    product of an integer [n] with it is the exact product rounded to a
    53-bit significand, ties to even.  [round53] performs that rounding
    on the integer numerator, so that [times_tenth n / 2^56] is the value
    of the double [n * 0.1] (lengths stay far below the overflow and
    above the subnormal range). *)
Definition tenth_significand : Z := 7205759403792794.

Definition round53 (n : Z) : Z :=
  let k := Z.log2 n + 1 in
  if k <=? 53 then n
  else
    let s := k - 53 in
    let q := Z.shiftr n s in
    let r := Z.land n (Z.ones s) in
    let half := Z.shiftl 1 (s - 1) in
    let q' := if (half <? r) || ((r =? half) && Z.odd q) then q + 1 else q in
    Z.shiftl q' s.

Definition times_tenth (n : Z) : Z := round53 (n * tenth_significand).

(** [nonPrintableCount > content.length * 0.1], both sides scaled by
    [2^56]. *)
Definition ratio_exceeded (count len : nat) : bool :=
  times_tenth (Z.of_nat len) <? Z.of_nat count * 2 ^ 56.

Definition isBinaryContent (content : jsstring) : bool :=
  if includes_nul content then true
  else ratio_exceeded (nonPrintableCount content) (length content).

(** The guard of [generateEmbeddings]:
    [!file.content || file.content.length > 100000
      || this.isBinaryContent(file.content)] makes the file be skipped. *)
Definition sizeCeiling : Z := 100000.

Definition skipContent (content : jsstring) : bool :=
  is_empty content
  || (sizeCeiling <? Z.of_nat (length content))
  || isBinaryContent content.

Definition contentEligible (content : jsstring) : bool :=
  negb (skipContent content).


(* ===================================================================== *)
(** ** Chunking ([EmbeddingService.chunkCodeFile]) *)
(* ===================================================================== *)

(** [`${file.path}#chunk${chunkIndex}`] *)
Definition chunkPath (file : CodeFile) (chunkIndex : nat) : jsstring :=
  path file ++ lit "#chunk" ++ decimal chunkIndex.

(** [{ ...file, path: ..., content: currentChunk }] *)
Definition mkChunk (file : CodeFile) (chunkIndex : nat)
    (currentChunk : jsstring) : CodeFile :=
  {| path := chunkPath file chunkIndex;
     content := currentChunk;
     language := language file;
     lastModified := lastModified file |}.

(** The [for (const line of lines)] loop together with the final
    [if (currentChunk)] push; the loop variables are threaded as
    arguments. *)
Fixpoint chunkLines (file : CodeFile) (maxChunkSize : Z)
    (lines : list jsstring) (currentChunk : jsstring) (chunkIndex : nat)
    (chunks : list CodeFile) : list CodeFile :=
  match lines with
  | [] =>
      if is_empty currentChunk then chunks
      else chunks ++ [mkChunk file chunkIndex currentChunk]
  | line :: rest =>
      if maxChunkSize <? Z.of_nat (length currentChunk)
                         + Z.of_nat (length line) + 1
      then chunkLines file maxChunkSize rest (line ++ [NL]) (S chunkIndex)
             (chunks ++ [mkChunk file chunkIndex currentChunk])
      else chunkLines file maxChunkSize rest (currentChunk ++ line ++ [NL])
             chunkIndex chunks
  end.

Definition chunkCodeFile (file : CodeFile) (maxChunkSize : Z)
    : list CodeFile :=
  if is_empty (content file)
     || (Z.of_nat (length (content file)) <=? maxChunkSize)
  then [file]
  else chunkLines file maxChunkSize (split_on NL (content file)) [] 0 [].

(* ===================================================================== *)
(** ** [generateProjectIdFromPath] ([controllers/repository.ts]) *)
(* ===================================================================== *)

(** White space skipped by [parseInt] (ECMAScript [StrWhiteSpaceChar]). *)
Definition isWhiteSpace (c : char) : bool :=
  existsb (N.eqb c)
    [9; 10; 11; 12; 13; 32; 160; 5760; 8192; 8193; 8194; 8195; 8196; 8197;
     8198; 8199; 8200; 8201; 8202; 8232; 8233; 8239; 8287; 12288; 65279]%N.

Fixpoint trimStart (s : jsstring) : jsstring :=
  match s with
  | c :: rest => if isWhiteSpace c then trimStart rest else s
  | [] => []
  end.

Definition hexDigit (c : char) : option Z :=
  if ((48 <=? c) && (c <=? 57))%N then Some (Z.of_N c - 48)
  else if ((97 <=? c) && (c <=? 102))%N then Some (Z.of_N c - 87)
  else if ((65 <=? c) && (c <=? 70))%N then Some (Z.of_N c - 55)
  else None.

(** The longest prefix of hexadecimal digits, read as a number; [acc] is
    [None] until a first digit has been seen. *)
Fixpoint hexPrefix (acc : option Z) (s : jsstring) : option Z :=
  match s with
  | [] => acc
  | c :: rest =>
      match hexDigit c with
      | Some d =>
          hexPrefix (Some (16 * match acc with Some a => a | None => 0 end
                           + d)) rest
      | None => acc
      end
  end.

(** [parseInt(s, 16)]; [None] stands for [NaN].  The value is exact as
    long as it fits the 53-bit significand of a double, which eight
    digits do. *)
Definition parseInt16 (s : jsstring) : option Z :=
  let s1 := trimStart s in
  let '(sign, s2) :=
    match s1 with
    | c :: rest =>
        if (c =? 45)%N then (-1, rest)
        else if (c =? 43)%N then (1, rest)
        else (1, s1)
    | [] => (1, s1)
    end in
  let s3 :=
    match s2 with
    | z :: x :: rest =>
        if ((z =? 48) && ((x =? 120) || (x =? 88)))%N then rest else s2
    | _ => s2
    end in
  option_map (Z.mul sign) (hexPrefix None s3).

(** The characters produced by [digest('hex')]. *)
Definition lowerHex (c : char) : bool :=
  (((48 <=? c) && (c <=? 57)) || ((97 <=? c) && (c <=? 102)))%N.

Definition isHexDigest (h : jsstring) : bool :=
  (length h =? 32)%nat && forallb lowerHex h.

Section ProjectId.

(** [crypto.createHash('md5').update(path).digest('hex')], a function
    of Node's standard library. *)
Variable md5_hex : jsstring -> jsstring.

Definition generateProjectIdFromPath (path : jsstring) : option Z :=
  let hash := md5_hex path in
  let truncatedHash := firstn 8 hash in
  let numericId := parseInt16 truncatedHash in
  option_map (fun n => Z.abs (Z.rem n 2147483647)) numericId.

End ProjectId.

(* ===================================================================== *)
(** ** The world: database, event log, clock *)
(* ===================================================================== *)

(** A row of [batches]: the [files] column holds the file list, the
    [embeddings] of the batch object are not written. *)
Record BatchRow := mkBatchRow {
  br_projectId : Z;
  br_commitId : jsstring;
  br_branch : jsstring;
  br_files : list CodeFile;
  br_createdAt : Date
}.

(** The three relations, and what [information_schema.columns] reports
    as [data_type] of [embeddings.embedding].  Rows are kept in table
    order; [UNIQUE(project_id, file_path)] and the primary key of
    [projects] are invariants maintained by the upserts below. *)
Record Store := mkStore {
  column_type : list jsstring;
  tbl_projects : list ProjectMetadata;
  tbl_embeddings : list CodeEmbedding;
  tbl_batches : list BatchRow
}.

Inductive Statement :=
| SelectColumnType
| Begin
| Commit
| Rollback
| UpsertEmbedding (asVector : bool) (e : CodeEmbedding)
| InsertBatch (b : EmbeddingBatch)
| UpsertProject (m : ProjectMetadata)
| SelectProject (pid : Z)
| SelectEmbeddings (pid : Z)
| SelectNearest (scope : option Z) (q : vector) (limit : Z)
| SelectRecent (scope : option Z) (limit : Z).

(** Everything a run does to the outside, in the order it is issued. *)
Inductive Event :=
| GitlabProject (pid : Z)
| GitlabTree (pid : Z) (ref : jsstring)
| GitlabFile (pid : Z) (path ref : jsstring)
| EmbedRequest (input : jsstring)
| LlmRequest (query : jsstring) (snippets : list CodeEmbedding)
| Query (s : Statement).

Record World := mkWorld {
  db : Store;               (* committed state *)
  txn : option Store;       (* working state of the open transaction *)
  log : list Event;
  clock : Date
}.

Record ProjectDetails := mkProjectDetails {
  pd_name : jsstring;
  pd_description : option jsstring;
  pd_web_url : jsstring;
  pd_default_branch : jsstring
}.

Record TreeItem := mkTreeItem {
  ti_type : jsstring;
  ti_path : jsstring
}.

(** The collaborators of a run.  A [None] answer is a failed request.
    [statement_fails n] tells whether the statement issued as the [n]-th
    event fails (connection or server error); [row_rejected] whether the
    database refuses to write a row (a type or constraint violation).
    [nearest] is the ranking computed by the vector extension,
    [detectLanguage] the extension table of the provider adapter.
    [OPENROUTER_API_KEY] is the variable of the process environment;
    [llm_api] is the outcome of the [POST] to [/chat/completions] whose
    prompt is built from the query and the snippets: the content of the
    first choice, or the message of the error. *)
Record Env := mkEnv {
  gitlab_project : Z -> option ProjectDetails;
  gitlab_tree : Z -> jsstring -> option (list TreeItem);
  gitlab_file : Z -> jsstring -> jsstring -> option jsstring;
  embed_api : jsstring -> option vector;
  OPENROUTER_API_KEY : option jsstring;
  llm_api : jsstring -> list CodeEmbedding -> jsstring + jsstring;
  statement_fails : nat -> bool;
  row_rejected : CodeEmbedding -> bool;
  nearest : option Z -> vector -> Z -> list CodeEmbedding
            -> option (list CodeEmbedding);
  detectLanguage : jsstring -> jsstring
}.

(** *** The monad of [async] functions: state and exceptions *)

Inductive Outcome (A : Type) :=
| Returned (a : A)
| Thrown.
Arguments Returned {A} a.
Arguments Thrown {A}.

Definition M (A : Type) : Type := World -> Outcome A * World.

Definition ret {A} (a : A) : M A := fun w => (Returned a, w).

Definition throw {A} : M A := fun w => (Thrown, w).

Definition bind {A B} (m : M A) (k : A -> M B) : M B :=
  fun w =>
    match m w with
    | (Returned a, w') => k a w'
    | (Thrown, w') => (Thrown, w')
    end.

(** [try { body } catch (error) { handler }] *)
Definition try_catch {A} (body handler : M A) : M A :=
  fun w =>
    match body w with
    | (Returned a, w') => (Returned a, w')
    | (Thrown, w') => handler w'
    end.

Declare Scope monad_scope.
Delimit Scope monad_scope with monad.
Notation "x <- m ;; k" := (bind m (fun x => k))
  (at level 61, m at next level, right associativity) : monad_scope.
Notation "m ;; k" := (bind m (fun _ => k))
  (at level 61, right associativity) : monad_scope.
Local Open Scope monad_scope.

Fixpoint mapM {A B} (f : A -> M B) (l : list A) : M (list B) :=
  match l with
  | [] => ret []
  | a :: rest => b <- f a ;; bs <- mapM f rest ;; ret (b :: bs)
  end.

(** [l.slice(0, n)], [l.slice(n, 2n)], ...: the batches of a
    [for (i = 0; i < l.length; i += n)] loop.  [fuel] bounds the number
    of batches. *)
Fixpoint slices_fuel {A} (fuel n : nat) (l : list A) : list (list A) :=
  match fuel, l with
  | O, _ => []
  | _, [] => []
  | S fuel', _ => firstn n l :: slices_fuel fuel' n (skipn n l)
  end.

Definition slices {A} (n : nat) (l : list A) : list (list A) :=
  slices_fuel (length l) n l.

Definition emit (e : Event) : M unit :=
  fun w => (Returned tt,
            {| db := db w; txn := txn w; log := log w ++ [e];
               clock := clock w |}).

(** [new Date()]: the clock is read and moves on, by one millisecond
    for the time that passes between two readings. *)
Definition new_Date : M Date :=
  fun w => (Returned (clock w),
            {| db := db w; txn := txn w; log := log w;
               clock := clock w + 1 |}).

(** [await new Promise(resolve => setTimeout(resolve, ms))] *)
Definition sleep (ms : Z) : M unit :=
  fun w => (Returned tt,
            {| db := db w; txn := txn w; log := log w;
               clock := clock w + ms |}).

(** *** The database client

    [pool.connect()] hands out a client that is outside any transaction
    (a pool that cannot hand out a client is not told apart from a
    client whose first statement fails).
    A statement acts on the working state of the open transaction when
    there is one and on the committed state otherwise (autocommit). *)
Definition connect : M unit :=
  fun w => (Returned tt,
            {| db := db w; txn := None; log := log w; clock := clock w |}).

Definition current (w : World) : Store :=
  match txn w with Some s => s | None => db w end.

Definition set_current (w : World) (s : Store) : World :=
  match txn w with
  | Some _ => {| db := db w; txn := Some s; log := log w; clock := clock w |}
  | None => {| db := s; txn := None; log := log w; clock := clock w |}
  end.

Section Services.

Variable env : Env.

(** [client.query(stmt)]: the statement is issued (and logged); unless
    it fails, [run] computes its result and the new state. *)
Definition client_query {A} (stmt : Statement)
    (run : Store -> option (A * Store)) : M A :=
  fun w =>
    let issued := log w ++ [Query stmt] in
    let w1 := {| db := db w; txn := txn w; log := issued;
                 clock := clock w |} in
    if statement_fails env (length (log w)) then (Thrown, w1)
    else match run (current w) with
         | Some (a, s') => (Returned a, set_current w1 s')
         | None => (Thrown, w1)
         end.

Definition select {A} (stmt : Statement) (rows : Store -> option A)
    : M A :=
  client_query stmt
    (fun s => match rows s with Some a => Some (a, s) | None => None end).

Definition execute (stmt : Statement) (upd : Store -> option Store)
    : M unit :=
  client_query stmt
    (fun s => match upd s with Some s' => Some (tt, s') | None => None end).

Definition begin_transaction : M unit :=
  fun w =>
    let w1 := {| db := db w; txn := txn w; log := log w ++ [Query Begin];
                 clock := clock w |} in
    if statement_fails env (length (log w)) then (Thrown, w1)
    else (Returned tt,
          {| db := db w; txn := Some (current w); log := log w1;
             clock := clock w |}).

Definition commit_transaction : M unit :=
  fun w =>
    let w1 := {| db := db w; txn := txn w; log := log w ++ [Query Commit];
                 clock := clock w |} in
    if statement_fails env (length (log w)) then (Thrown, w1)
    else (Returned tt,
          {| db := current w; txn := None; log := log w1;
             clock := clock w |}).

(** A [ROLLBACK] that cannot be delivered leaves the transaction open
    on a client nobody commits. *)
Definition rollback_transaction : M unit :=
  fun w =>
    let w1 := {| db := db w; txn := txn w;
                 log := log w ++ [Query Rollback]; clock := clock w |} in
    if statement_fails env (length (log w)) then (Thrown, w1)
    else (Returned tt,
          {| db := db w; txn := None; log := log w1; clock := clock w |}).

(** [res.rows.length > 0 && res.rows[0].data_type === 'vector'] *)
Definition isVectorColumn (rows : list jsstring) : bool :=
  match rows with
  | t :: _ => str_eqb t (lit "vector")
  | [] => false
  end.

Definition select_column_type : M bool :=
  select SelectColumnType (fun s => Some (isVectorColumn (column_type s))).

(** *** [INSERT ... ON CONFLICT (project_id, file_path) DO UPDATE] *)

Definition same_key (a b : CodeEmbedding) : bool :=
  (projectId a =? projectId b) && str_eqb (filePath a) (filePath b).

(** The [DO UPDATE SET] list: content, embedding, language, commit_id,
    branch and updated_at are taken from the new row. *)
Definition on_conflict (old new : CodeEmbedding) : CodeEmbedding :=
  {| projectId := projectId old;
     repositoryUrl := repositoryUrl old;
     filePath := filePath old;
     emb_content := emb_content new;
     embedding := embedding new;
     emb_language := emb_language new;
     commitId := commitId new;
     branch := branch new;
     createdAt := createdAt old;
     updatedAt := updatedAt new |}.

Fixpoint upsert_embedding (new : CodeEmbedding)
    (rows : list CodeEmbedding) : list CodeEmbedding :=
  match rows with
  | [] => [new]
  | r :: rest =>
      if same_key r new then on_conflict r new :: rest
      else r :: upsert_embedding new rest
  end.

Definition with_embeddings (s : Store) (rows : list CodeEmbedding)
    : Store :=
  {| column_type := column_type s; tbl_projects := tbl_projects s;
     tbl_embeddings := rows; tbl_batches := tbl_batches s |}.

Definition insert_embedding (asVector : bool) (e : CodeEmbedding)
    : M unit :=
  execute (UpsertEmbedding asVector e)
    (fun s =>
       if row_rejected env e then None
       else Some (with_embeddings s
                    (upsert_embedding e (tbl_embeddings s)))).

(** [DatabaseService.saveEmbedding]; its [catch] logs and rethrows,
    its [finally] releases the client. *)
Definition saveEmbedding (e : CodeEmbedding) : M unit :=
  connect ;;
  isVector <- select_column_type ;;
  if isVector then insert_embedding true e
  else insert_embedding false e.

Fixpoint insert_each (isVector : bool) (embeddings : list CodeEmbedding)
    : M unit :=
  match embeddings with
  | [] => ret tt
  | e :: rest =>
      (if isVector then insert_embedding true e
       else insert_embedding false e) ;;
      insert_each isVector rest
  end.

(** [DatabaseService.saveEmbeddings] *)
Definition saveEmbeddings (embeddings : list CodeEmbedding) : M unit :=
  match embeddings with
  | [] => ret tt
  | _ :: _ =>
      connect ;;
      try_catch
        (isVector <- select_column_type ;;
         begin_transaction ;;
         insert_each isVector embeddings ;;
         commit_transaction)
        (rollback_transaction ;; throw)
  end.

(** [DatabaseService.saveBatch] *)
Definition batch_row (b : EmbeddingBatch) : BatchRow :=
  {| br_projectId := eb_projectId b; br_commitId := eb_commitId b;
     br_branch := eb_branch b; br_files := files b;
     br_createdAt := eb_createdAt b |}.

Definition saveBatch (b : EmbeddingBatch) : M unit :=
  connect ;;
  execute (InsertBatch b)
    (fun s =>
       Some {| column_type := column_type s;
               tbl_projects := tbl_projects s;
               tbl_embeddings := tbl_embeddings s;
               tbl_batches := tbl_batches s ++ [batch_row b] |}).

(** [INSERT INTO projects ... ON CONFLICT (project_id) DO UPDATE]
    sets every other column. *)
Fixpoint upsert_project (m : ProjectMetadata)
    (rows : list ProjectMetadata) : list ProjectMetadata :=
  match rows with
  | [] => [m]
  | r :: rest =>
      if pm_projectId r =? pm_projectId m then m :: rest
      else r :: upsert_project m rest
  end.

(** [DatabaseService.updateProjectMetadata] *)
Definition updateProjectMetadata (metadata : ProjectMetadata) : M unit :=
  connect ;;
  execute (UpsertProject metadata)
    (fun s =>
       Some {| column_type := column_type s;
               tbl_projects := upsert_project metadata (tbl_projects s);
               tbl_embeddings := tbl_embeddings s;
               tbl_batches := tbl_batches s |}).

(** [DatabaseService.getProjectMetadata]: [null] is [None]. *)
Definition getProjectMetadata (projectId : Z)
    : M (option ProjectMetadata) :=
  connect ;;
  select (SelectProject projectId)
    (fun s =>
       Some (find (fun r => pm_projectId r =? projectId)
               (tbl_projects s))).

(** [DatabaseService.getEmbeddingsByProject] *)
Definition getEmbeddingsByProject (pid : Z) : M (list CodeEmbedding) :=
  connect ;;
  _ <- select_column_type ;;
  select (SelectEmbeddings pid)
    (fun s =>
       Some (filter (fun r => projectId r =? pid) (tbl_embeddings s))).

End Services.

(** *** [ORDER BY updated_at DESC]

    SQL leaves the order of rows with equal [updated_at] open; the
    insertion sort fixes one. *)
Fixpoint insert_by_recency (r : CodeEmbedding) (rows : list CodeEmbedding)
    : list CodeEmbedding :=
  match rows with
  | [] => [r]
  | x :: rest =>
      if updatedAt x <=? updatedAt r then r :: rows
      else x :: insert_by_recency r rest
  end.

Definition order_by_recency (rows : list CodeEmbedding)
    : list CodeEmbedding :=
  fold_right insert_by_recency [] rows.

Definition in_scope (scope : option Z) (r : CodeEmbedding) : bool :=
  match scope with
  | Some pid => projectId r =? pid
  | None => true
  end.

(** [SELECT ... FROM embeddings [WHERE project_id = $1]
     ORDER BY updated_at DESC LIMIT $n]; a negative [LIMIT] is an
    error. *)
Definition recent_rows (scope : option Z) (limit : Z) (s : Store)
    : option (list CodeEmbedding) :=
  if limit <? 0 then None
  else Some (firstn (Z.to_nat limit)
               (order_by_recency
                  (filter (in_scope scope) (tbl_embeddings s)))).

Section Pipeline.

Variable env : Env.

(** [DatabaseService.searchSimilarCode] ([scope = Some projectId]) and
    [searchSimilarCodeAcrossProjects] ([scope = None]) differ in the
    [WHERE] clause only.  The final [rows.map] parses an embedding the
    driver returned as text and changes nothing else. *)
Definition similaritySearch (scope : option Z) (embedding : vector)
    (limit : Z) : M (list CodeEmbedding) :=
  connect ;;
  isVector <- select_column_type env ;;
  ranked <-
    (if isVector then
       try_catch
         (rows <- select env (SelectNearest scope embedding limit)
                    (fun s => nearest env scope embedding limit
                                (tbl_embeddings s)) ;;
          ret (Some rows))
         (ret None)
     else ret None) ;;
  match ranked with
  | Some rows => ret rows
  | None =>
      select env (SelectRecent scope limit) (recent_rows scope limit)
  end.

Definition searchSimilarCode (projectId : Z) (embedding : vector)
    (limit : Z) : M (list CodeEmbedding) :=
  similaritySearch (Some projectId) embedding limit.

Definition searchSimilarCodeAcrossProjects (embedding : vector)
    (limit : Z) : M (list CodeEmbedding) :=
  similaritySearch None embedding limit.

(* ------------------------------------------------------------------- *)
(** *** Repository provider adapter ([services/gitlab.ts]) *)
(* ------------------------------------------------------------------- *)

Definition getRepositoryTree (projectId : Z) (ref : jsstring)
    : M (list TreeItem) :=
  emit (GitlabTree projectId ref) ;;
  match gitlab_tree env projectId ref with
  | Some tree => ret tree
  | None => throw
  end.

(** A failed read is logged and yields the empty string. *)
Definition getFileContent (projectId : Z) (filePath ref : jsstring)
    : M jsstring :=
  emit (GitlabFile projectId filePath ref) ;;
  match gitlab_file env projectId filePath ref with
  | Some data => ret data
  | None => ret []
  end.

Definition getProject (projectId : Z) : M ProjectDetails :=
  emit (GitlabProject projectId) ;;
  match gitlab_project env projectId with
  | Some data => ret data
  | None => throw
  end.

Definition fetchFile (projectId : Z) (ref : jsstring) (file : TreeItem)
    : M CodeFile :=
  content <- getFileContent projectId (ti_path file) ref ;;
  lastModified <- new_Date ;;
  ret {| path := ti_path file;
         content := content;
         language := detectLanguage env (ti_path file);
         lastModified := lastModified |}.

(** [GitLabService.getAllFiles]: blobs are read in batches of ten; the
    requests of a batch are taken in file order. *)
Definition getAllFiles (projectId : Z) (ref : jsstring)
    : M (list CodeFile) :=
  tree <- getRepositoryTree projectId ref ;;
  let fileEntries :=
    filter (fun item => str_eqb (ti_type item) (lit "blob")) tree in
  batches <- mapM (mapM (fetchFile projectId ref)) (slices 10 fileEntries) ;;
  ret (concat batches).

(* ------------------------------------------------------------------- *)
(** *** Embedding generator ([services/embedding.ts]) *)
(* ------------------------------------------------------------------- *)

Definition generateEmbedding (text : jsstring) : M vector :=
  emit (EmbedRequest text) ;;
  match embed_api env text with
  | Some v => ret v
  | None => throw
  end.

(** The callback of [batch.map]: [null] is [None]. *)
Definition embedFile (projectId : Z) (commitId branch : jsstring)
    (file : CodeFile) : M (option CodeEmbedding) :=
  try_catch
    (if skipContent (content file) then ret None
     else
       embedding <- generateEmbedding (content file) ;;
       createdAt <- new_Date ;;
       updatedAt <- new_Date ;;
       ret (Some {| projectId := projectId;
                    repositoryUrl := [];
                    filePath := path file;
                    emb_content := content file;
                    embedding := embedding;
                    emb_language := language file;
                    commitId := commitId;
                    branch := branch;
                    createdAt := createdAt;
                    updatedAt := updatedAt |}))
    (ret None).

(** [batchResults.filter(Boolean)] *)
Fixpoint filterBoolean {A} (l : list (option A)) : list A :=
  match l with
  | [] => []
  | Some a :: rest => a :: filterBoolean rest
  | None :: rest => filterBoolean rest
  end.

(** The body of the batch loop, over the batches still to do; a pause
    follows every batch but the last. *)
Fixpoint embedBatches (projectId : Z) (commitId branch : jsstring)
    (batches : list (list CodeFile)) : M (list CodeEmbedding) :=
  match batches with
  | [] => ret []
  | batch :: rest =>
      batchResults <- mapM (embedFile projectId commitId branch) batch ;;
      (match rest with
       | [] => ret tt
       | _ :: _ => sleep 1000
       end) ;;
      more <- embedBatches projectId commitId branch rest ;;
      ret (filterBoolean batchResults ++ more)
  end.

(** [EmbeddingService.generateEmbeddings] *)
Definition generateEmbeddings (files : list CodeFile) (projectId : Z)
    (commitId branch : jsstring) : M (list CodeEmbedding) :=
  embedBatches projectId commitId branch (slices 5 files).

(** [!s] for a value that is a string or [undefined]. *)
Definition falsy (s : option jsstring) : bool :=
  match s with
  | None | Some [] => true
  | Some (_ :: _) => false
  end.

(** [LlmService.analyzeCode]: without a key nothing is requested;
    otherwise the prompt is posted, and an error is caught and returned
    as a text. *)
Definition analyzeCode (query : jsstring) (snippets : list CodeEmbedding)
    : M jsstring :=
  if falsy (OPENROUTER_API_KEY env)
  then ret (lit
         "LLM analysis is not available. OPENROUTER_API_KEY is not set.")
  else
    emit (LlmRequest query snippets) ;;
    match llm_api env query snippets with
    | inl content => ret content
    | inr message => ret (lit "Error analyzing code: " ++ message)
    end.

End Pipeline.

(* ===================================================================== *)
(** ** Event dispatcher ([controllers/webhook.ts]) *)
(* ===================================================================== *)

(** The fields of the webhook payload the handlers read
    ([types/webhook.ts]). *)
Record GitLabProject := mkGitLabProject {
  gp_id : Z;
  web_url : jsstring
}.

Record GitLabPushEvent := mkGitLabPushEvent {
  after : jsstring;
  ref : jsstring;
  project_id : Z;
  push_project : GitLabProject
}.

Record GitLabMergeRequestAttributes := mkGitLabMergeRequestAttributes {
  iid : Z;
  source_branch : jsstring;
  last_commit_id : jsstring;
  action : option jsstring
}.

Record GitLabMergeRequestEvent := mkGitLabMergeRequestEvent {
  mr_project : GitLabProject;
  object_attributes : GitLabMergeRequestAttributes
}.

Inductive GitLabWebhookEvent :=
| Push (event : GitLabPushEvent)
| MergeRequest (event : GitLabMergeRequestEvent)
| OtherKind (object_kind : jsstring).

(** The handlers return nothing; the model returns the exit they take,
    named after what they log there. *)
Inductive RunStatus :=
| SkippedBranchDeletion
| SkippedAlreadyProcessed
| SkippedNoFiles
| SkippedAction
| IgnoredUnsupported
| Completed
| Failed.

(** JSON values of response bodies. *)
Inductive json :=
| JNull
| JBool (b : bool)
| JNum (z : Z)
| JStr (s : jsstring)
| JDate (d : Date)
| JArr (items : list json)
| JObj (fields : list (string * json)).

Record Response := mkResponse {
  status : Z;
  body : json
}.

(** [req.body] of a search request: absent fields are [None]. *)
Record SearchBody := mkSearchBody {
  sb_query : option jsstring;
  sb_projectId : option Z;
  sb_limit : option Z;
  sb_analyze : option bool
}.

Definition zeroSha : jsstring :=
  lit "0000000000000000000000000000000000000000".

Section Controllers.

Variable env : Env.

(** The lookup both handlers start with: the stored metadata, or a
    fresh record built from the provider's project details. *)
Definition resolveProjectMetadata (projectId : Z) : M ProjectMetadata :=
  found <- getProjectMetadata env projectId ;;
  match found with
  | Some projectMetadata => ret projectMetadata
  | None =>
      projectDetails <- getProject env projectId ;;
      lastProcessedAt <- new_Date ;;
      ret {| pm_projectId := projectId;
             name := pd_name projectDetails;
             description :=
               match pd_description projectDetails with
               | Some d => d
               | None => []
               end;
             url := pd_web_url projectDetails;
             defaultBranch := pd_default_branch projectDetails;
             lastProcessedCommit := [];
             lastProcessedAt := lastProcessedAt |}
  end.

Definition set_repositoryUrl (repositoryUrl : jsstring)
    (e : CodeEmbedding) : CodeEmbedding :=
  {| projectId := projectId e; repositoryUrl := repositoryUrl;
     filePath := filePath e; emb_content := emb_content e;
     embedding := embedding e; emb_language := emb_language e;
     commitId := commitId e; branch := branch e;
     createdAt := createdAt e; updatedAt := updatedAt e |}.

Definition mark_processed (m : ProjectMetadata) (commitId : jsstring)
    (at_ : Date) : ProjectMetadata :=
  {| pm_projectId := pm_projectId m; name := name m;
     description := description m; url := url m;
     defaultBranch := defaultBranch m;
     lastProcessedCommit := commitId; lastProcessedAt := at_ |}.

(** From the fetched files on, the two handlers run the same
    statements: embed, save the embeddings, save the batch, update the
    metadata. *)
Definition embedAndStore (projectMetadata : ProjectMetadata)
    (projectId : Z) (commitId branch repositoryUrl : jsstring)
    (files : list CodeFile) : M RunStatus :=
  match files with
  | [] => ret SkippedNoFiles
  | _ :: _ =>
      generated <- generateEmbeddings env files projectId commitId branch ;;
      let embeddings := map (set_repositoryUrl repositoryUrl) generated in
      saveEmbeddings env embeddings ;;
      createdAt <- new_Date ;;
      saveBatch env {| eb_projectId := projectId;
                       eb_commitId := commitId;
                       eb_branch := branch;
                       files := files;
                       embeddings := embeddings;
                       eb_createdAt := createdAt |} ;;
      lastProcessedAt <- new_Date ;;
      updateProjectMetadata env
        (mark_processed projectMetadata commitId lastProcessedAt) ;;
      ret Completed
  end.

Definition processPushEvent (event : GitLabPushEvent) : M RunStatus :=
  try_catch
    (if str_eqb (after event) zeroSha then ret SkippedBranchDeletion
     else
       let projectId := project_id event in
       let commitId := after event in
       let branch := replace_first (lit "refs/heads/") [] (ref event) in
       projectMetadata <- resolveProjectMetadata projectId ;;
       if str_eqb (lastProcessedCommit projectMetadata) commitId
       then ret SkippedAlreadyProcessed
       else
         files <- getAllFiles env projectId commitId ;;
         embedAndStore projectMetadata projectId commitId branch
           (web_url (push_project event)) files)
    (ret Failed).

(** [['open', 'update'].includes(event.object_attributes.action || '')] *)
Definition actionProcessed (action : option jsstring) : bool :=
  let a := match action with Some a => a | None => [] end in
  str_eqb a (lit "open") || str_eqb a (lit "update").

Definition processMergeRequestEvent (event : GitLabMergeRequestEvent)
    : M RunStatus :=
  try_catch
    (if negb (actionProcessed (action (object_attributes event)))
     then ret SkippedAction
     else
       let projectId := gp_id (mr_project event) in
       let sourceBranch := source_branch (object_attributes event) in
       let commitId := last_commit_id (object_attributes event) in
       projectMetadata <- resolveProjectMetadata projectId ;;
       files <- getAllFiles env projectId sourceBranch ;;
       embedAndStore projectMetadata projectId commitId sourceBranch
         (web_url (mr_project event)) files)
    (ret Failed).

(** [processWebhook]: the [202] acknowledgement is sent first, the
    event is processed afterwards. *)
Definition acknowledgement : Response :=
  {| status := 202;
     body := JObj [("message"%string,
                    JStr (lit "Webhook received and processing started"))] |}.

Definition processWebhook (event : GitLabWebhookEvent)
    : M (Response * RunStatus) :=
  st <- try_catch
          (match event with
           | Push e => processPushEvent e
           | MergeRequest e => processMergeRequestEvent e
           | OtherKind _ => ret IgnoredUnsupported
           end)
          (ret Failed) ;;
  ret (acknowledgement, st).

(* ------------------------------------------------------------------- *)
(** *** Search endpoint ([controllers/search.ts]) *)
(* ------------------------------------------------------------------- *)

(** The object built for every result: the embedding is left out. *)
Definition formatResult (result : CodeEmbedding) : json :=
  JObj [("projectId"%string, JNum (projectId result));
        ("repositoryUrl"%string, JStr (repositoryUrl result));
        ("filePath"%string, JStr (filePath result));
        ("language"%string, JStr (emb_language result));
        ("content"%string, JStr (emb_content result));
        ("commitId"%string, JStr (commitId result));
        ("branch"%string, JStr (branch result));
        ("createdAt"%string, JDate (createdAt result))].

Definition truthy_id (projectId : option Z) : option Z :=
  match projectId with
  | Some 0 => None
  | other => other
  end.

Definition searchCode (req : SearchBody) : M Response :=
  try_catch
    (let limit := match sb_limit req with Some l => l | None => 10 end in
     let analyze :=
       match sb_analyze req with Some a => a | None => false end in
     match sb_query req with
     | None | Some [] =>
         ret {| status := 400;
                body := JObj [("error"%string,
                               JStr (lit "Search query is required"))] |}
     | Some query =>
         queryEmbedding <- generateEmbedding env query ;;
         results <-
           match truthy_id (sb_projectId req) with
           | Some projectId =>
               searchSimilarCode env projectId queryEmbedding limit
           | None =>
               searchSimilarCodeAcrossProjects env queryEmbedding limit
           end ;;
         match results with
         | [] =>
             ret {| status := 404;
                    body := JObj [("message"%string,
                                   JStr (lit "No matching code found"));
                                  ("query"%string, JStr query);
                                  ("results"%string, JArr [])] |}
         | _ :: _ =>
             analysis <-
               (if analyze
                then text <- analyzeCode env query results ;;
                     ret (JStr text)
                else ret JNull) ;;
             timestamp <- new_Date ;;
             ret {| status := 200;
                    body := JObj [("query"%string, JStr query);
                                  ("results"%string,
                                   JArr (map formatResult results));
                                  ("analysis"%string, analysis);
                                  ("count"%string,
                                   JNum (Z.of_nat (length results)));
                                  ("timestamp"%string, JDate timestamp)] |}
         end
     end)
    (ret {| status := 500;
            body := JObj [("error"%string,
                           JStr (lit "Internal server error"))] |}).

End Controllers.

(* ===================================================================== *)
(** ** Notions used in the statements *)
(* ===================================================================== *)

Definition size (s : jsstring) : Z := Z.of_nat (length s).


(** A stand-in hash for running [generateProjectIdFromPath]: the digest
    of every path is the same 32 digits. *)
Definition constant_digest (_ : jsstring) : jsstring :=
  lit "d41d8cd98f00b204e9800998ecf8427e".

(** Files used to run [chunkCodeFile]: 20,000 characters without a line
    break, 200 lines of 99 characters, and 4 lines of 4,999 characters. *)
Definition text_file (content : jsstring) : CodeFile :=
  {| path := lit "src/big.txt"; content := content;
     language := lit "text"; lastModified := 0 |}.




(** The key of [UNIQUE(project_id, file_path)] and the invariant the
    constraint maintains. *)
Definition key (r : CodeEmbedding) : Z * jsstring :=
  (projectId r, filePath r).

Definition unique_keys (rows : list CodeEmbedding) : Prop :=
  NoDup (map key rows).

(** The row an upsert of [e] leaves under the key of [e]. *)
Definition upserted (e : CodeEmbedding) (rows : list CodeEmbedding)
    : CodeEmbedding :=
  match find (fun r => same_key r e) rows with
  | Some old => on_conflict old e
  | None => e
  end.

(** The rows stored for a project and path, read back through
    [getEmbeddingsByProject]. *)
Definition at_path (f : jsstring) (rows : list CodeEmbedding)
    : list CodeEmbedding :=
  filter (fun r => str_eqb (filePath r) f) rows.

(** [rows] are the [limit] most recently updated rows of [scope], most
    recent first. *)
Definition more_recent (a b : CodeEmbedding) : Prop :=
  updatedAt b <= updatedAt a.

Definition most_recent (scope : option Z) (limit : Z)
    (table rows : list CodeEmbedding) : Prop :=
  StronglySorted more_recent rows
  /\ length rows
     = Nat.min (Z.to_nat limit) (length (filter (in_scope scope) table))
  /\ exists others,
       Permutation (rows ++ others) (filter (in_scope scope) table)
       /\ forall a b, In a rows -> In b others -> more_recent a b.

(** A field of a JSON object. *)
Fixpoint assoc (k : string) (fields : list (string * json)) : option json :=
  match fields with
  | [] => None
  | (k', v) :: rest => if String.eqb k k' then Some v else assoc k rest
  end.

Definition field (k : string) (j : json) : option json :=
  match j with
  | JObj fields => assoc k fields
  | _ => None
  end.

(** What a response shows of a stored row: an object with the eight
    fields named here, in this order, each carrying the value of the
    row, and no other field. *)
Definition shown_fields : list string :=
  ["projectId"; "repositoryUrl"; "filePath"; "language"; "content";
   "commitId"; "branch"; "createdAt"]%string.

Definition shows (r : CodeEmbedding) (item : json) : Prop :=
  exists fields,
    item = JObj fields
    /\ map fst fields = shown_fields
    /\ assoc "projectId" fields = Some (JNum (projectId r))
    /\ assoc "repositoryUrl" fields = Some (JStr (repositoryUrl r))
    /\ assoc "filePath" fields = Some (JStr (filePath r))
    /\ assoc "language" fields = Some (JStr (emb_language r))
    /\ assoc "content" fields = Some (JStr (emb_content r))
    /\ assoc "commitId" fields = Some (JStr (commitId r))
    /\ assoc "branch" fields = Some (JStr (branch r))
    /\ assoc "createdAt" fields = Some (JDate (createdAt r)).

(** The scope and limit [searchCode] passes to the search. *)
Definition searchScope (req : SearchBody) : option Z :=
  truthy_id (sb_projectId req).

Definition searchLimit (req : SearchBody) : Z :=
  match sb_limit req with Some l => l | None => 10 end.

(** Statements that change the database, as opposed to reads. *)
Definition is_write (e : Event) : bool :=
  match e with
  | Query Begin | Query Commit | Query Rollback
  | Query (UpsertEmbedding _ _) | Query (InsertBatch _)
  | Query (UpsertProject _) => true
  | _ => false
  end.

(** Requests to the repository provider for the file tree or a file. *)
Definition is_fetch (e : Event) : bool :=
  match e with
  | GitlabTree _ _ | GitlabFile _ _ _ => true
  | _ => false
  end.

Definition is_embed (e : Event) : bool :=
  match e with
  | EmbedRequest _ => true
  | _ => false
  end.

(** The statements [saveEmbeddings] issues for a batch that is written
    completely. *)
Definition batch_statements (asVector : bool)
    (embeddings : list CodeEmbedding) : list Event :=
  match embeddings with
  | [] => []
  | _ :: _ =>
      Query Begin
      :: map (fun e => Query (UpsertEmbedding asVector e)) embeddings
      ++ [Query Commit]
  end.

Definition upsert_all (embeddings rows : list CodeEmbedding)
    : list CodeEmbedding :=
  fold_left (fun t e => upsert_embedding e t) embeddings rows.

(* --------------------------------------------------------------------- *)
(** *** A concrete setting to run the pipeline in *)
(* --------------------------------------------------------------------- *)

(** One repository with two blobs and a directory; every service
    answers, no statement fails, the vector extension is absent. *)
Definition demo_env : Env :=
  {| gitlab_project := fun _ =>
       Some {| pd_name := lit "demo"; pd_description := None;
               pd_web_url := lit "https://gitlab.example/demo";
               pd_default_branch := lit "main" |};
     gitlab_tree := fun _ _ =>
       Some [ {| ti_type := lit "tree"; ti_path := lit "src" |};
              {| ti_type := lit "blob"; ti_path := lit "src/a.py" |};
              {| ti_type := lit "blob"; ti_path := lit "src/b.bin" |} ];
     gitlab_file := fun _ p _ =>
       if str_eqb p (lit "src/a.py") then Some (lit "print(1)")
       else Some [1%N; 2%N; 3%N];
     embed_api := fun _ => Some [1; 2; 3];
     OPENROUTER_API_KEY := Some (lit "key");
     llm_api := fun _ _ => inl (lit "analysis");
     statement_fails := fun _ => false;
     row_rejected := fun _ => false;
     nearest := fun _ _ _ _ => None;
     detectLanguage := fun _ => lit "text" |}.

(** The same setting with a database that refuses rows of [bad.py]. *)
Definition strict_env : Env :=
  {| gitlab_project := gitlab_project demo_env;
     gitlab_tree := gitlab_tree demo_env;
     gitlab_file := gitlab_file demo_env;
     embed_api := embed_api demo_env;
     OPENROUTER_API_KEY := OPENROUTER_API_KEY demo_env;
     llm_api := llm_api demo_env;
     statement_fails := statement_fails demo_env;
     row_rejected := fun e => str_eqb (filePath e) (lit "bad.py");
     nearest := nearest demo_env;
     detectLanguage := detectLanguage demo_env |}.

Definition demo_row (pid : Z) (file text : string) (commit : string)
    (at_ : Date) : CodeEmbedding :=
  {| projectId := pid; repositoryUrl := lit "https://gitlab.example/demo";
     filePath := lit file; emb_content := lit text; embedding := [1; 2; 3];
     emb_language := lit "python"; commitId := lit commit;
     branch := lit "main"; createdAt := at_; updatedAt := at_ |}.

Definition empty_store : Store :=
  {| column_type := [lit "jsonb"]; tbl_projects := [];
     tbl_embeddings := []; tbl_batches := [] |}.

Definition world_of (s : Store) : World :=
  {| db := s; txn := None; log := []; clock := 1000 |}.

(** Project 7 has been processed up to commit [c1]. *)
Definition processed_store : Store :=
  {| column_type := [lit "jsonb"];
     tbl_projects :=
       [ {| pm_projectId := 7; name := lit "demo"; description := [];
            url := lit "https://gitlab.example/demo";
            defaultBranch := lit "main";
            lastProcessedCommit := lit "c1"; lastProcessedAt := 900 |} ];
     tbl_embeddings := [demo_row 7 "src/a.py" "print(0)" "c1" 900];
     tbl_batches := [] |}.

Definition demo_project : GitLabProject :=
  {| gp_id := 7; web_url := lit "https://gitlab.example/demo" |}.

Definition push_of (commit : jsstring) : GitLabPushEvent :=
  {| after := commit; ref := lit "refs/heads/main"; project_id := 7;
     push_project := demo_project |}.

Definition merge_request_of (act : string) (commit : jsstring)
    : GitLabMergeRequestEvent :=
  {| mr_project := demo_project;
     object_attributes :=
       {| iid := 1; source_branch := lit "feature";
          last_commit_id := commit; action := Some (lit act) |} |}.

(** Two versions of one file, and the worlds after writing them in
    turn into an empty database. *)
Definition version_A : CodeEmbedding :=
  demo_row 7 "src/a.py" "print(1)" "c1" 1000.

Definition version_B : CodeEmbedding :=
  demo_row 7 "src/a.py" "print(2)" "c2" 2000.

Definition after_A : World :=
  snd (saveEmbedding demo_env version_A (world_of empty_store)).

Definition after_A_B : World :=
  snd (saveEmbedding demo_env version_B after_A).

(** A batch whose second row the database of [strict_env] refuses. *)
Definition mixed_batch : list CodeEmbedding :=
  [ demo_row 7 "src/a.py" "print(2)" "c2" 2000;
    demo_row 7 "bad.py" "print(3)" "c2" 2000;
    demo_row 7 "src/c.py" "print(4)" "c2" 2000 ].

(** Three rows of two projects for the search examples. *)
Definition search_store : Store :=
  {| column_type := [lit "jsonb"];
     tbl_projects := [];
     tbl_embeddings :=
       [ demo_row 7 "old.py" "print(1)" "c1" 100;
         demo_row 8 "other.py" "print(2)" "c5" 300;
         demo_row 7 "new.py" "print(3)" "c2" 200 ];
     tbl_batches := [] |}.

(** [m] moves every world along the relation [R]. *)
Definition respects {A} (R : World -> World -> Prop) (m : M A) : Prop :=
  forall w, R w (snd (m w)).

(** Nothing is written: the committed state is the same and the events
    added are no writes. *)
Definition quiet (w w' : World) : Prop :=
  db w' = db w
  /\ exists issued,
       log w' = log w ++ issued
       /\ Forall (fun e => is_write e = false) issued.

(** The commit an event asks to process. *)
Definition commit_of (event : GitLabWebhookEvent) : jsstring :=
  match event with
  | Push e => after e
  | MergeRequest e => last_commit_id (object_attributes e)
  | OtherKind _ => []
  end.



(** The search request of the examples. *)
Definition demo_search : SearchBody :=
  {| sb_query := Some (lit "print"); sb_projectId := None;
     sb_limit := Some 5; sb_analyze := Some true |}.

(* ===================================================================== *)
(** * Further definitions *)
(* ===================================================================== *)

(** The lines of a chunk, each followed by its line break. *)
Definition join_lines (lines : list jsstring) : jsstring :=
  flat_map (fun l => l ++ [NL]) lines.

(** A small file with a long first line, for running [chunkCodeFile]
    with a threshold of five characters. *)
Definition long_first_line : CodeFile :=
  text_file (lit "aaaaaaaaaa" ++ [NL] ++ lit "bb").

Section MoreQueries.

Variable env : Env.

(** [DatabaseService.getEmbeddingsByCommit]: the rows of a project
    whose [commit_id] is the given commit.  In the event log
    [SelectEmbeddings pid] stands for both [SELECT]s over the
    embeddings of a project. *)
Definition getEmbeddingsByCommit (pid : Z) (commit : jsstring)
    : M (list CodeEmbedding) :=
  connect ;;
  _ <- select_column_type env ;;
  select env (SelectEmbeddings pid)
    (fun s =>
       Some (filter (fun r => (projectId r =? pid)
                              && str_eqb (commitId r) commit)
               (tbl_embeddings s))).

End MoreQueries.

(** The primary key of [projects]. *)
Definition unique_projects (rows : list ProjectMetadata) : Prop :=
  NoDup (map pm_projectId rows).

(** A metadata record of project 7, processed up to commit [c9]. *)
Definition demo_metadata : ProjectMetadata :=
  {| pm_projectId := 7; name := lit "demo"; description := [];
     url := lit "https://gitlab.example/demo"; defaultBranch := lit "main";
     lastProcessedCommit := lit "c9"; lastProcessedAt := 5 |}.

(* --------------------------------------------------------------------- *)
(** *** Notions for the embedding generator and the provider adapter *)
(* --------------------------------------------------------------------- *)

(** The files [generateEmbeddings] sends to the embedding service, and
    those it gets an embedding for. *)
Definition eligibleFile (f : CodeFile) : bool :=
  contentEligible (content f).

Definition embeddable (env : Env) (f : CodeFile) : bool :=
  eligibleFile f
  && match embed_api env (content f) with
     | Some _ => true
     | None => false
     end.

(** [e] is the embedding row built for the file [f]. *)
Definition embedding_of (env : Env) (pid : Z) (commit br : jsstring)
    (f : CodeFile) (e : CodeEmbedding) : Prop :=
  projectId e = pid
  /\ repositoryUrl e = []
  /\ filePath e = path f
  /\ emb_content e = content f
  /\ embed_api env (content f) = Some (embedding e)
  /\ emb_language e = language f
  /\ commitId e = commit
  /\ branch e = br.

(** The blobs of a tree, and the file [getAllFiles] builds for one:
    its content is what the provider returns, or the empty string when
    the read fails. *)
Definition blobs (tree : list TreeItem) : list TreeItem :=
  filter (fun item => str_eqb (ti_type item) (lit "blob")) tree.

Definition fetched_as (env : Env) (pid : Z) (ref : jsstring)
    (item : TreeItem) (f : CodeFile) : Prop :=
  path f = ti_path item
  /\ content f = match gitlab_file env pid (ti_path item) ref with
                 | Some data => data
                 | None => []
                 end
  /\ language f = detectLanguage env (ti_path item).

(* --------------------------------------------------------------------- *)
(** *** Notions for the states a run can leave behind *)
(* --------------------------------------------------------------------- *)

(** The three writes of a run, as functions on the store. *)
Definition store_embeddings (s : Store) (embs : list CodeEmbedding)
    : Store :=
  with_embeddings s (upsert_all embs (tbl_embeddings s)).

Definition store_batch (s : Store) (b : EmbeddingBatch) : Store :=
  {| column_type := column_type s;
     tbl_projects := tbl_projects s;
     tbl_embeddings := tbl_embeddings s;
     tbl_batches := tbl_batches s ++ [batch_row b] |}.

Definition store_project (s : Store) (m : ProjectMetadata) : Store :=
  {| column_type := column_type s;
     tbl_projects := upsert_project m (tbl_projects s);
     tbl_embeddings := tbl_embeddings s;
     tbl_batches := tbl_batches s |}.

(** A batch and a metadata record of a run for project [pid] and
    commit [commit]. *)
Definition run_records (pid : Z) (commit : jsstring)
    (batch : EmbeddingBatch) (meta : ProjectMetadata) : Prop :=
  eb_projectId batch = pid
  /\ eb_commitId batch = commit
  /\ Forall (fun e => projectId e = pid /\ commitId e = commit)
       (embeddings batch)
  /\ pm_projectId meta = pid
  /\ lastProcessedCommit meta = commit.

(** The states of the store after a run that started in [s]: nothing
    written; the embeddings written; the embeddings and the batch
    written; all three written, which is the completed run. *)
Definition run_stages (pid : Z) (commit : jsstring) (completed : bool)
    (s s' : Store) : Prop :=
  (completed = false /\ s' = s)
  \/ exists batch meta,
       run_records pid commit batch meta
       /\ ((completed = false
            /\ s' = store_embeddings s (embeddings batch))
           \/ (completed = false
               /\ s' = store_batch (store_embeddings s (embeddings batch))
                         batch)
           \/ (completed = true
               /\ s' = store_project
                         (store_batch
                            (store_embeddings s (embeddings batch)) batch)
                         meta)).

Definition is_completed (st : RunStatus) : bool :=
  match st with
  | Completed => true
  | _ => false
  end.

(** The project an event is about. *)
Definition project_of (event : GitLabWebhookEvent) : option Z :=
  match event with
  | Push e => Some (project_id e)
  | MergeRequest e => Some (gp_id (mr_project e))
  | OtherKind _ => None
  end.

(** The rows of one project. *)
Definition rows_of (pid : Z) (rows : list CodeEmbedding)
    : list CodeEmbedding :=
  filter (fun r => projectId r =? pid) rows.

Definition metadata_of (pid : Z) (rows : list ProjectMetadata)
    : option ProjectMetadata :=
  find (fun r => pm_projectId r =? pid) rows.

(** No statement fails and no row is refused. *)
Definition reliable (env : Env) : Prop :=
  (forall n, statement_fails env n = false)
  /\ (forall e, row_rejected env e = false).

(** The batch records of one project. *)
Definition batches_of (pid : Z) (rows : list BatchRow) : list BatchRow :=
  filter (fun b => br_projectId b =? pid) rows.

(** A push for project 8 in the demo setting. *)
Definition push_to_8 : GitLabPushEvent :=
  {| after := lit "d1"; ref := lit "refs/heads/main"; project_id := 8;
     push_project := {| gp_id := 8;
                        web_url := lit "https://gitlab.example/other" |} |}.

(** The commit recorded for a project; a project without a metadata
    row starts from the empty string. *)
Definition recordedCommit (pid : Z) (s : Store) : jsstring :=
  match metadata_of pid (tbl_projects s) with
  | Some m => lastProcessedCommit m
  | None => []
  end.

(** The provider knows every project the database does not. *)
Definition resolvable (env : Env) (pid : Z) (s : Store) : Prop :=
  metadata_of pid (tbl_projects s) = None ->
  gitlab_project env pid <> None.

(** The demo setting with an embedding service that is down. *)
Definition embedless_env : Env :=
  {| gitlab_project := gitlab_project demo_env;
     gitlab_tree := gitlab_tree demo_env;
     gitlab_file := gitlab_file demo_env;
     embed_api := fun _ => None;
     OPENROUTER_API_KEY := OPENROUTER_API_KEY demo_env;
     llm_api := llm_api demo_env;
     statement_fails := statement_fails demo_env;
     row_rejected := row_rejected demo_env;
     nearest := nearest demo_env;
     detectLanguage := detectLanguage demo_env |}.

(** What the search endpoint may ask of the outside world: an
    embedding of the query, the three statements of the search and,
    when [analyze] is set, the language model. *)
Definition is_search_call (analyze : bool) (e : Event) : bool :=
  match e with
  | EmbedRequest _
  | Query SelectColumnType
  | Query (SelectNearest _ _ _)
  | Query (SelectRecent _ _) => true
  | LlmRequest _ _ => analyze
  | _ => false
  end.

(** [analyze = false] in the destructuring of [req.body]. *)
Definition searchAnalyze (req : SearchBody) : bool :=
  match sb_analyze req with Some a => a | None => false end.

(** Between [w] and [w'] the committed state stays as it is and only
    events that [allowed] accepts are issued. *)
Definition issues_only (allowed : Event -> bool) (w w' : World) : Prop :=
  db w' = db w
  /\ exists issued,
       log w' = log w ++ issued
       /\ Forall (fun e => allowed e = true) issued.

(** A search request without a query. *)
Definition no_query : SearchBody :=
  {| sb_query := None; sb_projectId := Some 7; sb_limit := None;
     sb_analyze := None |}.

(* --------------------------------------------------------------------- *)
(** *** Authentication middleware ([middleware/api-auth.ts],
        [middleware/webhook-auth.ts]) *)
(* --------------------------------------------------------------------- *)

(** A middleware calls [next()] or answers itself. *)
Inductive Middleware :=
| Next
| Respond (r : Response).

(** [a !== b] *)
Definition strictNotEqual (a b : option jsstring) : bool :=
  match a, b with
  | Some x, Some y => negb (str_eqb x y)
  | None, None => false
  | _, _ => true
  end.

Definition unauthorized (reason : string) : Middleware :=
  Respond {| status := 401;
             body := JObj [("error"%string, JStr (lit reason))] |}.

(** [apiAuth]: [API_KEY] is [process.env.API_KEY], [apiKey] is
    [req.headers['x-api-key']]. *)
Definition apiAuth (API_KEY apiKey : option jsstring) : Middleware :=
  if falsy API_KEY then Next
  else if falsy apiKey then unauthorized "Unauthorized: Missing API key"
  else if strictNotEqual apiKey API_KEY
       then unauthorized "Unauthorized: Invalid API key"
  else Next.

(** [webhookAuth]: [WEBHOOK_SECRET] is [process.env.WEBHOOK_SECRET],
    [token] is [req.headers['x-gitlab-token']]. *)
Definition webhookAuth (WEBHOOK_SECRET token : option jsstring)
    : Middleware :=
  if falsy WEBHOOK_SECRET then Next
  else if falsy token
       then unauthorized "Unauthorized: Missing authentication token"
  else if strictNotEqual token WEBHOOK_SECRET
       then unauthorized "Unauthorized: Invalid token"
  else Next.

(** Whether a middleware let the request through. *)
Definition passes (m : Middleware) : Prop := m = Next.

Definition rejects (m : Middleware) : Prop :=
  exists r, m = Respond r /\ status r = 401.
(* ===================================================================== *)
(** * Properties *)
(* ===================================================================== *)

(** *** The binary64 threshold agrees with the exact ratio

    Below the size ceiling the rounded product [n * 0.1] lies between
    [n / 10] (rounded down) and the next integer, so comparing an integer
    count with it is comparing [10 * count] with [n]. *)
Lemma round53_small (n : Z) :
  Z.log2 n + 1 <= 53 -> round53 n = n.
Proof.
  intros H. unfold round53.
  destruct (Z.leb_spec (Z.log2 n + 1) 53); [reflexivity|lia].
Qed.

Lemma round53_large (n : Z) :
  53 < Z.log2 n + 1 ->
  exists q, round53 n = q * 2 ^ (Z.log2 n - 52)
            /\ n / 2 ^ (Z.log2 n - 52) <= q <= n / 2 ^ (Z.log2 n - 52) + 1.
Proof.
  intros H. unfold round53.
  destruct (Z.leb_spec (Z.log2 n + 1) 53) as [Hle|_]; [lia|].
  replace (Z.log2 n + 1 - 53) with (Z.log2 n - 52) by lia.
  set (s := Z.log2 n - 52).
  assert (Hs : 0 <= s) by (unfold s; lia).
  rewrite Z.shiftr_div_pow2 by exact Hs.
  match goal with
  | |- context [if ?c then _ else _] => destruct c
  end; rewrite Z.shiftl_mul_pow2 by exact Hs; eexists; split;
    try reflexivity; lia.
Qed.

Lemma times_tenth_bracket (n : Z) :
  0 <= n <= sizeCeiling ->
  (n / 10) * 2 ^ 56 <= times_tenth n < (n / 10 + 1) * 2 ^ 56.
Proof.
  unfold sizeCeiling, times_tenth, tenth_significand. intros Hn.
  pose proof (Z.div_mod n 10 ltac:(lia)) as Hdm.
  pose proof (Z.mod_pos_bound n 10 ltac:(lia)) as Hmod.
  set (a := n / 10) in *. set (b := n mod 10) in *.
  set (N := n * 7205759403792794).
  assert (HN : N = a * (2 ^ 56 + 4) + b * 7205759403792794)
    by (unfold N; change (2 ^ 56) with 72057594037927936; lia).
  destruct (Z.le_gt_cases (Z.log2 N + 1) 53) as [Hk|Hk].
  - rewrite (round53_small _ Hk).
    change (2 ^ 56) with 72057594037927936 in *. lia.
  - destruct (round53_large _ Hk) as (q & -> & Hq).
    set (s := Z.log2 N - 52) in *.
    assert (Hs0 : 0 < s) by (unfold s; lia).
    assert (Hs17 : s <= 17).
    { assert (Z.log2 N < 70); [|unfold s; lia].
      assert (HNpos : 0 < N).
      { destruct (Z.lt_ge_cases 0 N) as [Hpos|Hneg]; [exact Hpos|].
        rewrite Z.log2_nonpos in Hk by lia. lia. }
      apply Z.log2_lt_pow2; [exact HNpos|].
      change (2 ^ 70) with 1180591620717411303424. unfold N. lia. }
    assert (HP : 0 < 2 ^ s) by (apply Z.pow_pos_nonneg; lia).
    assert (HP17 : 2 ^ s <= 2 ^ 17) by (apply Z.pow_le_mono_r; lia).
    assert (Hsplit : 2 ^ 56 = 2 ^ (56 - s) * 2 ^ s)
      by (rewrite <- Z.pow_add_r by lia; f_equal; lia).
    assert (HR : 0 < 2 ^ (56 - s)) by (apply Z.pow_pos_nonneg; lia).
    pose proof (Z.div_mod N (2 ^ s) ltac:(lia)) as HdmN.
    pose proof (Z.mod_pos_bound N (2 ^ s) HP) as HmodN.
    set (P := 2 ^ s) in *. set (R := 2 ^ (56 - s)) in *.
    set (d := N / P) in *. set (r := N mod P) in *.
    split.
    + rewrite Hsplit. rewrite Z.mul_assoc.
      apply Z.mul_le_mono_nonneg_r; [lia|].
      assert (a * R * P <= N).
      { rewrite <- Z.mul_assoc, <- Hsplit, HN.
        change (2 ^ 56) with 72057594037927936. lia. }
      assert (a * R < d + 1) by nia. lia.
    + assert (q * P <= N + P) by nia.
      change (2 ^ 17) with 131072 in HP17.
      change (2 ^ 56) with 72057594037927936 in *. lia.
Qed.

(** [3 * 0.1] is [0.30000000000000004] and [7 * 0.1] is
    [0.7000000000000001]: the doubles [5404319552844596 * 2^-54] and
    [6305039478318695 * 2^-53]. *)
Example times_tenth_3_7 :
  times_tenth 3 = 5404319552844596 * 2 ^ 2
  /\ times_tenth 7 = 6305039478318695 * 2 ^ 3.
Proof. split; reflexivity. Qed.

Lemma ratio_exceeded_exact (count len : nat) :
  Z.of_nat len <= sizeCeiling ->
  ratio_exceeded count len = (Z.of_nat len <? 10 * Z.of_nat count).
Proof.
  intros Hlen.
  destruct (times_tenth_bracket (Z.of_nat len)) as [Hlo Hhi]; [lia|].
  unfold ratio_exceeded.
  set (n := Z.of_nat len) in *. set (c := Z.of_nat count) in *.
  set (t := times_tenth n) in *. clearbody t.
  assert (Hpow : 0 < 2 ^ 56) by (apply Z.pow_pos_nonneg; lia).
  generalize dependent (2 ^ 56). intros P Hlo Hhi HP.
  pose proof (Z.div_mod n 10 ltac:(lia)) as Hdm.
  pose proof (Z.mod_pos_bound n 10 ltac:(lia)) as Hmod.
  destruct (Z.ltb_spec n (10 * c)) as [H|H].
  - apply Z.ltb_lt. assert (n / 10 + 1 <= c) by lia. nia.
  - apply Z.ltb_ge. assert (c <= n / 10) by lia. nia.
Qed.

(* --------------------------------------------------------------------- *)
(** ** Strings *)
(* --------------------------------------------------------------------- *)

Lemma str_eqb_eq (a b : jsstring) : str_eqb a b = true <-> a = b.
Proof.
  revert b. induction a as [|x a IH]; intros [|y b]; cbn;
    try (split; (discriminate || reflexivity)).
  rewrite andb_true_iff, IH. unfold char_eqb. rewrite N.eqb_eq.
  split; [intros [-> ->]; reflexivity | intros [= -> ->]; split; reflexivity].
Qed.

Lemma str_eqb_refl (a : jsstring) : str_eqb a a = true.
Proof. apply str_eqb_eq. reflexivity. Qed.

Lemma str_eqb_neq (a b : jsstring) : a <> b -> str_eqb a b = false.
Proof.
  intros H. destruct (str_eqb a b) eqn:E; [|reflexivity].
  apply str_eqb_eq in E. contradiction.
Qed.

(* --------------------------------------------------------------------- *)
(** ** Content filter *)
(* --------------------------------------------------------------------- *)

Lemma isBinaryContent_exact (content : jsstring) :
  Z.of_nat (length content) <= sizeCeiling ->
  isBinaryContent content
  = includes_nul content
    || (Z.of_nat (length content) <? 10 * Z.of_nat (nonPrintableCount content)).
Proof.
  intros Hlen. unfold isBinaryContent.
  destruct (includes_nul content); [reflexivity|].
  cbn [orb]. apply ratio_exceeded_exact. exact Hlen.
Qed.

(** C7, as stated, fails on the empty content: it has no null byte, no
    non-printable character and length zero, and the guard of
    [generateEmbeddings] skips it ([!file.content]). *)
Lemma empty_content_is_skipped :
  includes_nul [] = false
  /\ (10 * nonPrintableCount [] <= length (@nil char))%nat
  /\ Z.of_nat (length (@nil char)) <= sizeCeiling
  /\ contentEligible [] = false.
Proof. repeat split; cbn; try reflexivity; try lia. discriminate. Qed.

(** C7 (amended): every non-empty content without a null byte, whose
    non-printable characters (codes below 32 other than tab, newline and
    carriage return) make up at most 10% of its length, and whose length
    is at most the ceiling of 100,000 characters, is eligible for
    embedding. *)
Theorem nonempty_text_content_is_eligible (content : jsstring) :
  content <> [] ->
  includes_nul content = false ->
  (10 * nonPrintableCount content <= length content)%nat ->
  Z.of_nat (length content) <= sizeCeiling ->
  contentEligible content = true.
Proof.
  intros Hne Hnul Hratio Hlen.
  unfold contentEligible, skipContent.
  rewrite (isBinaryContent_exact _ Hlen), Hnul.
  destruct content as [|c rest]; [contradiction|].
  cbn [is_empty orb].
  destruct (Z.ltb_spec sizeCeiling (Z.of_nat (length (c :: rest)))); [lia|].
  destruct (Z.ltb_spec (Z.of_nat (length (c :: rest)))
              (10 * Z.of_nat (nonPrintableCount (c :: rest)))); [lia|].
  reflexivity.
Qed.

Lemma nonempty_text_content_is_eligible_witness :
  contentEligible (lit "print(1)") = true.
Proof.
  apply nonempty_text_content_is_eligible.
  - discriminate.
  - reflexivity.
  - cbn. lia.
  - cbn. unfold sizeCeiling. lia.
Defined.

(* --------------------------------------------------------------------- *)
(** ** Project identifiers *)
(* --------------------------------------------------------------------- *)

Lemma lowerHex_digit (c : char) :
  lowerHex c = true -> exists d, hexDigit c = Some d /\ 0 <= d < 16.
Proof.
  unfold lowerHex, hexDigit. intros H.
  destruct ((48 <=? c) && (c <=? 57))%N eqn:E1.
  - apply andb_true_iff in E1 as [H1 H2].
    apply N.leb_le in H1, H2. eexists; split; [reflexivity|lia].
  - cbn [orb] in H. rewrite H.
    apply andb_true_iff in H as [H1 H2].
    apply N.leb_le in H1, H2. eexists; split; [reflexivity|lia].
Qed.

Lemma lowerHex_not_space (c : char) :
  lowerHex c = true -> isWhiteSpace c = false.
Proof.
  intros H. destruct (isWhiteSpace c) eqn:E; [|reflexivity].
  unfold isWhiteSpace in E. apply existsb_exists in E as (x & Hin & Hx).
  apply N.eqb_eq in Hx. subst x.
  cbn in Hin.
  repeat (destruct Hin as [<-|Hin]; [discriminate H|]).
  contradiction.
Qed.

Lemma hexPrefix_digits (s : jsstring) :
  forall a, forallb lowerHex s = true -> 0 <= a ->
    exists v, hexPrefix (Some a) s = Some v
              /\ 0 <= v < (a + 1) * 16 ^ Z.of_nat (length s).
Proof.
  induction s as [|c s IH]; intros a Hs Ha.
  - exists a. split; [reflexivity|]. cbn. lia.
  - cbn [forallb] in Hs. apply andb_true_iff in Hs as [Hc Hs].
    destruct (lowerHex_digit _ Hc) as (d & Hd & Hrange).
    cbn [hexPrefix]. rewrite Hd.
    destruct (IH (16 * a + d) Hs ltac:(lia)) as (v & Hv & Hb).
    exists v. split; [exact Hv|].
    cbn [length]. rewrite Nat2Z.inj_succ, Z.pow_succ_r by lia.
    assert (0 < 16 ^ Z.of_nat (length s)) by (apply Z.pow_pos_nonneg; lia).
    nia.
Qed.

Lemma parseInt16_hex (s : jsstring) :
  s <> [] -> forallb lowerHex s = true ->
  exists v, parseInt16 s = Some v /\ 0 <= v < 16 ^ Z.of_nat (length s).
Proof.
  intros Hne Hs. destruct s as [|c s]; [contradiction|].
  pose proof Hs as Hall.
  cbn [forallb] in Hs. apply andb_true_iff in Hs as [Hc Hs].
  unfold parseInt16. cbn [trimStart].
  rewrite (lowerHex_not_space _ Hc).
  assert (Hminus : (c =? 45)%N = false).
  { apply N.eqb_neq. intros ->. discriminate Hc. }
  assert (Hplus : (c =? 43)%N = false).
  { apply N.eqb_neq. intros ->. discriminate Hc. }
  rewrite Hminus, Hplus. cbv beta iota zeta.
  match goal with
  | |- context [hexPrefix None ?t] => assert (Hprefix : t = c :: s)
  end.
  { destruct s as [|x rest]; [reflexivity|].
    cbn [forallb] in Hs. apply andb_true_iff in Hs as [Hx _].
    assert (Hx1 : (x =? 120)%N = false).
    { apply N.eqb_neq. intros ->. discriminate Hx. }
    assert (Hx2 : (x =? 88)%N = false).
    { apply N.eqb_neq. intros ->. discriminate Hx. }
    rewrite Hx1, Hx2, andb_false_r. reflexivity. }
  rewrite Hprefix.
  destruct (lowerHex_digit _ Hc) as (d & Hd & Hrange).
  cbn [hexPrefix]. rewrite Hd.
  destruct (hexPrefix_digits s (16 * 0 + d) Hs ltac:(lia)) as (v & Hv & Hb).
  exists v. rewrite Hv. split.
  - cbn [option_map]. f_equal. lia.
  - cbn [length]. rewrite Nat2Z.inj_succ, Z.pow_succ_r by lia.
    assert (0 < 16 ^ Z.of_nat (length s)) by (apply Z.pow_pos_nonneg; lia).
    nia.
Qed.

Example parseInt16_values :
  parseInt16 (lit "d41d8cd9") = Some 3558706393
  /\ parseInt16 (lit "  -0x1F") = Some (-31)
  /\ parseInt16 (lit "12xyz") = Some 18
  /\ parseInt16 (lit "xyz") = None
  /\ generateProjectIdFromPath constant_digest (lit "group/project")
     = Some 1411222746.
Proof. repeat split. Qed.

(** C10: for a hash function that returns 32 lower-case hexadecimal
    digits, [generateProjectIdFromPath] yields for every path a number
    [n] with [0 <= n < 2147483647]; the result is a function of the
    path alone. *)
Theorem generateProjectIdFromPath_fits_int32
    (md5_hex : jsstring -> jsstring)
    (Hdigest : forall p, isHexDigest (md5_hex p) = true)
    (path : jsstring) :
  exists n,
    generateProjectIdFromPath md5_hex path = Some n
    /\ 0 <= n < 2147483647
    /\ forall path', path' = path ->
         generateProjectIdFromPath md5_hex path' = Some n.
Proof.
  specialize (Hdigest path). unfold isHexDigest in Hdigest.
  apply andb_true_iff in Hdigest as [Hlen Hhex].
  apply Nat.eqb_eq in Hlen.
  assert (Hfirst : forallb lowerHex (firstn 8 (md5_hex path)) = true).
  { apply forallb_forall. intros c Hc.
    apply (proj1 (forallb_forall _ _) Hhex).
    rewrite <- (firstn_skipn 8 (md5_hex path)). apply in_or_app. left.
    exact Hc. }
  assert (Hlen8 : length (firstn 8 (md5_hex path)) = 8%nat)
    by (rewrite length_firstn, Hlen; reflexivity).
  destruct (parseInt16_hex (firstn 8 (md5_hex path))) as (v & Hv & Hb).
  { intros E. rewrite E in Hlen8. discriminate. }
  { exact Hfirst. }
  rewrite Hlen8 in Hb. change (16 ^ Z.of_nat 8) with 4294967296 in Hb.
  assert (Hid : generateProjectIdFromPath md5_hex path
                = Some (Z.abs (Z.rem v 2147483647))).
  { unfold generateProjectIdFromPath. cbv zeta. rewrite Hv. reflexivity. }
  exists (Z.abs (Z.rem v 2147483647)). split; [exact Hid|]. split.
  - pose proof (Z.rem_bound_pos v 2147483647 ltac:(lia) ltac:(lia)). lia.
  - intros path' ->. exact Hid.
Qed.

Lemma generateProjectIdFromPath_fits_int32_witness :
  exists n,
    generateProjectIdFromPath constant_digest (lit "group/project") = Some n
    /\ 0 <= n < 2147483647
    /\ forall path', path' = lit "group/project" ->
         generateProjectIdFromPath constant_digest path' = Some n.
Proof.
  apply generateProjectIdFromPath_fits_int32.
  intros p. reflexivity.
Defined.

(* --------------------------------------------------------------------- *)
(** ** Chunking *)
(* --------------------------------------------------------------------- *)

Lemma split_on_nonempty (sep : char) (s : jsstring) : split_on sep s <> [].
Proof.
  destruct s as [|c rest]; cbn; [discriminate|].
  destruct (char_eqb c sep); [discriminate|].
  destruct (split_on sep rest); discriminate.
Qed.

(** Joining the lines, each followed by the separator, gives the string
    back with one more separator at its end. *)
Lemma split_on_join (sep : char) (s : jsstring) :
  flat_map (fun l => l ++ [sep]) (split_on sep s) = s ++ [sep].
Proof.
  induction s as [|c rest IH]; [reflexivity|].
  cbn [split_on]. destruct (char_eqb c sep) eqn:E.
  - apply N.eqb_eq in E. subst c. cbn [flat_map app]. rewrite IH.
    reflexivity.
  - destruct (split_on sep rest) as [|l ls] eqn:Es.
    + exfalso. exact (split_on_nonempty sep rest Es).
    + cbn [flat_map] in *. cbn [app]. rewrite <- IH. reflexivity.
Qed.

Section ChunkLines.

Variable file : CodeFile.
Variable maxChunkSize : Z.

Lemma chunkLines_concat (lines : list jsstring) :
  forall currentChunk chunkIndex chunks,
    concat (map content
              (chunkLines file maxChunkSize lines currentChunk chunkIndex
                 chunks))
    = concat (map content chunks) ++ currentChunk
        ++ flat_map (fun l => l ++ [NL]) lines.
Proof.
  induction lines as [|line rest IH]; intros cur idx chunks;
    cbn [chunkLines flat_map].
  - destruct cur as [|c cur]; cbn [is_empty].
    + rewrite !app_nil_r. reflexivity.
    + rewrite map_app, concat_app. cbn. rewrite !app_nil_r. reflexivity.
  - destruct (maxChunkSize <? _); rewrite IH.
    + rewrite map_app, concat_app. cbn [map concat content mkChunk].
      rewrite app_nil_r, <- !app_assoc. reflexivity.
    + rewrite <- !app_assoc. reflexivity.
Qed.









End ChunkLines.










(* --------------------------------------------------------------------- *)
(** ** The monad and the database client *)
(* --------------------------------------------------------------------- *)

Lemma bind_inv {A B} (m : M A) (k : A -> M B) w o w' :
  bind m k w = (o, w') ->
  (exists a w1, m w = (Returned a, w1) /\ k a w1 = (o, w'))
  \/ (m w = (Thrown, w') /\ o = Thrown).
Proof.
  unfold bind. destruct (m w) as [[a|] w1]; intros H.
  - left. exists a, w1. split; [reflexivity|exact H].
  - right. inversion H; subst. split; reflexivity.
Qed.

Lemma try_catch_inv {A} (body handler : M A) w o w' :
  try_catch body handler w = (o, w') ->
  (exists a, body w = (Returned a, w') /\ o = Returned a)
  \/ (exists w1, body w = (Thrown, w1) /\ handler w1 = (o, w')).
Proof.
  unfold try_catch. destruct (body w) as [[a|] w1]; intros H.
  - left. exists a. inversion H; subst. split; reflexivity.
  - right. exists w1. split; [reflexivity|exact H].
Qed.

(** A statement either fails, leaving both states as they are, or runs
    on the current state. *)
Lemma client_query_inv env {A} stmt (run : Store -> option (A * Store))
    w o w' :
  client_query env stmt run w = (o, w') ->
  log w' = log w ++ [Query stmt] /\ clock w' = clock w
  /\ ((o = Thrown /\ db w' = db w /\ txn w' = txn w
       /\ (statement_fails env (length (log w)) = true
           \/ run (current w) = None))
      \/ (exists a s', o = Returned a
            /\ statement_fails env (length (log w)) = false
            /\ run (current w) = Some (a, s')
            /\ current w' = s'
            /\ (txn w = None -> db w' = s' /\ txn w' = None)
            /\ (txn w <> None -> db w' = db w /\ txn w' = Some s'))).
Proof.
  unfold client_query, set_current, current.
  destruct (statement_fails env (length (log w))).
  - intros H. inversion H; subst; cbn. repeat split. left. auto.
  - destruct (run match txn w with Some s => s | None => db w end)
      as [[a s']|] eqn:Er.
    + cbn [txn db log clock].
      destruct (txn w) as [t|] eqn:Et; intros H; inversion H; subst; cbn;
        repeat split; right; exists a, s'; repeat split; auto;
        try discriminate; try contradiction; intros; congruence.
    + intros H. inversion H; subst; cbn. repeat split. left. auto.
Qed.

Lemma store_eta (s : Store) :
  {| column_type := column_type s; tbl_projects := tbl_projects s;
     tbl_embeddings := tbl_embeddings s; tbl_batches := tbl_batches s |} = s.
Proof. destruct s; reflexivity. Qed.

Tactic Notation "inv_bind" hyp(H) "as" ident(a) ident(w1) ident(H1)
    ident(H2) :=
  apply bind_inv in H; destruct H as [(a & w1 & H1 & H2)|[H1 H2]].

Lemma connect_run w :
  connect w = (Returned tt,
               {| db := db w; txn := None; log := log w; clock := clock w |}).
Proof. reflexivity. Qed.

(** After [connect], a statement acts on the committed state. *)
Lemma insert_embedding_inv env asVector e w o w' :
  insert_embedding env asVector e w = (o, w') ->
  log w' = log w ++ [Query (UpsertEmbedding asVector e)]
  /\ clock w' = clock w
  /\ ((o = Thrown /\ db w' = db w /\ txn w' = txn w)
      \/ (o = Returned tt /\ row_rejected env e = false
          /\ current w'
             = with_embeddings (current w)
                 (upsert_embedding e (tbl_embeddings (current w)))
          /\ (txn w = None -> db w' = current w' /\ txn w' = None)
          /\ (txn w <> None -> db w' = db w /\ txn w' <> None))).
Proof.
  unfold insert_embedding, execute. intros H.
  apply client_query_inv in H as (Hlog & Hclock & [H|H]).
  - destruct H as (-> & Hdb & Htxn & _). auto 6.
  - destruct H as ([] & s' & -> & _ & Hrun & Hcur & Hnone & Hsome).
    destruct (row_rejected env e); [discriminate|].
    injection Hrun as <-.
    split; [exact Hlog|]. split; [exact Hclock|]. right.
    split; [reflexivity|]. split; [reflexivity|]. split; [exact Hcur|].
    split.
    + intros Hn. destruct (Hnone Hn) as [Hd Ht]. rewrite Hd, Hcur. auto.
    + intros Hn. destruct (Hsome Hn) as [Hd Ht]. split; [exact Hd|].
      rewrite Ht. discriminate.
Qed.

Lemma saveEmbedding_inv env e w o w' :
  saveEmbedding env e w = (o, w') ->
  (o = Thrown /\ db w' = db w)
  \/ (o = Returned tt /\ row_rejected env e = false
      /\ db w' = with_embeddings (db w)
                   (upsert_embedding e (tbl_embeddings (db w)))).
Proof.
  unfold saveEmbedding. intros H.
  inv_bind H as u w0 Hc Hrest; [|discriminate].
  rewrite connect_run in Hc. injection Hc as <- <-.
  inv_bind Hrest as isVector w1 Hsel Hins.
  - apply client_query_inv in Hsel as (_ & _ & [Hq|Hq]).
    + destruct Hq as (Hq & _). discriminate.
    + destruct Hq as (b & s' & _ & _ & Hsel & _ & Hnone & _).
      cbn [current txn db] in *. injection Hsel as _ <-.
      destruct (Hnone eq_refl) as [Hdb Htxn].
      assert (Hins' : exists v, insert_embedding env v e w1 = (o, w')).
      { destruct isVector; eexists; exact Hins. }
      destruct Hins' as (v & Hins').
      apply insert_embedding_inv in Hins' as (_ & _ & [Hi|Hi]).
      * destruct Hi as (-> & Hdb' & _). left. split; congruence.
      * destruct Hi as (-> & Hrej & Hcur & Hn & _).
        destruct (Hn Htxn) as [Hdb' _]. right.
        split; [reflexivity|]. split; [exact Hrej|].
        rewrite Hdb', Hcur. unfold current. rewrite Htxn, Hdb. reflexivity.
  - subst o. left. split; [reflexivity|].
    apply client_query_inv in Hsel as (_ & _ & [Hq|Hq]).
    + destruct Hq as (_ & Hdb & _). exact Hdb.
    + destruct Hq as (? & ? & Hq & _). discriminate.
Qed.

(* --------------------------------------------------------------------- *)
(** ** Upserts keep one row per key *)
(* --------------------------------------------------------------------- *)

Lemma same_key_key (a b : CodeEmbedding) :
  same_key a b = true <-> key a = key b.
Proof.
  unfold same_key, key.
  rewrite andb_true_iff, Z.eqb_eq, str_eqb_eq.
  split; [intros [-> ->]; reflexivity | intros [= -> ->]; auto].
Qed.

Lemma same_key_refl (a : CodeEmbedding) : same_key a a = true.
Proof. apply same_key_key. reflexivity. Qed.

Lemma same_key_congr (r a b : CodeEmbedding) :
  key a = key b -> same_key r a = same_key r b.
Proof.
  intros Hab. destruct (same_key r b) eqn:E.
  - apply same_key_key. apply same_key_key in E. congruence.
  - destruct (same_key r a) eqn:E'; [|reflexivity].
    apply same_key_key in E'. rewrite Hab in E'.
    apply same_key_key in E'. congruence.
Qed.

Lemma key_on_conflict (old new : CodeEmbedding) :
  key (on_conflict old new) = key old.
Proof. reflexivity. Qed.

Lemma upsert_embedding_keys (e : CodeEmbedding) (rows : list CodeEmbedding) :
  forall k, In k (map key (upsert_embedding e rows)) ->
    k = key e \/ In k (map key rows).
Proof.
  induction rows as [|r rows IH]; intros k Hk; cbn in *.
  - destruct Hk as [<-|[]]. left. reflexivity.
  - destruct (same_key r e) eqn:E; cbn in Hk.
    + right. exact Hk.
    + destruct Hk as [<-|Hk]; [right; left; reflexivity|].
      destruct (IH k Hk); auto.
Qed.

Lemma upsert_embedding_unique (e : CodeEmbedding)
    (rows : list CodeEmbedding) :
  unique_keys rows -> unique_keys (upsert_embedding e rows).
Proof.
  unfold unique_keys. induction rows as [|r rows IH]; intros Hu; cbn.
  - constructor; [intros []|constructor].
  - inversion Hu as [|? ? Hr Hrows]; subst.
    destruct (same_key r e) eqn:E; cbn.
    + constructor; assumption.
    + constructor; [|exact (IH Hrows)].
      intros Hin. apply upsert_embedding_keys in Hin as [Hk|Hin].
      * apply same_key_key in Hk. congruence.
      * contradiction.
Qed.

Lemma filter_other_keys (e : CodeEmbedding) (rows : list CodeEmbedding) :
  ~ In (key e) (map key rows) ->
  filter (fun r => same_key r e) rows = [].
Proof.
  induction rows as [|r rows IH]; intros Hnot; [reflexivity|].
  cbn in *. destruct (same_key r e) eqn:E.
  - apply same_key_key in E. exfalso. apply Hnot. left. exact E.
  - apply IH. intros Hin. apply Hnot. right. exact Hin.
Qed.

Lemma filter_upsert_embedding (e : CodeEmbedding)
    (rows : list CodeEmbedding) :
  unique_keys rows ->
  filter (fun r => same_key r e) (upsert_embedding e rows)
  = [upserted e rows].
Proof.
  unfold unique_keys, upserted.
  induction rows as [|r rows IH]; intros Hu; cbn.
  - rewrite same_key_refl. reflexivity.
  - inversion Hu as [|? ? Hr Hrows]; subst.
    destruct (same_key r e) eqn:E; cbn.
    + assert (Hk : same_key (on_conflict r e) e = true).
      { apply same_key_key. rewrite key_on_conflict.
        apply same_key_key. exact E. }
      rewrite Hk. f_equal. apply filter_other_keys.
      apply same_key_key in E. rewrite <- E. exact Hr.
    + rewrite E. apply IH. exact Hrows.
Qed.

Lemma find_upsert_embedding (e : CodeEmbedding)
    (rows : list CodeEmbedding) :
  find (fun r => same_key r e) (upsert_embedding e rows)
  = Some (upserted e rows).
Proof.
  unfold upserted. induction rows as [|r rows IH]; cbn.
  - rewrite same_key_refl. reflexivity.
  - destruct (same_key r e) eqn:E; cbn.
    + assert (Hk : same_key (on_conflict r e) e = true).
      { apply same_key_key. rewrite key_on_conflict.
        apply same_key_key. exact E. }
      rewrite Hk. reflexivity.
    + rewrite E. exact IH.
Qed.

Lemma find_pointwise {A} (f g : A -> bool) (l : list A) :
  (forall x, f x = g x) -> find f l = find g l.
Proof.
  intros Hfg. induction l as [|x l IH]; [reflexivity|].
  cbn. rewrite Hfg, IH. reflexivity.
Qed.

Lemma at_path_of_project (e : CodeEmbedding) (rows : list CodeEmbedding) :
  at_path (filePath e) (filter (fun r => projectId r =? projectId e) rows)
  = filter (fun r => same_key r e) rows.
Proof.
  unfold at_path, same_key. induction rows as [|r rows IH]; [reflexivity|].
  cbn. destruct (projectId r =? projectId e); cbn.
  - destruct (str_eqb (filePath r) (filePath e)); rewrite IH; reflexivity.
  - exact IH.
Qed.

Lemma getEmbeddingsByProject_inv env pid w rows w' :
  getEmbeddingsByProject env pid w = (Returned rows, w') ->
  rows = filter (fun r => projectId r =? pid) (tbl_embeddings (db w)).
Proof.
  unfold getEmbeddingsByProject. intros H.
  inv_bind H as u w0 Hc Hrest; [|discriminate].
  rewrite connect_run in Hc. injection Hc as <- <-.
  inv_bind Hrest as isVector w1 Hsel Hrows; [|discriminate].
  apply client_query_inv in Hsel as (_ & _ & [Hq|Hq]).
  { destruct Hq as (Hq & _). discriminate. }
  destruct Hq as (b & s' & _ & _ & Hsel & _ & Hnone & _).
  cbn [current txn db] in *. injection Hsel as _ <-.
  destruct (Hnone eq_refl) as [Hdb Htxn].
  apply client_query_inv in Hrows as (_ & _ & [Hq|Hq]).
  { destruct Hq as (Hq & _). discriminate. }
  destruct Hq as (rows' & s'' & Hret & _ & Hsel & _).
  injection Hret as ->. unfold current in Hsel. rewrite Htxn, Hdb in Hsel.
  injection Hsel as <- _. reflexivity.
Qed.

(** C5, as stated, fails: after writing [version_A] and then
    [version_B] (same project and path) the one stored row is not
    [version_B]; it keeps the creation time of the first write. *)
Lemma second_write_keeps_createdAt :
  key version_A = key version_B
  /\ fst (saveEmbedding demo_env version_A (world_of empty_store))
     = Returned tt
  /\ fst (saveEmbedding demo_env version_B after_A) = Returned tt
  /\ exists row,
       tbl_embeddings (db after_A_B) = [row]
       /\ row <> version_B
       /\ createdAt row = createdAt version_A.
Proof.
  split; [reflexivity|]. split; [reflexivity|]. split; [reflexivity|].
  eexists. split; [vm_compute; reflexivity|].
  split; [discriminate|reflexivity].
Qed.

(** C5 (amended): when two rows [A] and [B] with the same project and
    path are saved one after the other into a table that respects the
    uniqueness constraint, exactly one row is stored for that project
    and path, also as read back through [getEmbeddingsByProject]; it
    carries the content, embedding, language, commit, branch and update
    time of [B], while its creation time and repository URL are those
    of the row stored by the first write: those of [A] when the path was
    new, those of the earlier row otherwise. *)
Theorem second_write_overwrites env (A B : CodeEmbedding) (w w1 w2 : World) :
  unique_keys (tbl_embeddings (db w)) ->
  key A = key B ->
  saveEmbedding env A w = (Returned tt, w1) ->
  saveEmbedding env B w1 = (Returned tt, w2) ->
  exists row,
    filter (fun r => same_key r B) (tbl_embeddings (db w2)) = [row]
    /\ (forall rows w3,
          getEmbeddingsByProject env (projectId B) w2 = (Returned rows, w3) ->
          at_path (filePath B) rows = [row])
    /\ key row = key B
    /\ emb_content row = emb_content B
    /\ embedding row = embedding B
    /\ emb_language row = emb_language B
    /\ commitId row = commitId B
    /\ branch row = branch B
    /\ updatedAt row = updatedAt B
    /\ createdAt row = createdAt (upserted A (tbl_embeddings (db w)))
    /\ repositoryUrl row
       = repositoryUrl (upserted A (tbl_embeddings (db w)))
    /\ (find (fun r => same_key r A) (tbl_embeddings (db w)) = None ->
        upserted A (tbl_embeddings (db w)) = A).
Proof.
  intros Hu HAB HA HB.
  apply saveEmbedding_inv in HA as [[HA _]|(_ & _ & HA)]; [discriminate|].
  apply saveEmbedding_inv in HB as [[HB _]|(_ & _ & HB)]; [discriminate|].
  set (rows0 := tbl_embeddings (db w)) in *.
  assert (Hrows1 : tbl_embeddings (db w1) = upsert_embedding A rows0)
    by (rewrite HA; reflexivity).
  assert (Hrows2 : tbl_embeddings (db w2)
                   = upsert_embedding B (upsert_embedding A rows0))
    by (rewrite HB, Hrows1; reflexivity).
  assert (Hfind : find (fun r => same_key r B) (upsert_embedding A rows0)
                  = Some (upserted A rows0)).
  { rewrite <- (find_upsert_embedding A rows0).
    apply find_pointwise. intros r. symmetry. apply same_key_congr. exact HAB. }
  assert (Hrow : upserted B (upsert_embedding A rows0)
                 = on_conflict (upserted A rows0) B).
  { unfold upserted at 1. rewrite Hfind. reflexivity. }
  assert (Hfilter :
    filter (fun r => same_key r B) (tbl_embeddings (db w2))
    = [on_conflict (upserted A rows0) B]).
  { rewrite Hrows2, <- Hrow. apply filter_upsert_embedding.
    apply upsert_embedding_unique. exact Hu. }
  exists (on_conflict (upserted A rows0) B).
  split; [exact Hfilter|]. split.
  { intros rows w3 Hget. apply getEmbeddingsByProject_inv in Hget.
    subst rows. rewrite at_path_of_project. exact Hfilter. }
  split.
  { rewrite key_on_conflict, <- HAB. unfold upserted.
    destruct (find (fun r => same_key r A) rows0) as [old|] eqn:Ef;
      [|reflexivity].
    rewrite key_on_conflict. apply find_some in Ef as [_ Ek].
    apply same_key_key. exact Ek. }
  repeat (split; [reflexivity|]).
  intros Hnone. unfold upserted. rewrite Hnone. reflexivity.
Qed.

Lemma second_write_overwrites_witness :
  exists row,
    filter (fun r => same_key r version_B) (tbl_embeddings (db after_A_B))
    = [row]
    /\ (forall rows w3,
          getEmbeddingsByProject demo_env (projectId version_B) after_A_B
          = (Returned rows, w3) ->
          at_path (filePath version_B) rows = [row])
    /\ key row = key version_B
    /\ emb_content row = emb_content version_B
    /\ embedding row = embedding version_B
    /\ emb_language row = emb_language version_B
    /\ commitId row = commitId version_B
    /\ branch row = branch version_B
    /\ updatedAt row = updatedAt version_B
    /\ createdAt row
       = createdAt (upserted version_A
                      (tbl_embeddings (db (world_of empty_store))))
    /\ repositoryUrl row
       = repositoryUrl (upserted version_A
                          (tbl_embeddings (db (world_of empty_store))))
    /\ (find (fun r => same_key r version_A)
          (tbl_embeddings (db (world_of empty_store))) = None ->
        upserted version_A (tbl_embeddings (db (world_of empty_store)))
        = version_A).
Proof.
  apply (second_write_overwrites demo_env version_A version_B
           (world_of empty_store) after_A after_A_B).
  - constructor.
  - reflexivity.
  - reflexivity.
  - reflexivity.
Defined.

(* --------------------------------------------------------------------- *)
(** ** The transaction of [saveEmbeddings] *)
(* --------------------------------------------------------------------- *)

Lemma begin_transaction_inv env w o w' :
  begin_transaction env w = (o, w') ->
  log w' = log w ++ [Query Begin] /\ clock w' = clock w /\ db w' = db w
  /\ (o = Thrown \/ (o = Returned tt /\ txn w' = Some (current w))).
Proof.
  unfold begin_transaction.
  destruct (statement_fails env (length (log w))); intros H;
    inversion H; subst; cbn; repeat split;
    first [left; repeat split; reflexivity
          |right; repeat split; reflexivity
          |idtac].
Qed.

Lemma commit_transaction_inv env w o w' :
  commit_transaction env w = (o, w') ->
  log w' = log w ++ [Query Commit] /\ clock w' = clock w
  /\ ((o = Thrown /\ db w' = db w)
      \/ (o = Returned tt /\ db w' = current w /\ txn w' = None)).
Proof.
  unfold commit_transaction.
  destruct (statement_fails env (length (log w))); intros H;
    inversion H; subst; cbn; repeat split;
    first [left; repeat split; reflexivity
          |right; repeat split; reflexivity
          |idtac].
Qed.

Lemma rollback_transaction_inv env w o w' :
  rollback_transaction env w = (o, w') ->
  log w' = log w ++ [Query Rollback] /\ clock w' = clock w /\ db w' = db w.
Proof.
  unfold rollback_transaction.
  destruct (statement_fails env (length (log w))); intros H;
    inversion H; subst; cbn; repeat split;
    first [left; repeat split; reflexivity
          |right; repeat split; reflexivity
          |idtac].
Qed.

Lemma select_column_type_inv env w o w' :
  select_column_type env w = (o, w') ->
  log w' = log w ++ [Query SelectColumnType] /\ clock w' = clock w
  /\ db w' = db w /\ txn w' = txn w
  /\ (o = Thrown
      \/ o = Returned (isVectorColumn (column_type (current w)))).
Proof.
  unfold select_column_type, select. intros H.
  apply client_query_inv in H as (Hlog & Hclock & [Hq|Hq]).
  - destruct Hq as (-> & Hdb & Htxn & _). auto 6.
  - destruct Hq as (b & s' & -> & _ & Hsel & Hcur & Hnone & Hsome).
    injection Hsel as <- <-.
    repeat (split; [assumption|]).
    unfold current in *.
    destruct (txn w) as [t|] eqn:Et.
    + destruct (Hsome ltac:(discriminate)) as [Hd Ht]. rewrite Hd, Ht. auto.
    + destruct (Hnone eq_refl) as [Hd Ht]. rewrite Hd, Ht. auto.
Qed.

Lemma upsert_all_cons e embs rows :
  upsert_all (e :: embs) rows = upsert_all embs (upsert_embedding e rows).
Proof. reflexivity. Qed.

(** Inside a transaction the inserts work on its working state and leave
    the committed state alone. *)
Lemma insert_each_inv env isVector (embs : list CodeEmbedding) :
  forall w s o w',
    txn w = Some s ->
    insert_each env isVector embs w = (o, w') ->
    db w' = db w /\ clock w' = clock w
    /\ exists issued,
         log w' = log w ++ map (fun e => Query (UpsertEmbedding isVector e))
                             issued
         /\ (o = Thrown
             \/ (o = Returned tt /\ issued = embs
                 /\ Forall (fun e => row_rejected env e = false) embs
                 /\ txn w'
                    = Some (with_embeddings s
                              (upsert_all embs (tbl_embeddings s))))).
Proof.
  induction embs as [|e embs IH]; intros w s o w' Htxn H.
  - cbn in H. injection H as <- <-.
    split; [reflexivity|]. split; [reflexivity|]. exists [].
    split; [cbn; rewrite app_nil_r; reflexivity|]. right.
    repeat split; [constructor|]. rewrite Htxn. cbn.
    unfold with_embeddings. rewrite store_eta. reflexivity.
  - cbn [insert_each] in H.
    assert (Hstep :
      (if isVector then insert_embedding env true e
       else insert_embedding env false e)
      = insert_embedding env isVector e) by (destruct isVector; reflexivity).
    rewrite Hstep in H. clear Hstep.
    inv_bind H as u w1 Hins Hrest.
    + apply insert_embedding_inv in Hins as (Hlog & Hclock & [Hi|Hi]).
      { destruct Hi as (Hi & _). discriminate. }
      destruct Hi as (_ & Hrej & Hcur & _ & Hsome).
      destruct (Hsome ltac:(congruence)) as [Hdb Htxn1].
      destruct (txn w1) as [s1|] eqn:Et1; [|contradiction].
      unfold current in Hcur. rewrite Et1, Htxn in Hcur.
      destruct (IH w1 s1 o w' Et1 Hrest)
        as (Hdb' & Hclock' & issued & Hlog' & Hout).
      split; [congruence|]. split; [congruence|].
      exists (e :: issued). split.
      { rewrite Hlog', Hlog, <- app_assoc. reflexivity. }
      destruct Hout as [->|(-> & -> & Hall & Htxn')]; [left; reflexivity|].
      right. repeat split; [constructor; assumption|].
      rewrite Htxn', Hcur. reflexivity.
    + subst o.
      apply insert_embedding_inv in Hins as (Hlog & Hclock & [Hi|Hi]).
      * destruct Hi as (_ & Hdb & _).
        split; [exact Hdb|]. split; [exact Hclock|]. exists [e].
        split; [exact Hlog|]. left. reflexivity.
      * destruct Hi as (Hi & _). discriminate.
Qed.

Lemma filter_upsert_events asVector (embs : list CodeEmbedding) :
  filter is_write (map (fun e => Query (UpsertEmbedding asVector e)) embs)
  = map (fun e => Query (UpsertEmbedding asVector e)) embs.
Proof.
  induction embs as [|e embs IH]; [reflexivity|].
  cbn. rewrite IH. reflexivity.
Qed.

(** The [try] block of [saveEmbeddings], started outside a
    transaction. *)
Lemma transaction_inv env (embs : list CodeEmbedding) w o w' :
  txn w = None ->
  (isVector <- select_column_type env ;;
   begin_transaction env ;;
   insert_each env isVector embs ;;
   commit_transaction env)%monad w = (o, w') ->
  exists issued,
    log w' = log w ++ issued /\ clock w' = clock w
    /\ ((o = Thrown /\ db w' = db w)
        \/ (o = Returned tt
            /\ Forall (fun e => row_rejected env e = false) embs
            /\ db w' = with_embeddings (db w)
                         (upsert_all embs (tbl_embeddings (db w)))
            /\ exists asVector,
                 filter is_write issued
                 = Query Begin
                   :: map (fun e => Query (UpsertEmbedding asVector e)) embs
                   ++ [Query Commit])).
Proof.
  intros Htxn H.
  inv_bind H as isVector w1 Hsel Hbody.
  2:{ subst o. apply select_column_type_inv in Hsel
        as (Hlog1 & Hclock1 & Hdb1 & _).
      eexists. split; [exact Hlog1|]. split; [exact Hclock1|]. left.
      split; [reflexivity|exact Hdb1]. }
  apply select_column_type_inv in Hsel
    as (Hlog1 & Hclock1 & Hdb1 & Htxn1 & _).
  assert (Hcur1 : current w1 = db w).
  { unfold current. rewrite Htxn1, Htxn, Hdb1. reflexivity. }
  inv_bind Hbody as u w2 Hbegin Hbody.
  2:{ subst o. apply begin_transaction_inv in Hbegin
        as (Hlog2 & Hclock2 & Hdb2 & _).
      eexists. split; [rewrite Hlog2, Hlog1, <- app_assoc; reflexivity|].
      split; [congruence|]. left. split; [reflexivity|congruence]. }
  apply begin_transaction_inv in Hbegin
    as (Hlog2 & Hclock2 & Hdb2 & [?|[_ Htxn2]]); [discriminate|].
  inv_bind Hbody as u' w3 Hins Hcommit.
  2:{ subst o.
      apply (insert_each_inv _ _ _ _ (current w1)) in Hins; [|exact Htxn2].
      destruct Hins as (Hdb3 & Hclock3 & issued & Hlog3 & _).
      eexists. split.
      { rewrite Hlog3, Hlog2, Hlog1, <- !app_assoc. reflexivity. }
      split; [congruence|]. left. split; [reflexivity|congruence]. }
  apply (insert_each_inv _ _ _ _ (current w1)) in Hins; [|exact Htxn2].
  destruct Hins as (Hdb3 & Hclock3 & issued & Hlog3 & [?|Hok]);
    [discriminate|].
  destruct Hok as (_ & -> & Hall & Htxn3).
  apply commit_transaction_inv in Hcommit
    as (Hlog4 & Hclock4 & [[-> Hdb4]|(-> & Hdb4 & Htxn4)]).
  - eexists. split.
    { rewrite Hlog4, Hlog3, Hlog2, Hlog1, <- !app_assoc. reflexivity. }
    split; [congruence|]. left. split; [reflexivity|congruence].
  - eexists. split.
    { rewrite Hlog4, Hlog3, Hlog2, Hlog1, <- !app_assoc. reflexivity. }
    split; [congruence|]. right. split; [reflexivity|].
    split; [exact Hall|]. split.
    { rewrite Hdb4. unfold current. rewrite Htxn3, Hcur1. reflexivity. }
    exists isVector. cbn [app filter is_write].
    rewrite filter_app, filter_upsert_events. reflexivity.
Qed.

(** All or nothing: [saveEmbeddings] either returns with every row of
    the batch upserted, or rolls back and throws with the database as
    it was. *)
Lemma saveEmbeddings_inv env (embs : list CodeEmbedding) w o w' :
  saveEmbeddings env embs w = (o, w') ->
  exists issued,
    log w' = log w ++ issued /\ clock w' = clock w
    /\ ((o = Thrown /\ db w' = db w
         /\ exists before, issued = before ++ [Query Rollback])
        \/ (o = Returned tt
            /\ Forall (fun e => row_rejected env e = false) embs
            /\ db w' = with_embeddings (db w)
                         (upsert_all embs (tbl_embeddings (db w)))
            /\ exists asVector,
                 filter is_write issued = batch_statements asVector embs)).
Proof.
  destruct embs as [|e0 embs0].
  { cbn. intros H. injection H as <- <-. exists [].
    rewrite app_nil_r. split; [reflexivity|]. split; [reflexivity|]. right.
    split; [reflexivity|]. split; [constructor|]. split.
    - unfold with_embeddings. cbn. rewrite store_eta. reflexivity.
    - exists true. reflexivity. }
  unfold saveEmbeddings. intros H.
  inv_bind H as u w0 Hc Hrest; [|discriminate].
  rewrite connect_run in Hc. injection Hc as <- <-.
  apply try_catch_inv in Hrest as [(u & Hbody & ->)|(wb & Hbody & Hhandler)].
  - apply transaction_inv in Hbody; [|reflexivity].
    destruct Hbody as (issued & Hlog & Hclock & [[? _]|Hok]);
      [discriminate|].
    exists issued. split; [exact Hlog|]. split; [exact Hclock|]. right.
    destruct u. exact Hok.
  - apply transaction_inv in Hbody; [|reflexivity].
    destruct Hbody as (issued & Hlog & Hclock & [[_ Hdb]|[? _]]);
      [|discriminate].
    cbn [db log clock] in *.
    assert (Hthrown : o = Thrown /\ log w' = log wb ++ [Query Rollback]
                      /\ clock w' = clock wb /\ db w' = db wb).
    { inv_bind Hhandler as u w5 Hrb Hthrow.
      - apply rollback_transaction_inv in Hrb as (Hlog5 & Hclock5 & Hdb5).
        unfold throw in Hthrow. injection Hthrow as <- <-. auto.
      - apply rollback_transaction_inv in Hrb as (Hlog5 & Hclock5 & Hdb5).
        auto. }
    destruct Hthrown as (-> & Hlog5 & Hclock5 & Hdb5).
    exists (issued ++ [Query Rollback]). split.
    { rewrite Hlog5, Hlog, <- app_assoc. reflexivity. }
    split; [congruence|]. left. split; [reflexivity|].
    split; [congruence|]. exists issued. reflexivity.
Qed.

(** C3: [saveEmbeddings] writes a batch atomically.  Whatever fails (a
    row the database refuses, or any statement of the transaction), a
    [ROLLBACK] is issued last, the error is thrown to the caller and
    the stored state is what it was before the call; a refused row
    always makes the call throw; and when the call returns, every row
    of the batch has been upserted. *)
Theorem saveEmbeddings_atomic env (embs : list CodeEmbedding) (w : World) :
  exists o w',
    saveEmbeddings env embs w = (o, w')
    /\ (o = Thrown ->
        db w' = db w
        /\ exists before, log w' = log w ++ before ++ [Query Rollback])
    /\ (forall e, In e embs -> row_rejected env e = true -> o = Thrown)
    /\ (o = Returned tt ->
        db w' = with_embeddings (db w)
                  (upsert_all embs (tbl_embeddings (db w)))).
Proof.
  destruct (saveEmbeddings env embs w) as [o w'] eqn:Hrun.
  exists o, w'. split; [reflexivity|].
  apply saveEmbeddings_inv in Hrun
    as (issued & Hlog & _ & [(-> & Hdb & before & ->)
                            |(-> & Hall & Hdb & _)]).
  - split; [|split; [reflexivity|discriminate]].
    intros _. split; [exact Hdb|]. exists before. exact Hlog.
  - split; [discriminate|]. split; [|intros _; exact Hdb].
    intros e Hin Hrej. exfalso.
    rewrite Forall_forall in Hall. rewrite (Hall e Hin) in Hrej.
    discriminate.
Qed.

(** A batch of three rows whose second row is refused: the first row,
    already written inside the transaction, is not stored either. *)
Example saveEmbeddings_mixed_batch :
  let run := saveEmbeddings strict_env mixed_batch
               (world_of processed_store) in
  fst run = Thrown
  /\ db (snd run) = processed_store
  /\ filter is_write (log (snd run))
     = [Query Begin;
        Query (UpsertEmbedding false
                 (demo_row 7 "src/a.py" "print(2)" "c2" 2000));
        Query (UpsertEmbedding false
                 (demo_row 7 "bad.py" "print(3)" "c2" 2000));
        Query Rollback].
Proof. vm_compute. repeat split. Qed.

(* --------------------------------------------------------------------- *)
(** ** Ordering by recency *)
(* --------------------------------------------------------------------- *)

Lemma insert_by_recency_perm r rows :
  Permutation (insert_by_recency r rows) (r :: rows).
Proof.
  induction rows as [|x rows IH]; cbn; [reflexivity|].
  destruct (updatedAt x <=? updatedAt r); [reflexivity|].
  rewrite IH. apply perm_swap.
Qed.

Lemma order_by_recency_perm rows : Permutation (order_by_recency rows) rows.
Proof.
  induction rows as [|r rows IH]; cbn; [reflexivity|].
  rewrite insert_by_recency_perm, IH. reflexivity.
Qed.

Lemma insert_by_recency_sorted r rows :
  StronglySorted more_recent rows ->
  StronglySorted more_recent (insert_by_recency r rows).
Proof.
  unfold more_recent.
  induction rows as [|x rows IH]; intros Hs; cbn.
  - constructor; constructor.
  - inversion Hs as [|? ? Hrows Hx]; subst.
    destruct (Z.leb_spec (updatedAt x) (updatedAt r)) as [Hle|Hlt].
    + constructor; [exact Hs|]. constructor; [exact Hle|].
      eapply Forall_impl; [|exact Hx]. cbn. intros y Hy. lia.
    + constructor; [exact (IH Hrows)|].
      rewrite Forall_forall. intros y Hy.
      apply (Permutation_in _ (insert_by_recency_perm r rows)) in Hy.
      destruct Hy as [<-|Hy]; [lia|].
      rewrite Forall_forall in Hx. exact (Hx y Hy).
Qed.

Lemma order_by_recency_sorted rows :
  StronglySorted more_recent (order_by_recency rows).
Proof.
  induction rows as [|r rows IH]; cbn; [constructor|].
  apply insert_by_recency_sorted. exact IH.
Qed.

Lemma StronglySorted_app_inv {A} (R : A -> A -> Prop) (l1 l2 : list A) :
  StronglySorted R (l1 ++ l2) ->
  StronglySorted R l1 /\ forall a b, In a l1 -> In b l2 -> R a b.
Proof.
  induction l1 as [|x l1 IH]; cbn; intros Hs.
  - split; [constructor|intros a b []].
  - inversion Hs as [|? ? Hrest Hx]; subst.
    destruct (IH Hrest) as [Hs1 Hcross].
    rewrite Forall_forall in Hx. split.
    + constructor; [exact Hs1|]. rewrite Forall_forall.
      intros y Hy. apply Hx. apply in_or_app. left. exact Hy.
    + intros a b [<-|Ha] Hb.
      * apply Hx. apply in_or_app. right. exact Hb.
      * exact (Hcross a b Ha Hb).
Qed.

Lemma recent_rows_most_recent scope limit (s : Store) rows :
  recent_rows scope limit s = Some rows ->
  most_recent scope limit (tbl_embeddings s) rows.
Proof.
  unfold recent_rows, most_recent.
  destruct (limit <? 0); [discriminate|]. intros [= <-].
  set (scoped := filter (in_scope scope) (tbl_embeddings s)).
  set (n := Z.to_nat limit).
  pose proof (order_by_recency_sorted scoped) as Hsorted.
  rewrite <- (firstn_skipn n (order_by_recency scoped)) in Hsorted.
  apply StronglySorted_app_inv in Hsorted as [Hs Hcross].
  split; [exact Hs|]. split.
  - rewrite length_firstn.
    rewrite (Permutation_length (order_by_recency_perm scoped)).
    reflexivity.
  - exists (skipn n (order_by_recency scoped)). split; [|exact Hcross].
    rewrite firstn_skipn. apply order_by_recency_perm.
Qed.

(** Without the vector column the search is the recency query. *)
Lemma similaritySearch_degraded env scope q limit w :
  isVectorColumn (column_type (db w)) = false ->
  statement_fails env (length (log w)) = false ->
  statement_fails env (S (length (log w))) = false ->
  similaritySearch env scope q limit w
  = match recent_rows scope limit (db w) with
    | Some rows =>
        (Returned rows,
         {| db := db w; txn := None;
            log := (log w ++ [Query SelectColumnType])
                   ++ [Query (SelectRecent scope limit)];
            clock := clock w |})
    | None =>
        (Thrown,
         {| db := db w; txn := None;
            log := (log w ++ [Query SelectColumnType])
                   ++ [Query (SelectRecent scope limit)];
            clock := clock w |})
    end.
Proof.
  intros Hvec Hf1 Hf2.
  unfold similaritySearch, bind, connect, select_column_type, select,
    client_query.
  cbn [log txn db clock current set_current].
  rewrite Hf1, Hvec. cbn [log txn db clock current set_current ret].
  rewrite length_app. cbn [length].
  replace (length (log w) + 1)%nat with (S (length (log w))) by lia.
  rewrite Hf2.
  destruct (recent_rows scope limit (db w)); reflexivity.
Qed.

(** C4: when the embedding column is not of the vector type, and the
    two statements of the search go through, [searchSimilarCode] and
    [searchSimilarCodeAcrossProjects] return the [limit] most recently
    updated rows of their scope (the project, or all rows), most recent
    first; only the recency query is issued, and the rows returned do
    not depend on the query embedding. *)
Theorem degraded_search_is_by_recency env (projectId : Z) (q : vector)
    (limit : Z) (w : World) :
  isVectorColumn (column_type (db w)) = false ->
  0 <= limit ->
  statement_fails env (length (log w)) = false ->
  statement_fails env (S (length (log w))) = false ->
  (exists rows w',
     searchSimilarCode env projectId q limit w = (Returned rows, w')
     /\ most_recent (Some projectId) limit (tbl_embeddings (db w)) rows
     /\ log w' = log w ++ [Query SelectColumnType;
                           Query (SelectRecent (Some projectId) limit)]
     /\ forall q',
          fst (searchSimilarCode env projectId q' limit w) = Returned rows)
  /\ (exists rows w',
        searchSimilarCodeAcrossProjects env q limit w = (Returned rows, w')
        /\ most_recent None limit (tbl_embeddings (db w)) rows
        /\ log w' = log w ++ [Query SelectColumnType;
                              Query (SelectRecent None limit)]
        /\ forall q',
             fst (searchSimilarCodeAcrossProjects env q' limit w)
             = Returned rows).
Proof.
  intros Hvec Hlimit Hf1 Hf2.
  assert (Hscope : forall scope,
    exists rows w',
      similaritySearch env scope q limit w = (Returned rows, w')
      /\ most_recent scope limit (tbl_embeddings (db w)) rows
      /\ log w' = log w ++ [Query SelectColumnType;
                            Query (SelectRecent scope limit)]
      /\ forall q',
           fst (similaritySearch env scope q' limit w) = Returned rows).
  { intros scope.
    destruct (recent_rows scope limit (db w)) as [rows|] eqn:Erows.
    2:{ unfold recent_rows in Erows.
        destruct (Z.ltb_spec limit 0); [lia|discriminate]. }
    eexists rows, _. split.
    { rewrite (similaritySearch_degraded env scope q limit w Hvec Hf1 Hf2).
      rewrite Erows. reflexivity. }
    split; [exact (recent_rows_most_recent _ _ _ _ Erows)|]. split.
    { cbn [log]. rewrite <- app_assoc. reflexivity. }
    intros q'.
    rewrite (similaritySearch_degraded env scope q' limit w Hvec Hf1 Hf2).
    rewrite Erows. reflexivity. }
  split; [exact (Hscope (Some projectId))|exact (Hscope None)].
Qed.

Lemma degraded_search_is_by_recency_witness :
  (exists rows w',
     searchSimilarCode demo_env 7 [1; 0; 0] 1 (world_of search_store)
     = (Returned rows, w')
     /\ most_recent (Some 7) 1 (tbl_embeddings (db (world_of search_store)))
          rows
     /\ log w' = log (world_of search_store)
                 ++ [Query SelectColumnType;
                     Query (SelectRecent (Some 7) 1)]
     /\ forall q',
          fst (searchSimilarCode demo_env 7 q' 1 (world_of search_store))
          = Returned rows)
  /\ (exists rows w',
        searchSimilarCodeAcrossProjects demo_env [1; 0; 0] 1
          (world_of search_store) = (Returned rows, w')
        /\ most_recent None 1 (tbl_embeddings (db (world_of search_store)))
             rows
        /\ log w' = log (world_of search_store)
                    ++ [Query SelectColumnType;
                        Query (SelectRecent None 1)]
        /\ forall q',
             fst (searchSimilarCodeAcrossProjects demo_env q' 1
                    (world_of search_store))
             = Returned rows).
Proof.
  apply degraded_search_is_by_recency.
  - reflexivity.
  - lia.
  - reflexivity.
  - reflexivity.
Defined.

(** The rows found in the example: the latest row of project 7, and the
    latest row overall. *)
Example degraded_search_rows :
  fst (searchSimilarCode demo_env 7 [1; 0; 0] 1 (world_of search_store))
  = Returned [demo_row 7 "new.py" "print(3)" "c2" 200]
  /\ fst (searchSimilarCodeAcrossProjects demo_env [1; 0; 0] 1
            (world_of search_store))
     = Returned [demo_row 8 "other.py" "print(2)" "c5" 300].
Proof. vm_compute. split; reflexivity. Qed.

(* --------------------------------------------------------------------- *)
(** ** Steps that respect a relation between worlds *)
(* --------------------------------------------------------------------- *)

Section Respects.

Variable R : World -> World -> Prop.
Hypothesis R_refl : forall w, R w w.
Hypothesis R_trans : forall a b c, R a b -> R b c -> R a c.

Lemma respects_ret {A} (a : A) : respects R (ret a).
Proof. intros w. apply R_refl. Qed.

Lemma respects_throw {A} : respects R (@throw A).
Proof. intros w. apply R_refl. Qed.

Lemma respects_bind {A B} (m : M A) (k : A -> M B) :
  respects R m -> (forall a, respects R (k a)) -> respects R (bind m k).
Proof.
  intros Hm Hk w. unfold bind. specialize (Hm w).
  destruct (m w) as [[a|] w1]; cbn in *; [|exact Hm].
  apply (R_trans _ w1); [exact Hm|apply Hk].
Qed.

Lemma respects_try_catch {A} (body handler : M A) :
  respects R body -> respects R handler ->
  respects R (try_catch body handler).
Proof.
  intros Hb Hh w. unfold try_catch. specialize (Hb w).
  destruct (body w) as [[a|] w1]; cbn in *; [exact Hb|].
  apply (R_trans _ w1); [exact Hb|apply Hh].
Qed.

Lemma respects_mapM {A B} (f : A -> M B) (l : list A) :
  (forall a, respects R (f a)) -> respects R (mapM f l).
Proof.
  intros Hf. induction l as [|a l IH]; cbn [mapM].
  - apply respects_ret.
  - apply respects_bind; [apply Hf|]. intros b.
    apply respects_bind; [exact IH|]. intros bs. apply respects_ret.
Qed.

End Respects.

Lemma quiet_refl w : quiet w w.
Proof.
  split; [reflexivity|]. exists []. rewrite app_nil_r.
  split; [reflexivity|constructor].
Qed.

Lemma quiet_trans a b c : quiet a b -> quiet b c -> quiet a c.
Proof.
  intros [Hdb1 (l1 & Hl1 & Hw1)] [Hdb2 (l2 & Hl2 & Hw2)].
  split; [congruence|]. exists (l1 ++ l2). split.
  - rewrite Hl2, Hl1, app_assoc. reflexivity.
  - apply Forall_app. split; assumption.
Qed.

Lemma quiet_step (w : World) (d : Store) (t : option Store)
    (events : list Event) (c : Date) :
  d = db w -> Forall (fun e => is_write e = false) events ->
  quiet w {| db := d; txn := t; log := log w ++ events; clock := c |}.
Proof.
  intros -> Hev. split; [reflexivity|]. exists events. split;
    [reflexivity|exact Hev].
Qed.

Lemma quiet_same_log (w : World) (t : option Store) (c : Date) :
  quiet w {| db := db w; txn := t; log := log w; clock := c |}.
Proof.
  split; [reflexivity|]. exists []. rewrite app_nil_r.
  split; [reflexivity|constructor].
Qed.

Lemma quiet_emit (e : Event) : is_write e = false -> respects quiet (emit e).
Proof.
  intros He w. apply quiet_step; [reflexivity|].
  constructor; [exact He|constructor].
Qed.

Lemma quiet_new_Date : respects quiet new_Date.
Proof. intros w. apply quiet_same_log. Qed.

Lemma quiet_sleep ms : respects quiet (sleep ms).
Proof. intros w. apply quiet_same_log. Qed.

Lemma quiet_connect : respects quiet connect.
Proof. intros w. apply quiet_same_log. Qed.

Lemma quiet_select env {A} stmt (rows : Store -> option A) :
  is_write (Query stmt) = false -> respects quiet (select env stmt rows).
Proof.
  intros Hstmt w. destruct (select env stmt rows w) as [o w'] eqn:Hrun.
  unfold select in Hrun.
  apply client_query_inv in Hrun as (Hlog & _ & [Hq|Hq]); cbn [snd].
  - destruct Hq as (_ & Hdb & _). split; [exact Hdb|].
    exists [Query stmt]. split; [exact Hlog|].
    constructor; [exact Hstmt|constructor].
  - destruct Hq as (a & s' & _ & _ & Hsel & Hcur & Hnone & Hsome).
    destruct (rows (current w)) as [a'|] eqn:Er; [|discriminate].
    injection Hsel as _ <-.
    split.
    + unfold current in *. destruct (txn w) as [t|] eqn:Et.
      * apply Hsome. discriminate.
      * destruct (Hnone eq_refl) as [Hd _]. exact Hd.
    + exists [Query stmt]. split; [exact Hlog|].
      constructor; [exact Hstmt|constructor].
Qed.

Ltac quiet_step :=
  lazymatch goal with
  | |- respects quiet (ret _) => apply respects_ret; exact quiet_refl
  | |- respects quiet throw => apply respects_throw; exact quiet_refl
  | |- respects quiet new_Date => apply quiet_new_Date
  | |- respects quiet (sleep _) => apply quiet_sleep
  | |- respects quiet connect => apply quiet_connect
  | |- respects quiet (emit _) => apply quiet_emit; reflexivity
  | |- respects quiet (select _ _ _) => apply quiet_select; reflexivity
  | |- respects quiet (bind _ _) =>
      apply respects_bind; [exact quiet_trans| |intros ?]
  | |- respects quiet (try_catch _ _) =>
      apply respects_try_catch; [exact quiet_trans| |]
  | |- respects quiet (mapM _ _) =>
      apply respects_mapM; [exact quiet_refl|exact quiet_trans|intros ?]
  end.

Ltac quiet_steps := repeat quiet_step.

(** The repository provider and the embedding generator write nothing. *)
Lemma quiet_getProjectMetadata env pid :
  respects quiet (getProjectMetadata env pid).
Proof. unfold getProjectMetadata. quiet_steps. Qed.

Lemma quiet_getProject env pid : respects quiet (getProject env pid).
Proof.
  unfold getProject. quiet_steps.
  destruct (gitlab_project env pid); quiet_steps.
Qed.

Lemma quiet_resolveProjectMetadata env pid :
  respects quiet (resolveProjectMetadata env pid).
Proof.
  unfold resolveProjectMetadata. quiet_steps.
  - apply quiet_getProjectMetadata.
  - destruct a; quiet_steps. apply quiet_getProject.
Qed.

Lemma quiet_getAllFiles env pid ref : respects quiet (getAllFiles env pid ref).
Proof.
  unfold getAllFiles, getRepositoryTree. quiet_steps.
  - destruct (gitlab_tree env pid ref); quiet_steps.
  - unfold fetchFile, getFileContent. quiet_steps.
    destruct (gitlab_file env pid (ti_path a1) ref); quiet_steps.
Qed.




(* --------------------------------------------------------------------- *)
(** ** The order of the storage writes *)
(* --------------------------------------------------------------------- *)

Lemma execute_total_inv env stmt (upd : Store -> Store) w o w' :
  (connect ;; execute env stmt (fun s => Some (upd s)))%monad w = (o, w') ->
  log w' = log w ++ [Query stmt] /\ clock w' = clock w
  /\ ((o = Thrown /\ db w' = db w)
      \/ (o = Returned tt /\ db w' = upd (db w))).
Proof.
  intros H. inv_bind H as u w0 Hc Hrest; [|discriminate].
  rewrite connect_run in Hc. injection Hc as <- <-.
  unfold execute in Hrest.
  apply client_query_inv in Hrest as (Hlog & Hclock & [Hq|Hq]).
  - destruct Hq as (-> & Hdb & _). auto.
  - destruct Hq as ([] & s' & -> & _ & Hrun & _ & Hnone & _).
    cbn [current txn db] in *. injection Hrun as <-.
    destruct (Hnone eq_refl) as [Hdb _]. auto.
Qed.


Lemma updateProjectMetadata_inv env m w o w' :
  updateProjectMetadata env m w = (o, w') ->
  log w' = log w ++ [Query (UpsertProject m)] /\ clock w' = clock w
  /\ ((o = Thrown /\ db w' = db w)
      \/ (o = Returned tt
          /\ column_type (db w') = column_type (db w)
          /\ tbl_projects (db w') = upsert_project m (tbl_projects (db w))
          /\ tbl_embeddings (db w') = tbl_embeddings (db w)
          /\ tbl_batches (db w') = tbl_batches (db w))).
Proof.
  unfold updateProjectMetadata. intros H.
  apply execute_total_inv in H as (Hlog & Hclock & [H|[-> Hdb]]); auto.
  split; [exact Hlog|]. split; [exact Hclock|]. right.
  rewrite Hdb. cbn. auto.
Qed.


Lemma respects_run {A} R (m : M A) w o w' :
  respects R m -> m w = (o, w') -> R w w'.
Proof. intros Hm Hrun. specialize (Hm w). rewrite Hrun in Hm. exact Hm. Qed.










(** A first push for a project with two files, one of them binary, is
    completed: one embedding is stored and the commit is recorded. *)
Example first_push_is_completed :
  let run := processWebhook demo_env (Push (push_of (lit "c1")))
               (world_of empty_store) in
  fst run = Returned (acknowledgement, Completed)
  /\ map filePath (tbl_embeddings (db (snd run))) = [lit "src/a.py"]
  /\ map lastProcessedCommit (tbl_projects (db (snd run))) = [lit "c1"]
  /\ length (tbl_batches (db (snd run))) = 1%nat.
Proof. vm_compute. repeat split. Qed.

(** The batches of a loop cover the list: the fuel of [slices] is
    enough. *)
Lemma slices_concat {A} (n : nat) (l : list A) :
  (0 < n)%nat -> concat (slices n l) = l.
Proof.
  intros Hn. unfold slices.
  assert (Hgen : forall fuel (l0 : list A),
    (length l0 <= fuel)%nat -> concat (slices_fuel fuel n l0) = l0).
  { induction fuel as [|fuel IH]; intros l0 Hlen.
    - destruct l0; [reflexivity|cbn in Hlen; lia].
    - destruct l0 as [|a l0]; [reflexivity|].
      cbn [slices_fuel concat]. rewrite IH.
      + apply firstn_skipn.
      + rewrite length_skipn. cbn [length] in *. lia. }
  apply Hgen. apply le_n.
Qed.

(* --------------------------------------------------------------------- *)
(** ** Events that are skipped *)
(* --------------------------------------------------------------------- *)

(** C8: a push event whose [after] is the all-zero commit is
    acknowledged and skipped with the world untouched: nothing is
    fetched, no embedding is requested, no statement is issued. *)
Theorem branch_deletion_is_skipped env (event : GitLabPushEvent)
    (w : World) :
  after event = zeroSha ->
  processWebhook env (Push event) w
  = (Returned (acknowledgement, SkippedBranchDeletion), w).
Proof.
  intros Hafter.
  unfold processWebhook, processPushEvent, bind, try_catch.
  rewrite Hafter, str_eqb_refl. reflexivity.
Qed.

Lemma branch_deletion_is_skipped_witness :
  processWebhook demo_env (Push (push_of zeroSha))
    (world_of processed_store)
  = (Returned (acknowledgement, SkippedBranchDeletion),
     world_of processed_store).
Proof.
  apply branch_deletion_is_skipped. reflexivity.
Defined.


(** C1 fails on merge-request events: project 7 is recorded as
    processed up to commit [c1]; a merge-request event with action
    [update] whose last commit is [c1] is processed all the same.  The
    tree and two files are fetched, an embedding is requested, and the
    embeddings, the batch and the metadata are written. *)
Theorem merge_request_of_processed_commit_is_reprocessed :
  let event := merge_request_of "update" (lit "c1") in
  let w := world_of processed_store in
  let run := processWebhook demo_env (MergeRequest event) w in
  map lastProcessedCommit (tbl_projects (db w))
  = [last_commit_id (object_attributes event)]
  /\ fst run = Returned (acknowledgement, Completed)
  /\ filter is_fetch (log (snd run))
     = [GitlabTree 7 (lit "feature");
        GitlabFile 7 (lit "src/a.py") (lit "feature");
        GitlabFile 7 (lit "src/b.bin") (lit "feature")]
  /\ filter is_embed (log (snd run)) = [EmbedRequest (lit "print(1)")]
  /\ length (filter is_write (log (snd run))) = 5%nat
  /\ length (tbl_batches (db (snd run))) = 1%nat
  /\ map emb_content (tbl_embeddings (db (snd run))) = [lit "print(1)"].
Proof. vm_compute. repeat split. Qed.

(** The same event as a push is skipped. *)
Example push_of_processed_commit :
  processWebhook demo_env (Push (push_of (lit "c1")))
    (world_of processed_store)
  = (Returned (acknowledgement, SkippedAlreadyProcessed),
     {| db := processed_store; txn := None;
        log := [Query (SelectProject 7)]; clock := 1000 |}).
Proof. vm_compute. reflexivity. Qed.

(* --------------------------------------------------------------------- *)
(** ** The search endpoint *)
(* --------------------------------------------------------------------- *)

Lemma formatResult_omits_embedding (r : CodeEmbedding) :
  field "embedding" (formatResult r) = None.
Proof. reflexivity. Qed.

Lemma formatResult_shows (r : CodeEmbedding) : shows r (formatResult r).
Proof.
  unfold shows, formatResult. eexists. split; [reflexivity|].
  repeat split.
Qed.

Lemma assoc_absent (k : string) (fields : list (string * json)) :
  ~ In k (map fst fields) -> assoc k fields = None.
Proof.
  induction fields as [|[k' v] fields IH]; intros Hnot; [reflexivity|].
  cbn [assoc]. destruct (String.eqb_spec k k') as [E|E].
  - exfalso. apply Hnot. left. symmetry. exact E.
  - apply IH. intros Hin. apply Hnot. right. exact Hin.
Qed.

Lemma shows_omits_embedding (r : CodeEmbedding) (item : json) :
  shows r item -> field "embedding" item = None.
Proof.
  intros (fields & -> & Hkeys & _). cbn [field].
  apply assoc_absent. rewrite Hkeys. unfold shown_fields.
  intros [H|[H|[H|[H|[H|[H|[H|[H|[]]]]]]]]]; discriminate.
Qed.

(** C9: for a request with a non-empty query whose embedding is
    obtained and whose similarity search returns [results], the
    endpoint answers [404] with an empty result list when [results] is
    empty, and otherwise [200] with one item per result, in order: each
    item is an object that carries the project, repository URL, path,
    language, content, commit, branch and creation time of its row and
    nothing else, so none has an [embedding] field. *)
Theorem searchCode_status env (req : SearchBody) (query : jsstring)
    (v : vector) (results : list CodeEmbedding) (w w1 w2 : World) :
  sb_query req = Some query ->
  query <> [] ->
  generateEmbedding env query w = (Returned v, w1) ->
  similaritySearch env (searchScope req) v (searchLimit req) w1
  = (Returned results, w2) ->
  exists resp w3,
    searchCode env req w = (Returned resp, w3)
    /\ (results = [] ->
        status resp = 404
        /\ field "results" (body resp) = Some (JArr []))
    /\ (results <> [] ->
        status resp = 200
        /\ exists items,
             field "results" (body resp) = Some (JArr items)
             /\ Forall2 shows results items
             /\ Forall (fun item => field "embedding" item = None) items).
Proof.
  intros Hquery Hne Hembed Hsearch.
  assert (Hcall :
    match truthy_id (sb_projectId req) with
    | Some projectId =>
        searchSimilarCode env projectId v (searchLimit req)
    | None => searchSimilarCodeAcrossProjects env v (searchLimit req)
    end w1 = (Returned results, w2)).
  { unfold searchScope in Hsearch.
    destruct (truthy_id (sb_projectId req)); exact Hsearch. }
  assert (Hitems : forall rs : list CodeEmbedding,
    Forall2 shows rs (map formatResult rs)
    /\ Forall (fun item => field "embedding" item = None)
         (map formatResult rs)).
  { intros rs. induction rs as [|r rs [IH1 IH2]]; cbn.
    - split; constructor.
    - split.
      + constructor; [apply formatResult_shows|exact IH1].
      + constructor; [|exact IH2].
        apply (shows_omits_embedding r), formatResult_shows. }
  unfold searchCode, try_catch, bind. rewrite Hquery.
  destruct query as [|c query]; [contradiction|].
  rewrite Hembed. fold (searchLimit req). rewrite Hcall.
  destruct results as [|r results].
  - eexists _, _. split; [reflexivity|]. split.
    + intros _. split; reflexivity.
    + intros H. contradiction.
  - assert (Hanalysis : exists j wa,
      (if match sb_analyze req with Some a => a | None => false end
       then bind (analyzeCode env (c :: query) (r :: results))
              (fun text => ret (JStr text))
       else ret JNull) w2 = (Returned j, wa)).
    { destruct (match sb_analyze req with Some a => a | None => false end);
        [|eexists _, _; reflexivity].
      unfold analyzeCode, bind, emit, ret.
      destruct (falsy (OPENROUTER_API_KEY env));
        [eexists _, _; reflexivity|].
      destruct (llm_api env (c :: query) (r :: results));
        eexists _, _; reflexivity. }
    destruct Hanalysis as (j & wa & Hanalysis).
    unfold bind in Hanalysis. rewrite Hanalysis.
    eexists _, _. split; [reflexivity|]. split; [discriminate|].
    intros _. split; [reflexivity|].
    exists (map formatResult (r :: results)).
    split; [reflexivity|]. apply Hitems.
Qed.

Lemma searchCode_status_witness :
  exists resp w3,
    searchCode demo_env demo_search (world_of processed_store)
    = (Returned resp, w3)
    /\ (tbl_embeddings processed_store = [] ->
        status resp = 404
        /\ field "results" (body resp) = Some (JArr []))
    /\ (tbl_embeddings processed_store <> [] ->
        status resp = 200
        /\ exists items,
             field "results" (body resp) = Some (JArr items)
             /\ Forall2 shows (tbl_embeddings processed_store) items
             /\ Forall (fun item => field "embedding" item = None) items).
Proof.
  apply (searchCode_status demo_env demo_search (lit "print") [1; 2; 3]
           (tbl_embeddings processed_store) (world_of processed_store)
           (snd (generateEmbedding demo_env (lit "print")
                   (world_of processed_store)))
           (snd (similaritySearch demo_env None [1; 2; 3] 5
                   (snd (generateEmbedding demo_env (lit "print")
                           (world_of processed_store)))))).
  - reflexivity.
  - discriminate.
  - reflexivity.
  - reflexivity.
Defined.

(** With no stored embedding the answer is [404] and an empty list. *)
Example searchCode_nothing_stored :
  let resp := fst (searchCode demo_env demo_search (world_of empty_store)) in
  option_map status
    (match resp with Returned r => Some r | Thrown => None end) = Some 404
  /\ option_map (fun r => field "results" (body r))
       (match resp with Returned r => Some r | Thrown => None end)
     = Some (Some (JArr [])).
Proof. vm_compute. split; reflexivity. Qed.

(* ===================================================================== *)
(** * Further properties *)
(* ===================================================================== *)

(* --------------------------------------------------------------------- *)
(** ** The content filter, both directions *)
(* --------------------------------------------------------------------- *)

(** The bracket of [times_tenth] for every length a string can have. *)
Lemma times_tenth_bracket_wide (n : Z) :
  0 <= n < 2 ^ 32 ->
  (n / 10) * 2 ^ 56 <= times_tenth n < (n / 10 + 1) * 2 ^ 56.
Proof.
  unfold times_tenth, tenth_significand.
  change (2 ^ 32) with 4294967296. intros Hn.
  pose proof (Z.div_mod n 10 ltac:(lia)) as Hdm.
  pose proof (Z.mod_pos_bound n 10 ltac:(lia)) as Hmod.
  set (a := n / 10) in *. set (b := n mod 10) in *.
  set (N := n * 7205759403792794).
  assert (HN : N = a * (2 ^ 56 + 4) + b * 7205759403792794)
    by (unfold N; change (2 ^ 56) with 72057594037927936; lia).
  destruct (Z.le_gt_cases (Z.log2 N + 1) 53) as [Hk|Hk].
  - rewrite (round53_small _ Hk).
    change (2 ^ 56) with 72057594037927936 in *. lia.
  - destruct (round53_large _ Hk) as (q & -> & Hq).
    set (s := Z.log2 N - 52) in *.
    assert (Hs0 : 0 < s) by (unfold s; lia).
    assert (Hs32 : s <= 32).
    { assert (Z.log2 N < 85); [|unfold s; lia].
      assert (HNpos : 0 < N).
      { destruct (Z.lt_ge_cases 0 N) as [Hpos|Hneg]; [exact Hpos|].
        rewrite Z.log2_nonpos in Hk by lia. lia. }
      apply Z.log2_lt_pow2; [exact HNpos|].
      change (2 ^ 85) with 38685626227668133590597632. unfold N. lia. }
    assert (HP : 0 < 2 ^ s) by (apply Z.pow_pos_nonneg; lia).
    assert (HP32 : 2 ^ s <= 2 ^ 32) by (apply Z.pow_le_mono_r; lia).
    assert (Hsplit : 2 ^ 56 = 2 ^ (56 - s) * 2 ^ s)
      by (rewrite <- Z.pow_add_r by lia; f_equal; lia).
    assert (HR : 0 < 2 ^ (56 - s)) by (apply Z.pow_pos_nonneg; lia).
    pose proof (Z.div_mod N (2 ^ s) ltac:(lia)) as HdmN.
    pose proof (Z.mod_pos_bound N (2 ^ s) HP) as HmodN.
    set (P := 2 ^ s) in *. set (R := 2 ^ (56 - s)) in *.
    set (d := N / P) in *. set (r := N mod P) in *.
    split.
    + rewrite Hsplit. rewrite Z.mul_assoc.
      apply Z.mul_le_mono_nonneg_r; [lia|].
      assert (a * R * P <= N).
      { rewrite <- Z.mul_assoc, <- Hsplit, HN.
        change (2 ^ 56) with 72057594037927936. lia. }
      assert (a * R < d + 1) by nia. lia.
    + assert (q * P <= N + P) by nia.
      change (2 ^ 32) with 4294967296 in HP32.
      change (2 ^ 56) with 72057594037927936 in *. lia.
Qed.

Lemma includes_nul_In (content : jsstring) :
  includes_nul content = true <-> In 0%N content.
Proof.
  unfold includes_nul. rewrite existsb_exists. split.
  - intros (x & Hin & Hx). apply N.eqb_eq in Hx. subst x. exact Hin.
  - intros Hin. exists 0%N. split; [exact Hin|reflexivity].
Qed.

(** X1: for every content shorter than 2^32 characters,
    [isBinaryContent] answers true exactly when the content contains a
    null character or more than one tenth of its characters are
    non-printable: the floating-point threshold [length * 0.1] never
    misjudges the ratio. *)
Theorem isBinaryContent_iff (content : jsstring) :
  size content < 2 ^ 32 ->
  (isBinaryContent content = true
   <-> In 0%N content
       \/ (length content < 10 * nonPrintableCount content)%nat).
Proof.
  unfold size. intros Hsize.
  destruct (times_tenth_bracket_wide (Z.of_nat (length content)))
    as [Hlo Hhi]; [lia|].
  unfold isBinaryContent. rewrite <- includes_nul_In.
  destruct (includes_nul content); [split; auto|].
  unfold ratio_exceeded.
  set (n := Z.of_nat (length content)) in *.
  set (c := Z.of_nat (nonPrintableCount content)).
  set (t := times_tenth n) in *. clearbody t.
  assert (Hpow : 0 < 2 ^ 56) by (apply Z.pow_pos_nonneg; lia).
  assert (Hn : (length content < 10 * nonPrintableCount content)%nat
               <-> n < 10 * c) by (unfold n, c; lia).
  generalize dependent (2 ^ 56). intros P Hlo Hhi HP.
  pose proof (Z.div_mod n 10 ltac:(lia)) as Hdm.
  pose proof (Z.mod_pos_bound n 10 ltac:(lia)) as Hmod.
  rewrite Z.ltb_lt. split.
  - intros Hlt. right. apply Hn.
    destruct (Z.lt_ge_cases n (10 * c)) as [H|H]; [exact H|].
    assert (c <= n / 10) by lia. nia.
  - intros [H|H]; [discriminate|]. apply Hn in H.
    assert (n / 10 + 1 <= c) by lia. nia.
Qed.

Lemma isBinaryContent_iff_witness :
  isBinaryContent [7; 7; 104; 105]%N = true
  <-> In 0%N [7; 7; 104; 105]%N
      \/ (length [7; 7; 104; 105]%N
          < 10 * nonPrintableCount [7; 7; 104; 105]%N)%nat.
Proof.
  apply isBinaryContent_iff. vm_compute. reflexivity.
Defined.

(** X2: the guard of [generateEmbeddings] lets a content through
    exactly when it is not empty, has at most 100,000 characters,
    contains no null character, and at most one tenth of its characters
    are non-printable. *)
Theorem contentEligible_iff (content : jsstring) :
  contentEligible content = true
  <-> content <> []
      /\ size content <= sizeCeiling
      /\ ~ In 0%N content
      /\ (10 * nonPrintableCount content <= length content)%nat.
Proof.
  unfold contentEligible, skipContent, size.
  rewrite negb_true_iff, !orb_false_iff, <- includes_nul_In.
  split.
  - intros [[Hne Hlen] Hbin].
    apply Z.ltb_ge in Hlen.
    rewrite (isBinaryContent_exact _ Hlen) in Hbin.
    apply orb_false_iff in Hbin as [Hnul Hratio].
    apply Z.ltb_ge in Hratio.
    split; [intros ->; discriminate|]. split; [exact Hlen|].
    split; [rewrite Hnul; discriminate|lia].
  - intros (Hne & Hlen & Hnul & Hratio).
    split; [split|].
    + destruct content; [contradiction|reflexivity].
    + apply Z.ltb_ge. exact Hlen.
    + rewrite (isBinaryContent_exact _ Hlen).
      apply orb_false_iff. split.
      * destruct (includes_nul content); [exfalso; auto|reflexivity].
      * apply Z.ltb_ge. lia.
Qed.

(* --------------------------------------------------------------------- *)
(** ** Chunking, for every file and threshold *)
(* --------------------------------------------------------------------- *)

Lemma chunkLines_meta (file : CodeFile) (maxChunkSize : Z)
    (lines : list jsstring) :
  forall currentChunk chunkIndex chunks,
    Forall (fun c => language c = language file
                     /\ lastModified c = lastModified file) chunks ->
    Forall (fun c => language c = language file
                     /\ lastModified c = lastModified file)
      (chunkLines file maxChunkSize lines currentChunk chunkIndex chunks).
Proof.
  induction lines as [|line rest IH]; intros cur idx chunks Hch;
    cbn [chunkLines].
  - destruct (is_empty cur); [exact Hch|].
    apply Forall_app. split; [exact Hch|].
    constructor; [split; reflexivity|constructor].
  - destruct (maxChunkSize <? _); apply IH; [|exact Hch].
    apply Forall_app. split; [exact Hch|].
    constructor; [split; reflexivity|constructor].
Qed.

Lemma chunkCodeFile_cases (file : CodeFile) (maxChunkSize : Z) :
  (chunkCodeFile file maxChunkSize = [file]
   /\ (content file = [] \/ size (content file) <= maxChunkSize))
  \/ (chunkCodeFile file maxChunkSize
      = chunkLines file maxChunkSize (split_on NL (content file)) [] 0 []
      /\ content file <> [] /\ maxChunkSize < size (content file)).
Proof.
  unfold chunkCodeFile, size.
  destruct (content file) as [|c rest] eqn:Ec.
  - left. split; [reflexivity|left; reflexivity].
  - cbn [is_empty orb].
    destruct (Z.leb_spec (Z.of_nat (length (c :: rest))) maxChunkSize).
    + left. split; [reflexivity|right; assumption].
    + right. repeat split; [discriminate|assumption].
Qed.

(** X3: [chunkCodeFile] loses and reorders nothing, for every file and
    threshold.  A file that is empty or not longer than the threshold
    comes back alone and unchanged; otherwise the chunk contents,
    concatenated in output order, are the content followed by one line
    break.  Every chunk keeps the language and modification time of
    the file. *)
Theorem chunkCodeFile_conserves (file : CodeFile) (maxChunkSize : Z) :
  let chunks := chunkCodeFile file maxChunkSize in
  (content file = [] \/ size (content file) <= maxChunkSize ->
   chunks = [file])
  /\ (content file <> [] /\ maxChunkSize < size (content file) ->
      concat (map content chunks) = content file ++ [NL])
  /\ Forall (fun c => language c = language file
                      /\ lastModified c = lastModified file) chunks.
Proof.
  cbv zeta.
  destruct (chunkCodeFile_cases file maxChunkSize)
    as [[-> Hsmall]|(-> & Hne & Hbig)].
  - split; [reflexivity|]. split.
    + intros [Hne' Hbig']. destruct Hsmall as [He|Hle];
        [contradiction|lia].
    + constructor; [split; reflexivity|constructor].
  - split; [|split].
    + intros [He|Hle]; [contradiction|lia].
    + intros _. rewrite chunkLines_concat. cbn [map concat app].
      apply split_on_join.
    + apply chunkLines_meta. constructor.
Qed.

Lemma join_lines_nil (lines : list jsstring) :
  join_lines lines = [] -> lines = [].
Proof.
  destruct lines as [|l lines]; [reflexivity|].
  unfold join_lines. cbn. intros H.
  apply (f_equal (@length char)) in H.
  rewrite !length_app in H. cbn in H. lia.
Qed.

Lemma join_lines_snoc (lines : list jsstring) (line : jsstring) :
  join_lines (lines ++ [line]) = join_lines lines ++ line ++ [NL].
Proof.
  unfold join_lines. rewrite flat_map_app. cbn. rewrite app_nil_r.
  reflexivity.
Qed.

(** The chunks are groups of whole lines: [current] are the lines
    gathered in [currentChunk]. *)
Lemma chunkLines_groups (file : CodeFile) (maxChunkSize : Z)
    (lines : list jsstring) :
  forall current chunkIndex chunks,
    exists groups,
      map content
        (chunkLines file maxChunkSize lines (join_lines current) chunkIndex
           chunks)
      = map content chunks ++ map join_lines groups
      /\ concat groups = current ++ lines.
Proof.
  induction lines as [|line rest IH]; intros current idx chunks;
    cbn [chunkLines].
  - destruct (join_lines current) as [|c cur] eqn:Ecur; cbn [is_empty].
    + exists []. rewrite (join_lines_nil _ Ecur). cbn.
      rewrite app_nil_r. split; reflexivity.
    + exists [current]. rewrite map_app. cbn. rewrite Ecur, !app_nil_r.
      split; reflexivity.
  - destruct (maxChunkSize <? _).
    + destruct (IH [line] (S idx)
                  (chunks ++ [mkChunk file idx (join_lines current)]))
        as (groups & Hmap & Hcat).
      exists (current :: groups). split.
      * change (line ++ [NL]) with (line ++ [NL] ++ []).
        replace (line ++ [NL] ++ []) with (join_lines [line])
          by (unfold join_lines; cbn; rewrite app_nil_r; reflexivity).
        rewrite Hmap, map_app. cbn. rewrite <- app_assoc. reflexivity.
      * cbn [concat]. rewrite Hcat. reflexivity.
    + destruct (IH (current ++ [line]) idx chunks)
        as (groups & Hmap & Hcat).
      exists groups. split.
      * rewrite <- join_lines_snoc. exact Hmap.
      * rewrite Hcat, <- app_assoc. reflexivity.
Qed.

(** The chunks of a file that is split are groups of whole lines. *)
Lemma chunkCodeFile_groups (file : CodeFile) (maxChunkSize : Z) :
  content file <> [] ->
  maxChunkSize < size (content file) ->
  exists groups,
    map content (chunkCodeFile file maxChunkSize) = map join_lines groups
    /\ concat groups = split_on NL (content file).
Proof.
  intros Hne Hbig.
  destruct (chunkCodeFile_cases file maxChunkSize)
    as [[_ [He|Hle]]|(-> & _ & _)]; [contradiction|lia|].
  destruct (chunkLines_groups file maxChunkSize
              (split_on NL (content file)) [] 0 [])
    as (groups & Hmap & Hcat).
  exists groups. split; [exact Hmap|exact Hcat].
Qed.

(** X4: [chunkCodeFile] cuts at line breaks only.  When it splits a
    file, the lines of the content fall into consecutive groups, one
    per chunk, and each chunk is the lines of its group, each followed
    by a line break; no line is divided between two chunks. *)
Theorem chunkCodeFile_whole_lines (file : CodeFile) (maxChunkSize : Z) :
  content file <> [] ->
  maxChunkSize < size (content file) ->
  exists groups,
    map content (chunkCodeFile file maxChunkSize) = map join_lines groups
    /\ concat groups = split_on NL (content file).
Proof.
  intros Hne Hbig.
  destruct (chunkCodeFile_groups file maxChunkSize Hne Hbig)
    as (groups & Hmap & Hcat).
  exists groups. split; [exact Hmap|exact Hcat].
Qed.

Lemma chunkCodeFile_whole_lines_witness :
  exists groups,
    map content (chunkCodeFile long_first_line 5) = map join_lines groups
    /\ concat groups = split_on NL (content long_first_line).
Proof.
  apply chunkCodeFile_whole_lines.
  - discriminate.
  - vm_compute. reflexivity.
Defined.

Lemma join_lines_covers (group : list jsstring) (line : jsstring) :
  In line group -> size line + 1 <= size (join_lines group).
Proof.
  unfold size, join_lines.
  induction group as [|l group IH]; intros Hin; [contradiction|].
  cbn [flat_map]. rewrite !length_app. cbn [length].
  destruct Hin as [->|Hin]; [lia|]. specialize (IH Hin). lia.
Qed.

(** X5: the threshold is not enforced on long lines.  When the file
    is split and one of its lines, with its line break, is longer than
    the threshold, some chunk is longer than the threshold. *)
Theorem chunkCodeFile_long_line (file : CodeFile) (maxChunkSize : Z)
    (line : jsstring) :
  content file <> [] ->
  maxChunkSize < size (content file) ->
  In line (split_on NL (content file)) ->
  maxChunkSize < size line + 1 ->
  exists chunk,
    In chunk (chunkCodeFile file maxChunkSize)
    /\ maxChunkSize < size (content chunk).
Proof.
  intros Hne Hbig Hline Hlong.
  destruct (chunkCodeFile_groups file maxChunkSize Hne Hbig)
    as (groups & Hmap & Hcat).
  rewrite <- Hcat in Hline. apply in_concat in Hline as (g & Hg & Hin).
  assert (Hj : In (join_lines g)
                 (map content (chunkCodeFile file maxChunkSize))).
  { rewrite Hmap. apply in_map. exact Hg. }
  apply in_map_iff in Hj as (chunk & Hc & Hchunk).
  exists chunk. split; [exact Hchunk|].
  rewrite Hc. pose proof (join_lines_covers g line Hin). lia.
Qed.

Lemma chunkCodeFile_long_line_witness :
  exists chunk,
    In chunk (chunkCodeFile long_first_line 5)
    /\ 5 < size (content chunk).
Proof.
  apply (chunkCodeFile_long_line long_first_line 5 (lit "aaaaaaaaaa")).
  - discriminate.
  - vm_compute. reflexivity.
  - vm_compute. left. reflexivity.
  - vm_compute. reflexivity.
Defined.

(** The chunks of the small file: an empty one, the long line, the
    rest. *)
Example chunkCodeFile_long_first_line :
  map content (chunkCodeFile long_first_line 5)
  = [[]; lit "aaaaaaaaaa" ++ [NL]; lit "bb" ++ [NL]].
Proof. vm_compute. reflexivity. Qed.

(* --------------------------------------------------------------------- *)
(** ** Upserts of embeddings *)
(* --------------------------------------------------------------------- *)

Lemma on_conflict_same (e : CodeEmbedding) : on_conflict e e = e.
Proof. destruct e; reflexivity. Qed.

Lemma upsert_embedding_idempotent (e : CodeEmbedding)
    (rows : list CodeEmbedding) :
  upsert_embedding e (upsert_embedding e rows) = upsert_embedding e rows.
Proof.
  induction rows as [|r rows IH]; cbn.
  - rewrite same_key_refl, on_conflict_same. reflexivity.
  - destruct (same_key r e) eqn:E; cbn.
    + assert (Hk : same_key (on_conflict r e) e = true).
      { apply same_key_key. rewrite key_on_conflict.
        apply same_key_key. exact E. }
      rewrite Hk. reflexivity.
    + rewrite E, IH. reflexivity.
Qed.

(** X6: saving the same embedding row a second time changes nothing:
    the database after the second [saveEmbedding] is the database
    after the first. *)
Theorem saveEmbedding_idempotent env (e : CodeEmbedding) (w w1 w2 : World) :
  saveEmbedding env e w = (Returned tt, w1) ->
  saveEmbedding env e w1 = (Returned tt, w2) ->
  db w2 = db w1.
Proof.
  intros H1 H2.
  apply saveEmbedding_inv in H1 as [[H1 _]|(_ & _ & H1)]; [discriminate|].
  apply saveEmbedding_inv in H2 as [[H2 _]|(_ & _ & H2)]; [discriminate|].
  rewrite H2, H1. unfold with_embeddings. cbn.
  rewrite upsert_embedding_idempotent. reflexivity.
Qed.

Lemma saveEmbedding_idempotent_witness :
  db (snd (saveEmbedding demo_env version_A after_A)) = db after_A.
Proof.
  apply (saveEmbedding_idempotent demo_env version_A
           (world_of empty_store)).
  - reflexivity.
  - reflexivity.
Defined.

Lemma upsert_all_unique (embs rows : list CodeEmbedding) :
  unique_keys rows -> unique_keys (upsert_all embs rows).
Proof.
  revert rows. induction embs as [|e embs IH]; intros rows Hu;
    [exact Hu|].
  rewrite upsert_all_cons. apply IH. apply upsert_embedding_unique.
  exact Hu.
Qed.

(** X7: the uniqueness constraint on (project, path) is an invariant
    of both save operations: whatever their outcome, a table with one
    row per key is left with one row per key. *)
Theorem saves_keep_unique_keys env (w : World) :
  unique_keys (tbl_embeddings (db w)) ->
  (forall e,
     unique_keys (tbl_embeddings (db (snd (saveEmbedding env e w)))))
  /\ (forall embs,
        unique_keys (tbl_embeddings (db (snd (saveEmbeddings env embs w))))).
Proof.
  intros Hu. split.
  - intros e. destruct (saveEmbedding env e w) as [o w'] eqn:Hrun.
    apply saveEmbedding_inv in Hrun as [[_ Hdb]|(_ & _ & Hdb)];
      cbn [snd]; rewrite Hdb; [exact Hu|].
    apply upsert_embedding_unique. exact Hu.
  - intros embs. destruct (saveEmbeddings env embs w) as [o w'] eqn:Hrun.
    apply saveEmbeddings_inv in Hrun
      as (issued & _ & _ & [(_ & Hdb & _)|(_ & _ & Hdb & _)]);
      cbn [snd]; rewrite Hdb; [exact Hu|].
    apply upsert_all_unique. exact Hu.
Qed.

Lemma saves_keep_unique_keys_witness :
  (forall e,
     unique_keys
       (tbl_embeddings
          (db (snd (saveEmbedding demo_env e (world_of processed_store))))))
  /\ (forall embs,
        unique_keys
          (tbl_embeddings
             (db (snd (saveEmbeddings demo_env embs
                         (world_of processed_store)))))).
Proof.
  apply saves_keep_unique_keys.
  constructor; [intros []|constructor].
Defined.

Lemma mapM_saveEmbedding_inv env (embs : list CodeEmbedding) :
  forall w us w',
    mapM (saveEmbedding env) embs w = (Returned us, w') ->
    db w' = with_embeddings (db w)
              (upsert_all embs (tbl_embeddings (db w))).
Proof.
  induction embs as [|e embs IH]; intros w us w' H.
  - cbn in H. injection H as _ <-. unfold with_embeddings. cbn.
    rewrite store_eta. reflexivity.
  - cbn [mapM] in H.
    inv_bind H as u w1 Hsave Hrest; [|discriminate].
    inv_bind Hrest as us' w2 Hmore Hret; [|discriminate].
    unfold ret in Hret. injection Hret as _ <-.
    apply saveEmbedding_inv in Hsave as [[? _]|(_ & _ & Hsave)];
      [discriminate|].
    rewrite (IH _ _ _ Hmore), Hsave. reflexivity.
Qed.

(** X8: a batch that goes through is the rows saved one by one: when
    [saveEmbeddings] returns for a list of rows, and [saveEmbedding]
    applied to the same rows in order returns for each, both leave the
    same database. *)
Theorem saveEmbeddings_is_each_saved env (embs : list CodeEmbedding)
    (w w1 w2 : World) (us : list unit) :
  saveEmbeddings env embs w = (Returned tt, w1) ->
  mapM (saveEmbedding env) embs w = (Returned us, w2) ->
  db w1 = db w2.
Proof.
  intros Hbatch Heach.
  apply saveEmbeddings_inv in Hbatch
    as (issued & _ & _ & [(? & _)|(_ & _ & Hdb & _)]); [discriminate|].
  rewrite Hdb, (mapM_saveEmbedding_inv _ _ _ _ _ Heach). reflexivity.
Qed.

Lemma saveEmbeddings_is_each_saved_witness :
  db (snd (saveEmbeddings demo_env mixed_batch (world_of processed_store)))
  = db (snd (mapM (saveEmbedding demo_env) mixed_batch
               (world_of processed_store))).
Proof.
  apply (saveEmbeddings_is_each_saved demo_env mixed_batch
           (world_of processed_store) _ _ [tt; tt; tt]).
  - reflexivity.
  - reflexivity.
Defined.

Lemma find_upsert_other_key (x e : CodeEmbedding)
    (rows : list CodeEmbedding) :
  key x <> key e ->
  find (fun r => same_key r e) (upsert_embedding x rows)
  = find (fun r => same_key r e) rows.
Proof.
  intros Hne. induction rows as [|r rows IH]; cbn.
  - destruct (same_key x e) eqn:E; [|reflexivity].
    apply same_key_key in E. contradiction.
  - destruct (same_key r x) eqn:Ex; cbn.
    + assert (Hr : same_key r e = false).
      { destruct (same_key r e) eqn:Ee; [|reflexivity].
        apply same_key_key in Ex, Ee. congruence. }
      assert (Hc : same_key (on_conflict r x) e = false).
      { destruct (same_key (on_conflict r x) e) eqn:Ec; [|reflexivity].
        apply same_key_key in Ec. rewrite key_on_conflict in Ec.
        apply same_key_key in Ec. congruence. }
      rewrite Hr, Hc. reflexivity.
    + destruct (same_key r e); [reflexivity|exact IH].
Qed.

Lemma upsert_all_app (a b rows : list CodeEmbedding) :
  upsert_all (a ++ b) rows = upsert_all b (upsert_all a rows).
Proof. unfold upsert_all. apply fold_left_app. Qed.

Lemma find_upsert_all_other_keys (post : list CodeEmbedding)
    (e : CodeEmbedding) :
  (forall x, In x post -> key x <> key e) ->
  forall rows,
    find (fun r => same_key r e) (upsert_all post rows)
    = find (fun r => same_key r e) rows.
Proof.
  induction post as [|x post IH]; intros Hpost rows; [reflexivity|].
  rewrite upsert_all_cons, IH.
  - apply find_upsert_other_key. apply Hpost. left. reflexivity.
  - intros y Hy. apply Hpost. right. exact Hy.
Qed.

(** X9: within one batch the last row of a key wins.  When
    [saveEmbeddings] returns for a batch in which no row after [e] has
    the project and path of [e], the row stored under that key carries
    the content, embedding, language, commit, branch and update time of
    [e], whatever rows of the same key came earlier in the batch. *)
Theorem saveEmbeddings_last_wins env (before after_ : list CodeEmbedding)
    (e : CodeEmbedding) (w w' : World) :
  (forall x, In x after_ -> key x <> key e) ->
  saveEmbeddings env (before ++ e :: after_) w = (Returned tt, w') ->
  exists row,
    find (fun r => same_key r e) (tbl_embeddings (db w')) = Some row
    /\ emb_content row = emb_content e
    /\ embedding row = embedding e
    /\ emb_language row = emb_language e
    /\ commitId row = commitId e
    /\ branch row = branch e
    /\ updatedAt row = updatedAt e.
Proof.
  intros Hafter Hrun.
  apply saveEmbeddings_inv in Hrun
    as (issued & _ & _ & [(? & _)|(_ & _ & Hdb & _)]); [discriminate|].
  rewrite Hdb. cbn [tbl_embeddings with_embeddings].
  rewrite upsert_all_app, upsert_all_cons.
  rewrite (find_upsert_all_other_keys _ _ Hafter), find_upsert_embedding.
  eexists. split; [reflexivity|].
  unfold upserted.
  destruct (find _ _); repeat split; reflexivity.
Qed.

Lemma saveEmbeddings_last_wins_witness :
  exists row,
    find (fun r => same_key r version_B)
      (tbl_embeddings
         (db (snd (saveEmbeddings demo_env
                     ([version_A] ++ version_B :: [])
                     (world_of empty_store)))))
    = Some row
    /\ emb_content row = emb_content version_B
    /\ embedding row = embedding version_B
    /\ emb_language row = emb_language version_B
    /\ commitId row = commitId version_B
    /\ branch row = branch version_B
    /\ updatedAt row = updatedAt version_B.
Proof.
  apply (saveEmbeddings_last_wins demo_env [version_A] []
           version_B (world_of empty_store)).
  - intros x [].
  - reflexivity.
Defined.

(* --------------------------------------------------------------------- *)
(** ** Project metadata and reads *)
(* --------------------------------------------------------------------- *)

Lemma getProjectMetadata_inv env pid w o w' :
  getProjectMetadata env pid w = (o, w') ->
  db w' = db w
  /\ log w' = log w ++ [Query (SelectProject pid)]
  /\ clock w' = clock w
  /\ (o = Thrown
      \/ o = Returned (find (fun r => pm_projectId r =? pid)
                         (tbl_projects (db w)))).
Proof.
  unfold getProjectMetadata. intros H.
  inv_bind H as u w0 Hc Hrest; [|discriminate].
  rewrite connect_run in Hc. injection Hc as <- <-.
  unfold select in Hrest.
  apply client_query_inv in Hrest as (Hlog & Hclock & [Hq|Hq]).
  - destruct Hq as (-> & Hdb & _). auto.
  - destruct Hq as (r & s' & -> & _ & Hsel & _ & Hnone & _).
    cbn [current txn db] in *. injection Hsel as <- <-.
    destruct (Hnone eq_refl) as [Hdb _]. auto.
Qed.

Lemma find_upsert_project (m : ProjectMetadata)
    (rows : list ProjectMetadata) (pid : Z) :
  find (fun r => pm_projectId r =? pid) (upsert_project m rows)
  = if pm_projectId m =? pid then Some m
    else find (fun r => pm_projectId r =? pid) rows.
Proof.
  induction rows as [|r rows IH]; cbn.
  - destruct (pm_projectId m =? pid); reflexivity.
  - destruct (Z.eqb_spec (pm_projectId r) (pm_projectId m)) as [E|E]; cbn.
    + rewrite E. destruct (pm_projectId m =? pid); reflexivity.
    + rewrite IH.
      destruct (Z.eqb_spec (pm_projectId m) pid);
        destruct (Z.eqb_spec (pm_projectId r) pid);
        try reflexivity; congruence.
Qed.

(** X10: project metadata round trip.  After [updateProjectMetadata]
    has returned for [m], [getProjectMetadata], when it returns, yields
    [m] for the project of [m] and, for every other project, what was
    stored before the update. *)
Theorem updateProjectMetadata_then_get env (m : ProjectMetadata)
    (w w1 w2 : World) (pid : Z) (r : option ProjectMetadata) :
  updateProjectMetadata env m w = (Returned tt, w1) ->
  getProjectMetadata env pid w1 = (Returned r, w2) ->
  (pid = pm_projectId m -> r = Some m)
  /\ (pid <> pm_projectId m ->
      r = find (fun x => pm_projectId x =? pid) (tbl_projects (db w))).
Proof.
  intros Hupd Hget.
  apply updateProjectMetadata_inv in Hupd
    as (_ & _ & [[? _]|(_ & _ & Hp & _)]); [discriminate|].
  apply getProjectMetadata_inv in Hget as (_ & _ & _ & [?|Hr]);
    [discriminate|].
  injection Hr as ->. rewrite Hp, find_upsert_project. split.
  - intros ->. rewrite Z.eqb_refl. reflexivity.
  - intros Hne.
    destruct (Z.eqb_spec (pm_projectId m) pid); [congruence|reflexivity].
Qed.

Lemma updateProjectMetadata_then_get_witness :
  (7 = pm_projectId demo_metadata -> Some demo_metadata = Some demo_metadata)
  /\ (7 <> pm_projectId demo_metadata ->
      Some demo_metadata
      = find (fun x => pm_projectId x =? 7)
          (tbl_projects (db (world_of processed_store)))).
Proof.
  apply (updateProjectMetadata_then_get demo_env demo_metadata
           (world_of processed_store)
           (snd (updateProjectMetadata demo_env demo_metadata
                   (world_of processed_store)))
           (snd (getProjectMetadata demo_env 7
                   (snd (updateProjectMetadata demo_env demo_metadata
                           (world_of processed_store)))))).
  - reflexivity.
  - reflexivity.
Defined.

Lemma getEmbeddingsByCommit_inv env pid commit w rows w' :
  getEmbeddingsByCommit env pid commit w = (Returned rows, w') ->
  rows = filter (fun r => (projectId r =? pid)
                          && str_eqb (commitId r) commit)
           (tbl_embeddings (db w)).
Proof.
  unfold getEmbeddingsByCommit. intros H.
  inv_bind H as u w0 Hc Hrest; [|discriminate].
  rewrite connect_run in Hc. injection Hc as <- <-.
  inv_bind Hrest as isVector w1 Hsel Hrows; [|discriminate].
  apply select_column_type_inv in Hsel as (_ & _ & Hdb & Htxn & _).
  cbn [db txn] in *.
  unfold select in Hrows.
  apply client_query_inv in Hrows as (_ & _ & [Hq|Hq]).
  { destruct Hq as (Hq & _). discriminate. }
  destruct Hq as (rows' & s' & Hret & _ & Hsel & _).
  injection Hret as ->. unfold current in Hsel. rewrite Htxn, Hdb in Hsel.
  injection Hsel as <- _. reflexivity.
Qed.

Lemma upserted_fields (e : CodeEmbedding) (rows : list CodeEmbedding) :
  key (upserted e rows) = key e
  /\ emb_content (upserted e rows) = emb_content e
  /\ commitId (upserted e rows) = commitId e.
Proof.
  unfold upserted.
  destruct (find (fun r => same_key r e) rows) as [old|] eqn:Ef.
  - apply find_some in Ef as [_ Ek]. apply same_key_key in Ek.
    rewrite key_on_conflict. auto.
  - auto.
Qed.

Lemma in_upsert_embedding (e : CodeEmbedding) (rows : list CodeEmbedding) :
  In (upserted e rows) (upsert_embedding e rows).
Proof.
  pose proof (find_upsert_embedding e rows) as Hf.
  apply find_some in Hf as [Hin _]. exact Hin.
Qed.

(** X11: a saved row is found under its commit.  After [saveEmbedding]
    has returned for [e], every answer of [getEmbeddingsByCommit] for
    the project and commit of [e] contains a row with the path and
    content of [e]; all rows of the answer belong to that project and
    commit. *)
Theorem saved_row_is_listed_under_its_commit env (e : CodeEmbedding)
    (w w1 w2 : World) (rows : list CodeEmbedding) :
  saveEmbedding env e w = (Returned tt, w1) ->
  getEmbeddingsByCommit env (projectId e) (commitId e) w1
  = (Returned rows, w2) ->
  (exists row, In row rows /\ filePath row = filePath e
               /\ emb_content row = emb_content e)
  /\ Forall (fun r => projectId r = projectId e /\ commitId r = commitId e)
       rows.
Proof.
  intros Hsave Hget.
  apply saveEmbedding_inv in Hsave as [[? _]|(_ & _ & Hdb)];
    [discriminate|].
  apply getEmbeddingsByCommit_inv in Hget. subst rows.
  rewrite Hdb. cbn [tbl_embeddings with_embeddings].
  set (table := tbl_embeddings (db w)).
  destruct (upserted_fields e table) as (Hk & Hc & Hcommit).
  split.
  - exists (upserted e table). split; [|split].
    + apply filter_In. split; [apply in_upsert_embedding|].
      injection Hk as Hp _. rewrite Hp, Hcommit, Z.eqb_refl, str_eqb_refl.
      reflexivity.
    + injection Hk as _ Hf. exact Hf.
    + exact Hc.
  - apply Forall_forall. intros r Hr. apply filter_In in Hr as [_ Hr].
    apply andb_true_iff in Hr as [Hp Hc']. apply Z.eqb_eq in Hp.
    apply str_eqb_eq in Hc'. auto.
Qed.

Lemma saved_row_is_listed_under_its_commit_witness :
  (exists row,
     In row [version_A] /\ filePath row = filePath version_A
     /\ emb_content row = emb_content version_A)
  /\ Forall (fun r => projectId r = projectId version_A
                      /\ commitId r = commitId version_A) [version_A].
Proof.
  apply (saved_row_is_listed_under_its_commit demo_env version_A
           (world_of empty_store) after_A
           (snd (getEmbeddingsByCommit demo_env 7 (lit "c1") after_A))).
  - reflexivity.
  - reflexivity.
Defined.

(** X12: the table holds the latest state of a file only.  In a table
    with one row per key, once [saveEmbedding] has returned for [e],
    no answer of [getEmbeddingsByCommit] for another commit contains a
    row with the project and path of [e]: the file has left the
    listing of the commit it was saved at before. *)
Theorem saved_row_leaves_other_commits env (e : CodeEmbedding)
    (w w1 w2 : World) (commit : jsstring) (rows : list CodeEmbedding) :
  unique_keys (tbl_embeddings (db w)) ->
  commit <> commitId e ->
  saveEmbedding env e w = (Returned tt, w1) ->
  getEmbeddingsByCommit env (projectId e) commit w1 = (Returned rows, w2) ->
  forall row, In row rows -> filePath row <> filePath e.
Proof.
  intros Hu Hcommit Hsave Hget row Hrow Hpath.
  apply saveEmbedding_inv in Hsave as [[? _]|(_ & _ & Hdb)];
    [discriminate|].
  apply getEmbeddingsByCommit_inv in Hget. subst rows.
  rewrite Hdb in Hrow. cbn [tbl_embeddings with_embeddings] in Hrow.
  set (table := tbl_embeddings (db w)) in *.
  apply filter_In in Hrow as [Hin Hsel].
  apply andb_true_iff in Hsel as [Hp Hc]. apply Z.eqb_eq in Hp.
  apply str_eqb_eq in Hc.
  assert (Hkey : same_key row e = true).
  { apply same_key_key. unfold key. rewrite Hp, Hpath. reflexivity. }
  assert (Hrow : In row (filter (fun r => same_key r e)
                           (upsert_embedding e table))).
  { apply filter_In. split; assumption. }
  rewrite (filter_upsert_embedding e table Hu) in Hrow.
  destruct Hrow as [<-|[]].
  destruct (upserted_fields e table) as (_ & _ & Hcommit').
  congruence.
Qed.

Lemma saved_row_leaves_other_commits_witness :
  unique_keys (tbl_embeddings (db after_A))
  /\ forall row,
       In row (filter (fun r => (projectId r =? projectId version_B)
                                && str_eqb (commitId r) (lit "c1"))
                 (tbl_embeddings (db after_A_B))) ->
       filePath row <> filePath version_B.
Proof.
  assert (Hu : unique_keys (tbl_embeddings (db after_A))).
  { vm_compute. constructor; [intros []|constructor]. }
  split; [exact Hu|].
  apply (saved_row_leaves_other_commits demo_env version_B after_A
           after_A_B
           (snd (getEmbeddingsByCommit demo_env 7 (lit "c1") after_A_B))
           (lit "c1")).
  - exact Hu.
  - discriminate.
  - reflexivity.
  - reflexivity.
Defined.

(* --------------------------------------------------------------------- *)
(** ** The embedding generator *)
(* --------------------------------------------------------------------- *)

Lemma embedFile_run env pid commit br (f : CodeFile) (w : World) :
  exists r w',
    embedFile env pid commit br f w = (Returned r, w')
    /\ db w' = db w
    /\ log w' = log w ++ (if eligibleFile f
                          then [EmbedRequest (content f)] else [])
    /\ match r with
       | Some e => embeddable env f = true
                   /\ embedding_of env pid commit br f e
       | None => embeddable env f = false
       end.
Proof.
  unfold embedFile, embeddable, eligibleFile, contentEligible, try_catch.
  destruct (skipContent (content f)); cbn [negb andb].
  - eexists None, _. cbn. rewrite app_nil_r.
    repeat split; reflexivity.
  - unfold bind, generateEmbedding, bind, emit.
    destruct (embed_api env (content f)) as [v|] eqn:Eapi.
    + eexists (Some _), _. cbn. split; [reflexivity|].
      split; [reflexivity|]. split; [reflexivity|].
      split; [reflexivity|]. unfold embedding_of. cbn.
      rewrite Eapi. repeat split; reflexivity.
    + eexists None, _. cbn. repeat split; reflexivity.
Qed.

Lemma embedFiles_run env pid commit br (batch : list CodeFile) :
  forall w,
    exists rs w',
      mapM (embedFile env pid commit br) batch w = (Returned rs, w')
      /\ db w' = db w
      /\ log w' = log w ++ map EmbedRequest
                             (map content (filter eligibleFile batch))
      /\ Forall2 (embedding_of env pid commit br)
           (filter (embeddable env) batch) (filterBoolean rs).
Proof.
  induction batch as [|f batch IH]; intros w.
  - exists [], w. cbn. rewrite app_nil_r. repeat split. constructor.
  - destruct (embedFile_run env pid commit br f w)
      as (r & w1 & Hrun & Hdb & Hlog & Hr).
    destruct (IH w1) as (rs & w' & Hrest & Hdb' & Hlog' & Hall).
    exists (r :: rs), w'. cbn [mapM]. unfold bind at 1. rewrite Hrun.
    unfold bind at 1. rewrite Hrest. cbn [ret].
    split; [reflexivity|]. split; [congruence|]. split.
    + rewrite Hlog', Hlog, <- app_assoc. cbn [filter].
      destruct (eligibleFile f); reflexivity.
    + cbn [filter filterBoolean]. destruct r as [e|].
      * destruct Hr as [-> He]. constructor; assumption.
      * rewrite Hr. exact Hall.
Qed.

Lemma embedBatches_run env pid commit br (batches : list (list CodeFile)) :
  forall w,
    exists embs w',
      embedBatches env pid commit br batches w = (Returned embs, w')
      /\ db w' = db w
      /\ log w' = log w ++ map EmbedRequest
                             (map content
                                (filter eligibleFile (concat batches)))
      /\ Forall2 (embedding_of env pid commit br)
           (filter (embeddable env) (concat batches)) embs.
Proof.
  induction batches as [|batch rest IH]; intros w.
  - exists [], w. cbn. rewrite app_nil_r. repeat split. constructor.
  - destruct (embedFiles_run env pid commit br batch w)
      as (rs & w1 & Hrun & Hdb & Hlog & Hall).
    set (pause := match rest with
                  | [] => ret tt
                  | _ :: _ => sleep 1000
                  end).
    assert (Hpause : exists w2, pause w1 = (Returned tt, w2)
                                /\ db w2 = db w1 /\ log w2 = log w1).
    { unfold pause. destruct rest; eexists; repeat split. }
    destruct Hpause as (w2 & Hp & Hdb2 & Hlog2).
    destruct (IH w2) as (more & w' & Hrest & Hdb' & Hlog' & Hall').
    exists (filterBoolean rs ++ more), w'. cbn [embedBatches].
    unfold bind at 1. rewrite Hrun.
    unfold bind at 1. fold pause. rewrite Hp.
    unfold bind at 1. rewrite Hrest. cbn [ret].
    split; [reflexivity|]. split; [congruence|]. split.
    + rewrite Hlog', Hlog2, Hlog, <- app_assoc. cbn [concat].
      rewrite filter_app, !map_app. reflexivity.
    + cbn [concat]. rewrite filter_app. apply Forall2_app; assumption.
Qed.

Lemma generateEmbeddings_run env (fs : list CodeFile) pid commit br w :
  exists embs w',
    generateEmbeddings env fs pid commit br w = (Returned embs, w')
    /\ db w' = db w
    /\ log w' = log w ++ map EmbedRequest
                           (map content (filter eligibleFile fs))
    /\ Forall2 (embedding_of env pid commit br)
         (filter (embeddable env) fs) embs.
Proof.
  unfold generateEmbeddings.
  destruct (embedBatches_run env pid commit br (slices 5 fs) w)
    as (embs & w' & Hrun & Hdb & Hlog & Hall).
  rewrite slices_concat in Hlog, Hall by lia.
  exists embs, w'. auto.
Qed.

(** X14: [generateEmbeddings] never throws, and its result is one row
    for every file that is eligible and for which the embedding
    service answers, in file order: the row has the given project,
    commit and branch, the path, content and language of the file, the
    vector the service returned, and no repository URL yet.  Files
    that are not eligible or whose request fails are left out. *)
Theorem generateEmbeddings_result env (fs : list CodeFile) (pid : Z)
    (commit br : jsstring) (w : World) :
  exists embs w',
    generateEmbeddings env fs pid commit br w = (Returned embs, w')
    /\ Forall2 (embedding_of env pid commit br)
         (filter (embeddable env) fs) embs.
Proof.
  destruct (generateEmbeddings_run env fs pid commit br w)
    as (embs & w' & Hrun & _ & _ & Hall).
  exists embs, w'. auto.
Qed.

(** X15: [generateEmbeddings] sends to the embedding service the
    contents of the eligible files, each once and in file order, and
    nothing else: an empty, oversized or binary content is never sent.
    It issues no statement and leaves the database as it is. *)
Theorem generateEmbeddings_requests env (fs : list CodeFile) (pid : Z)
    (commit br : jsstring) (w : World) :
  let w' := snd (generateEmbeddings env fs pid commit br w) in
  log w' = log w ++ map EmbedRequest
                      (map content (filter eligibleFile fs))
  /\ db w' = db w.
Proof.
  destruct (generateEmbeddings_run env fs pid commit br w)
    as (embs & w' & Hrun & Hdb & Hlog & _).
  cbv zeta. rewrite Hrun. auto.
Qed.

(* --------------------------------------------------------------------- *)
(** ** The repository provider adapter *)
(* --------------------------------------------------------------------- *)

Lemma fetchFile_run env pid ref (item : TreeItem) (w : World) :
  exists f w',
    fetchFile env pid ref item w = (Returned f, w')
    /\ db w' = db w
    /\ log w' = log w ++ [GitlabFile pid (ti_path item) ref]
    /\ fetched_as env pid ref item f.
Proof.
  unfold fetchFile, getFileContent, bind, emit, fetched_as.
  destruct (gitlab_file env pid (ti_path item) ref);
    eexists _, _; cbn; repeat split; reflexivity.
Qed.

Lemma fetchFiles_run env pid ref (items : list TreeItem) :
  forall w,
    exists fs w',
      mapM (fetchFile env pid ref) items w = (Returned fs, w')
      /\ db w' = db w
      /\ log w' = log w ++ map (fun item =>
                                  GitlabFile pid (ti_path item) ref) items
      /\ Forall2 (fetched_as env pid ref) items fs.
Proof.
  induction items as [|item items IH]; intros w.
  - exists [], w. cbn. rewrite app_nil_r. repeat split. constructor.
  - destruct (fetchFile_run env pid ref item w)
      as (f & w1 & Hrun & Hdb & Hlog & Hf).
    destruct (IH w1) as (fs & w' & Hrest & Hdb' & Hlog' & Hall).
    exists (f :: fs), w'. cbn [mapM]. unfold bind at 1. rewrite Hrun.
    unfold bind at 1. rewrite Hrest. cbn [ret].
    split; [reflexivity|]. split; [congruence|]. split.
    + rewrite Hlog', Hlog, <- app_assoc. reflexivity.
    + constructor; assumption.
Qed.

Lemma fetchBatches_run env pid ref (batches : list (list TreeItem)) :
  forall w,
    exists bs w',
      mapM (mapM (fetchFile env pid ref)) batches w = (Returned bs, w')
      /\ db w' = db w
      /\ log w' = log w ++ map (fun item =>
                                  GitlabFile pid (ti_path item) ref)
                             (concat batches)
      /\ Forall2 (fetched_as env pid ref) (concat batches) (concat bs).
Proof.
  induction batches as [|batch rest IH]; intros w.
  - exists [], w. cbn. rewrite app_nil_r. repeat split. constructor.
  - destruct (fetchFiles_run env pid ref batch w)
      as (fs & w1 & Hrun & Hdb & Hlog & Hf).
    destruct (IH w1) as (bs & w' & Hrest & Hdb' & Hlog' & Hall).
    exists (fs :: bs), w'. cbn [mapM]. unfold bind at 1. rewrite Hrun.
    unfold bind at 1. rewrite Hrest. cbn [ret].
    split; [reflexivity|]. split; [congruence|]. split.
    + rewrite Hlog', Hlog, <- app_assoc. cbn [concat].
      rewrite map_app. reflexivity.
    + cbn [concat]. apply Forall2_app; assumption.
Qed.

Lemma getAllFiles_run env pid ref (w : World) :
  match gitlab_tree env pid ref with
  | None =>
      exists w', getAllFiles env pid ref w = (Thrown, w')
                 /\ db w' = db w
                 /\ log w' = log w ++ [GitlabTree pid ref]
  | Some tree =>
      exists fs w',
        getAllFiles env pid ref w = (Returned fs, w')
        /\ db w' = db w
        /\ log w' = log w
                    ++ GitlabTree pid ref
                       :: map (fun item => GitlabFile pid (ti_path item) ref)
                            (blobs tree)
        /\ Forall2 (fetched_as env pid ref) (blobs tree) fs
  end.
Proof.
  unfold getAllFiles, getRepositoryTree.
  destruct (gitlab_tree env pid ref) as [tree|].
  - fold (blobs tree).
    set (w0 := {| db := db w; txn := txn w;
                  log := log w ++ [GitlabTree pid ref];
                  clock := clock w |}).
    destruct (fetchBatches_run env pid ref (slices 10 (blobs tree)) w0)
      as (bs & w' & Hrun & Hdb & Hlog & Hall).
    rewrite slices_concat in Hlog, Hall by lia.
    exists (concat bs), w'. unfold bind, emit, ret. cbv zeta.
    change (filter (fun item => str_eqb (ti_type item) (lit "blob")) tree)
      with (blobs tree).
    change {| db := db w; txn := txn w;
              log := log w ++ [GitlabTree pid ref]; clock := clock w |}
      with w0.
    rewrite Hrun. split; [reflexivity|]. split; [exact Hdb|].
    split; [|exact Hall].
    rewrite Hlog. unfold w0. cbn [log]. rewrite <- app_assoc. reflexivity.
  - eexists. unfold bind, emit, throw. cbn. repeat split.
Qed.

(** X16: [getAllFiles] fails only with the tree listing.  When the
    listing fails the call throws, having requested nothing else.
    Otherwise it returns one file for every blob of the tree, in tree
    order, with the path of the blob and the content the provider
    returned, or the empty string for a blob whose read failed; it
    requests the tree and then each blob once, never a directory
    entry, and leaves the database as it is. *)
Theorem getAllFiles_result env (pid : Z) (ref : jsstring) (w : World) :
  (gitlab_tree env pid ref = None ->
   exists w', getAllFiles env pid ref w = (Thrown, w')
              /\ log w' = log w ++ [GitlabTree pid ref])
  /\ (forall tree, gitlab_tree env pid ref = Some tree ->
      exists fs w',
        getAllFiles env pid ref w = (Returned fs, w')
        /\ Forall2 (fetched_as env pid ref) (blobs tree) fs
        /\ log w' = log w
                    ++ GitlabTree pid ref
                       :: map (fun item => GitlabFile pid (ti_path item) ref)
                            (blobs tree)
        /\ db w' = db w).
Proof.
  pose proof (getAllFiles_run env pid ref w) as Hrun. split.
  - intros Htree. rewrite Htree in Hrun.
    destruct Hrun as (w' & Hrun & _ & Hlog). exists w'. auto.
  - intros tree Htree. rewrite Htree in Hrun.
    destruct Hrun as (fs & w' & Hrun & Hdb & Hlog & Hall).
    exists fs, w'. auto.
Qed.

(* --------------------------------------------------------------------- *)
(** ** The states a run can leave behind *)
(* --------------------------------------------------------------------- *)

Lemma resolveProjectMetadata_inv env pid w pm w' :
  resolveProjectMetadata env pid w = (Returned pm, w') ->
  db w' = db w
  /\ pm_projectId pm = pid
  /\ (metadata_of pid (tbl_projects (db w)) = Some pm
      \/ (metadata_of pid (tbl_projects (db w)) = None
          /\ lastProcessedCommit pm = [])).
Proof.
  unfold resolveProjectMetadata, metadata_of. intros H.
  inv_bind H as found w1 Hget Hrest; [|discriminate].
  apply getProjectMetadata_inv in Hget as (Hdb & _ & _ & [?|Hfound]);
    [discriminate|].
  injection Hfound as ->.
  destruct (find _ _) as [m|] eqn:Efind.
  - unfold ret in Hrest. injection Hrest as <- <-.
    split; [exact Hdb|]. split; [|left; reflexivity].
    apply find_some in Efind as [_ Eid]. apply Z.eqb_eq. exact Eid.
  - inv_bind Hrest as details w2 Hproj Hrest; [|discriminate].
    pose proof (respects_run _ _ _ _ _ (quiet_getProject env pid) Hproj)
      as [Hdb2 _].
    inv_bind Hrest as t w3 Hdate Hret; [|discriminate].
    unfold new_Date in Hdate. injection Hdate as <- <-.
    unfold ret in Hret. injection Hret as <- <-. cbn.
    split; [congruence|]. split; [reflexivity|]. right. auto.
Qed.

Lemma set_repositoryUrl_records pid commit br env (fs : list CodeFile)
    (generated : list CodeEmbedding) repo :
  Forall2 (embedding_of env pid commit br) fs generated ->
  Forall (fun e => projectId e = pid /\ commitId e = commit)
    (map (set_repositoryUrl repo) generated).
Proof.
  induction 1 as [|f e fs generated He _ IH]; cbn; constructor;
    [|exact IH].
  destruct He as (Hp & _ & _ & _ & _ & _ & Hc & _). cbn. auto.
Qed.

Lemma embedAndStore_stages env pm pid commit br repo fs w o w' :
  pm_projectId pm = pid ->
  embedAndStore env pm pid commit br repo fs w = (o, w') ->
  exists completed,
    run_stages pid commit completed (db w) (db w')
    /\ (completed = true <-> o = Returned Completed).
Proof.
  intros Hpm. unfold embedAndStore. destruct fs as [|f fs'].
  { intros H. injection H as <- <-. exists false.
    split; [left; auto|]. split; discriminate. }
  set (fs := f :: fs'). intros H.
  destruct (generateEmbeddings_run env fs pid commit br w)
    as (generated & w1 & Hgen & Hdb1 & _ & Hall).
  unfold bind at 1 in H. rewrite Hgen in H.
  set (embs := map (set_repositoryUrl repo) generated) in *.
  assert (Hembs : Forall (fun e => projectId e = pid /\ commitId e = commit)
                    embs)
    by exact (set_repositoryUrl_records _ _ _ _ _ _ repo Hall).
  inv_bind H as u w2 Hsave Hrest.
  2:{ subst o. apply saveEmbeddings_inv in Hsave
        as (issued & _ & _ & [(_ & Hdb & _)|[? _]]); [|discriminate].
      exists false. split; [left; split; congruence|].
      split; discriminate. }
  apply saveEmbeddings_inv in Hsave
    as (issued2 & _ & _ & [[? _]|(_ & _ & Hdb2 & _)]); [discriminate|].
  assert (Hs2 : db w2 = store_embeddings (db w) embs)
    by (rewrite Hdb2, Hdb1; reflexivity).
  inv_bind Hrest as createdAt w3 Hdate Hrest; [|discriminate].
  unfold new_Date in Hdate. injection Hdate as <- <-.
  set (batch := {| eb_projectId := pid; eb_commitId := commit;
                   eb_branch := br; files := fs; embeddings := embs;
                   eb_createdAt := clock w2 |}) in *.
  assert (Hrec : forall t,
            run_records pid commit batch (mark_processed pm commit t)).
  { intros t. unfold run_records. cbn. auto. }
  inv_bind Hrest as u' w4 Hbatch Hrest.
  2:{ subst o. unfold saveBatch in Hbatch.
      apply execute_total_inv in Hbatch as (_ & _ & [[_ Hdb4]|[? _]]);
        [|discriminate].
      cbn [db] in Hdb4. exists false. split; [|split; discriminate].
      right. exists batch, (mark_processed pm commit 0).
      split; [apply Hrec|]. left. split; [reflexivity|].
      rewrite Hdb4, Hs2. reflexivity. }
  unfold saveBatch in Hbatch.
  apply execute_total_inv in Hbatch as (_ & _ & [[? _]|[_ Hdb4]]);
    [discriminate|].
  cbn [db] in Hdb4.
  assert (Hs4 : db w4 = store_batch (store_embeddings (db w) embs) batch)
    by (rewrite Hdb4, Hs2; reflexivity).
  inv_bind Hrest as lastProcessedAt w5 Hdate Hrest; [|discriminate].
  unfold new_Date in Hdate. injection Hdate as <- <-.
  inv_bind Hrest as u'' w6 Hupd Hrest.
  2:{ subst o. unfold updateProjectMetadata in Hupd.
      apply execute_total_inv in Hupd as (_ & _ & [[_ Hdb6]|[? _]]);
        [|discriminate].
      cbn [db] in Hdb6. exists false. split; [|split; discriminate].
      right. exists batch, (mark_processed pm commit 0).
      split; [apply Hrec|]. right. left. split; [reflexivity|].
      rewrite Hdb6, Hs4. reflexivity. }
  unfold updateProjectMetadata in Hupd.
  apply execute_total_inv in Hupd as (_ & _ & [[? _]|[_ Hdb6]]);
    [discriminate|].
  cbn [db] in Hdb6. unfold ret in Hrest. injection Hrest as <- <-.
  exists true. split; [|split; reflexivity].
  right. exists batch, (mark_processed pm commit (clock w4)).
  split; [apply Hrec|]. right. right. split; [reflexivity|].
  rewrite Hdb6, Hs4. reflexivity.
Qed.

Lemma handler_stages pid commit (body : M RunStatus) w o w' :
  (forall ob wb, body w = (ob, wb) ->
     exists completed,
       run_stages pid commit completed (db w) (db wb)
       /\ (completed = true <-> ob = Returned Completed)) ->
  try_catch body (ret Failed) w = (o, w') ->
  exists st, o = Returned st
             /\ run_stages pid commit (is_completed st) (db w) (db w').
Proof.
  intros Hbody H.
  apply try_catch_inv in H as [(st & Hb & ->)|(wb & Hb & Hh)].
  - exists st. split; [reflexivity|].
    destruct (Hbody _ _ Hb) as (completed & Hst & Hc).
    replace (is_completed st) with completed; [exact Hst|].
    destruct completed.
    + destruct Hc as [Hc _]. specialize (Hc eq_refl).
      injection Hc as ->. reflexivity.
    + destruct st; try reflexivity.
      destruct Hc as [_ Hc]. specialize (Hc eq_refl). discriminate.
  - unfold ret in Hh. injection Hh as <- <-.
    exists Failed. split; [reflexivity|].
    destruct (Hbody _ _ Hb) as (completed & Hst & Hc).
    replace (is_completed Failed) with completed; [exact Hst|].
    destruct completed; [|reflexivity].
    destruct Hc as [Hc _]. specialize (Hc eq_refl). discriminate.
Qed.

Lemma not_completed_stages pid commit (s s' : Store) (o : Outcome RunStatus) :
  s' = s -> o <> Returned Completed ->
  exists completed,
    run_stages pid commit completed s s'
    /\ (completed = true <-> o = Returned Completed).
Proof.
  intros -> Hnot. exists false. split; [left; auto|].
  split; [discriminate|intros H; contradiction].
Qed.

Lemma stages_after_quiet pid commit completed w w1 (s' : Store) :
  quiet w w1 ->
  run_stages pid commit completed (db w1) s' ->
  run_stages pid commit completed (db w) s'.
Proof. intros [-> _] H. exact H. Qed.

Lemma processPushEvent_stages env event w o w' :
  processPushEvent env event w = (o, w') ->
  exists st, o = Returned st
             /\ run_stages (project_id event) (after event)
                  (is_completed st) (db w) (db w').
Proof.
  unfold processPushEvent. apply handler_stages. intros ob wb H.
  destruct (str_eqb (after event) zeroSha).
  { injection H as <- <-.
    apply not_completed_stages; [reflexivity|discriminate]. }
  inv_bind H as pm w1 Hmeta Hrest.
  2:{ subst ob. apply not_completed_stages; [|discriminate].
      exact (proj1 (respects_run _ _ _ _ _
                      (quiet_resolveProjectMetadata env _) Hmeta)). }
  destruct (resolveProjectMetadata_inv _ _ _ _ _ Hmeta) as (Hdb1 & Hid & _).
  destruct (str_eqb (lastProcessedCommit pm) (after event)).
  { injection Hrest as <- <-.
    apply not_completed_stages; [exact Hdb1|discriminate]. }
  inv_bind Hrest as fs w2 Hfiles Hrest.
  2:{ subst ob. apply not_completed_stages; [|discriminate].
      rewrite <- Hdb1.
      exact (proj1 (respects_run _ _ _ _ _ (quiet_getAllFiles env _ _)
                      Hfiles)). }
  pose proof (proj1 (respects_run _ _ _ _ _ (quiet_getAllFiles env _ _)
                       Hfiles)) as Hdb2.
  destruct (embedAndStore_stages _ _ _ _ _ _ _ _ _ _ Hid Hrest)
    as (completed & Hst & Hc).
  exists completed. split; [|exact Hc].
  rewrite Hdb2, Hdb1 in Hst. exact Hst.
Qed.

Lemma processMergeRequestEvent_stages env event w o w' :
  processMergeRequestEvent env event w = (o, w') ->
  exists st, o = Returned st
             /\ run_stages (gp_id (mr_project event))
                  (last_commit_id (object_attributes event))
                  (is_completed st) (db w) (db w').
Proof.
  unfold processMergeRequestEvent. apply handler_stages. intros ob wb H.
  destruct (negb (actionProcessed (action (object_attributes event)))).
  { injection H as <- <-.
    apply not_completed_stages; [reflexivity|discriminate]. }
  inv_bind H as pm w1 Hmeta Hrest.
  2:{ subst ob. apply not_completed_stages; [|discriminate].
      exact (proj1 (respects_run _ _ _ _ _
                      (quiet_resolveProjectMetadata env _) Hmeta)). }
  destruct (resolveProjectMetadata_inv _ _ _ _ _ Hmeta) as (Hdb1 & Hid & _).
  inv_bind Hrest as fs w2 Hfiles Hrest.
  2:{ subst ob. apply not_completed_stages; [|discriminate].
      rewrite <- Hdb1.
      exact (proj1 (respects_run _ _ _ _ _ (quiet_getAllFiles env _ _)
                      Hfiles)). }
  pose proof (proj1 (respects_run _ _ _ _ _ (quiet_getAllFiles env _ _)
                       Hfiles)) as Hdb2.
  destruct (embedAndStore_stages _ _ _ _ _ _ _ _ _ _ Hid Hrest)
    as (completed & Hst & Hc).
  exists completed. split; [|exact Hc].
  rewrite Hdb2, Hdb1 in Hst. exact Hst.
Qed.

Lemma processWebhook_stages env (event : GitLabWebhookEvent) (w : World) :
  exists st w',
    processWebhook env event w = (Returned (acknowledgement, st), w')
    /\ match project_of event with
       | Some pid =>
           run_stages pid (commit_of event) (is_completed st)
             (db w) (db w')
       | None => st = IgnoredUnsupported /\ w' = w
       end.
Proof.
  unfold processWebhook, bind, try_catch.
  destruct event as [e|e|kind]; cbn [project_of commit_of].
  - destruct (processPushEvent env e w) as [o w'] eqn:Hrun.
    destruct (processPushEvent_stages _ _ _ _ _ Hrun) as (st & -> & Hst).
    exists st, w'. split; [reflexivity|exact Hst].
  - destruct (processMergeRequestEvent env e w) as [o w'] eqn:Hrun.
    destruct (processMergeRequestEvent_stages _ _ _ _ _ Hrun)
      as (st & -> & Hst).
    exists st, w'. split; [reflexivity|exact Hst].
  - exists IgnoredUnsupported, w. cbn. auto.
Qed.

(** X17: whatever happens during a run, the database is left in one of
    four states: as it was; with the embeddings of the batch upserted;
    with the embeddings upserted and the batch record appended; or
    with the project metadata updated as well.  The last state is
    reached exactly by the runs that end as [Completed]; all
    embeddings, the batch record and the metadata belong to the
    project and commit of the event.  An event of an unsupported kind
    leaves the whole world as it was. *)
Theorem run_leaves_a_prefix_of_its_writes env (event : GitLabWebhookEvent)
    (w : World) :
  exists st w',
    processWebhook env event w = (Returned (acknowledgement, st), w')
    /\ match project_of event with
       | Some pid =>
           run_stages pid (commit_of event) (is_completed st)
             (db w) (db w')
       | None => st = IgnoredUnsupported /\ w' = w
       end.
Proof. exact (processWebhook_stages env event w). Qed.

(** Properties of the store that hold along each of the three writes
    hold along every run. *)
Lemma run_stages_preserve (pid : Z) (commit : jsstring)
    (P : Store -> Store -> Prop) :
  (forall s, P s s) ->
  (forall a b c, P a b -> P b c -> P a c) ->
  (forall s embs,
     Forall (fun e => projectId e = pid /\ commitId e = commit) embs ->
     P s (store_embeddings s embs)) ->
  (forall s b, eb_projectId b = pid -> P s (store_batch s b)) ->
  (forall s m, pm_projectId m = pid -> P s (store_project s m)) ->
  forall completed s s', run_stages pid commit completed s s' -> P s s'.
Proof.
  intros Hrefl Htrans Hemb Hbatch Hproj completed s s' Hst.
  destruct Hst as [[_ ->]|(batch & meta & Hrec & Hst)]; [apply Hrefl|].
  destruct Hrec as (Hbp & _ & Hembs & Hmp & _).
  destruct Hst as [[_ ->]|[[_ ->]|[_ ->]]].
  - apply Hemb. exact Hembs.
  - eapply Htrans; [apply Hemb; exact Hembs|apply Hbatch; exact Hbp].
  - eapply Htrans; [apply Hemb; exact Hembs|].
    eapply Htrans; [apply Hbatch; exact Hbp|apply Hproj; exact Hmp].
Qed.

Lemma processWebhook_preserves env (event : GitLabWebhookEvent) (w : World)
    (P : Store -> Store -> Prop) :
  (forall s, P s s) ->
  (forall a b c, P a b -> P b c -> P a c) ->
  (forall pid s embs,
     project_of event = Some pid ->
     Forall (fun e => projectId e = pid) embs ->
     P s (store_embeddings s embs)) ->
  (forall pid s b, project_of event = Some pid -> eb_projectId b = pid ->
     P s (store_batch s b)) ->
  (forall pid s m, project_of event = Some pid -> pm_projectId m = pid ->
     P s (store_project s m)) ->
  P (db w) (db (snd (processWebhook env event w))).
Proof.
  intros Hrefl Htrans Hemb Hbatch Hproj.
  destruct (processWebhook_stages env event w) as (st & w' & Hrun & Hst).
  rewrite Hrun. cbn [snd].
  destruct (project_of event) as [pid|] eqn:Epid.
  - apply (run_stages_preserve pid (commit_of event) P Hrefl Htrans)
      with (completed := is_completed st); [| | |exact Hst].
    + intros s embs Hall. apply (Hemb pid); [reflexivity|].
      eapply Forall_impl; [|exact Hall]. cbn. intros e [He _]. exact He.
    + intros s b Hb. apply (Hbatch pid); [reflexivity|exact Hb].
    + intros s m Hm. apply (Hproj pid); [reflexivity|exact Hm].
  - destruct Hst as [_ ->]. apply Hrefl.
Qed.

Lemma upsert_embedding_keeps_keys (e : CodeEmbedding)
    (rows : list CodeEmbedding) :
  incl (map key rows) (map key (upsert_embedding e rows)).
Proof.
  induction rows as [|r rows IH]; intros k Hk; [contradiction|].
  cbn in *. destruct (same_key r e); cbn.
  - exact Hk.
  - destruct Hk as [Hk|Hk]; [left; exact Hk|right; apply IH; exact Hk].
Qed.

Lemma upsert_all_keeps_keys (embs rows : list CodeEmbedding) :
  incl (map key rows) (map key (upsert_all embs rows)).
Proof.
  revert rows. induction embs as [|e embs IH]; intros rows;
    [apply incl_refl|].
  rewrite upsert_all_cons.
  eapply incl_tran; [apply upsert_embedding_keeps_keys|apply IH].
Qed.

Lemma upsert_project_ids (m : ProjectMetadata)
    (rows : list ProjectMetadata) :
  incl (map pm_projectId rows) (map pm_projectId (upsert_project m rows))
  /\ forall i, In i (map pm_projectId (upsert_project m rows)) ->
       i = pm_projectId m \/ In i (map pm_projectId rows).
Proof.
  induction rows as [|r rows [IH1 IH2]]; cbn.
  - split; [intros i []|]. intros i [<-|[]]. left. reflexivity.
  - destruct (Z.eqb_spec (pm_projectId r) (pm_projectId m)) as [E|E]; cbn.
    + split.
      * intros i [<-|Hi]; [left; symmetry; exact E|right; exact Hi].
      * intros i [<-|Hi]; [left; reflexivity|right; right; exact Hi].
    + split.
      * intros i [<-|Hi]; [left; reflexivity|right; apply IH1; exact Hi].
      * intros i [<-|Hi]; [right; left; reflexivity|].
        destruct (IH2 i Hi); auto.
Qed.

(** X18: a run deletes nothing.  After any run of the dispatcher,
    every (project, path) key that had an embedding row still has one,
    every project that had a metadata row still has one, and the batch
    records that were stored are still there, unchanged and in the
    same order, with at most new records after them. *)
Theorem run_deletes_nothing env (event : GitLabWebhookEvent) (w : World) :
  let w' := snd (processWebhook env event w) in
  incl (map key (tbl_embeddings (db w)))
    (map key (tbl_embeddings (db w')))
  /\ incl (map pm_projectId (tbl_projects (db w)))
       (map pm_projectId (tbl_projects (db w')))
  /\ exists added, tbl_batches (db w') = tbl_batches (db w) ++ added.
Proof.
  cbv zeta.
  apply (processWebhook_preserves env event w
           (fun s s' =>
              incl (map key (tbl_embeddings s)) (map key (tbl_embeddings s'))
              /\ incl (map pm_projectId (tbl_projects s))
                   (map pm_projectId (tbl_projects s'))
              /\ exists added, tbl_batches s' = tbl_batches s ++ added)).
  - intros s. split; [apply incl_refl|]. split; [apply incl_refl|].
    exists []. rewrite app_nil_r. reflexivity.
  - intros a b c (H1 & H2 & l1 & H3) (H4 & H5 & l2 & H6).
    split; [eapply incl_tran; eassumption|].
    split; [eapply incl_tran; eassumption|].
    exists (l1 ++ l2). rewrite H6, H3, app_assoc. reflexivity.
  - intros pid s embs _ _. cbn. split; [apply upsert_all_keeps_keys|].
    split; [apply incl_refl|]. exists []. rewrite app_nil_r. reflexivity.
  - intros pid s b _ _. cbn. split; [apply incl_refl|].
    split; [apply incl_refl|]. eexists. reflexivity.
  - intros pid s m _ _. cbn. split; [apply incl_refl|].
    split; [apply upsert_project_ids|]. exists []. rewrite app_nil_r.
    reflexivity.
Qed.

Lemma upsert_project_unique (m : ProjectMetadata)
    (rows : list ProjectMetadata) :
  unique_projects rows -> unique_projects (upsert_project m rows).
Proof.
  unfold unique_projects. induction rows as [|r rows IH]; intros Hu; cbn.
  - constructor; [intros []|constructor].
  - inversion Hu as [|? ? Hr Hrows]; subst.
    destruct (Z.eqb_spec (pm_projectId r) (pm_projectId m)) as [E|E]; cbn.
    + constructor; [rewrite <- E; exact Hr|exact Hrows].
    + constructor; [|exact (IH Hrows)].
      intros Hin. apply upsert_project_ids in Hin as [Hi|Hi];
        [contradiction|contradiction].
Qed.

(** X19: the two uniqueness constraints are invariants of every run:
    a database with one embedding row per (project, path) and one
    metadata row per project is left, whatever the event and whatever
    fails, with one row per key in both tables. *)
Theorem run_keeps_constraints env (event : GitLabWebhookEvent) (w : World) :
  unique_keys (tbl_embeddings (db w)) ->
  unique_projects (tbl_projects (db w)) ->
  let w' := snd (processWebhook env event w) in
  unique_keys (tbl_embeddings (db w'))
  /\ unique_projects (tbl_projects (db w')).
Proof.
  intros Hk Hp. cbv zeta.
  apply (processWebhook_preserves env event w
           (fun s s' =>
              unique_keys (tbl_embeddings s)
              /\ unique_projects (tbl_projects s) ->
              unique_keys (tbl_embeddings s')
              /\ unique_projects (tbl_projects s'))); auto.
  - intros pid s embs _ _ [H1 H2]. cbn.
    split; [apply upsert_all_unique; exact H1|exact H2].
  - intros pid s m _ _ [H1 H2]. cbn.
    split; [exact H1|apply upsert_project_unique; exact H2].
Qed.

Lemma run_keeps_constraints_witness :
  let w' := snd (processWebhook demo_env (Push (push_of (lit "c2")))
                   (world_of processed_store)) in
  unique_keys (tbl_embeddings (db w'))
  /\ unique_projects (tbl_projects (db w')).
Proof.
  apply run_keeps_constraints.
  - vm_compute. constructor; [intros []|constructor].
  - vm_compute. constructor; [intros []|constructor].
Defined.

Lemma rows_of_upsert_embedding (q : Z) (e : CodeEmbedding)
    (rows : list CodeEmbedding) :
  projectId e <> q ->
  rows_of q (upsert_embedding e rows) = rows_of q rows.
Proof.
  unfold rows_of. intros Hne. induction rows as [|r rows IH]; cbn.
  - destruct (Z.eqb_spec (projectId e) q); [contradiction|reflexivity].
  - destruct (same_key r e) eqn:Ek; cbn.
    + apply same_key_key in Ek. injection Ek as Ep _.
      destruct (Z.eqb_spec (projectId r) q); [congruence|reflexivity].
    + rewrite IH. reflexivity.
Qed.

Lemma rows_of_upsert_all (q pid : Z) (embs rows : list CodeEmbedding) :
  pid <> q -> Forall (fun e => projectId e = pid) embs ->
  rows_of q (upsert_all embs rows) = rows_of q rows.
Proof.
  intros Hne Hall. revert rows.
  induction Hall as [|e embs He _ IH]; intros rows; [reflexivity|].
  rewrite upsert_all_cons, IH. apply rows_of_upsert_embedding. congruence.
Qed.

(** X20: a run touches its own project only.  For a push or
    merge-request event of project [pid] and every other project [q],
    the embedding rows, the metadata row and the batch records of [q]
    are after the run what they were before. *)
Theorem run_leaves_other_projects env (event : GitLabWebhookEvent)
    (w : World) (pid q : Z) :
  project_of event = Some pid ->
  q <> pid ->
  let w' := snd (processWebhook env event w) in
  rows_of q (tbl_embeddings (db w')) = rows_of q (tbl_embeddings (db w))
  /\ metadata_of q (tbl_projects (db w'))
     = metadata_of q (tbl_projects (db w))
  /\ batches_of q (tbl_batches (db w')) = batches_of q (tbl_batches (db w)).
Proof.
  intros Hpid Hq. cbv zeta.
  apply (processWebhook_preserves env event w
           (fun s s' =>
              rows_of q (tbl_embeddings s') = rows_of q (tbl_embeddings s)
              /\ metadata_of q (tbl_projects s')
                 = metadata_of q (tbl_projects s)
              /\ batches_of q (tbl_batches s')
                 = batches_of q (tbl_batches s))).
  - auto.
  - intros a b c (H1 & H2 & H3) (H4 & H5 & H6).
    repeat split; congruence.
  - intros p s embs Hp Hall. cbn. repeat split.
    apply (rows_of_upsert_all q p); [congruence|exact Hall].
  - intros p s b Hp Hb. cbn. repeat split.
    unfold batches_of. rewrite filter_app. cbn.
    destruct (Z.eqb_spec (eb_projectId b) q); [congruence|].
    apply app_nil_r.
  - intros p s m Hp Hm. cbn. repeat split.
    unfold metadata_of. rewrite find_upsert_project.
    destruct (Z.eqb_spec (pm_projectId m) q); [congruence|reflexivity].
Qed.

Lemma run_leaves_other_projects_witness :
  let w' := snd (processWebhook demo_env (Push push_to_8)
                   (world_of processed_store)) in
  rows_of 7 (tbl_embeddings (db w'))
  = rows_of 7 (tbl_embeddings (db (world_of processed_store)))
  /\ metadata_of 7 (tbl_projects (db w'))
     = metadata_of 7 (tbl_projects (db (world_of processed_store)))
  /\ batches_of 7 (tbl_batches (db w'))
     = batches_of 7 (tbl_batches (db (world_of processed_store))).
Proof.
  apply (run_leaves_other_projects demo_env (Push push_to_8)
           (world_of processed_store) 8 7).
  - reflexivity.
  - discriminate.
Defined.

(* --------------------------------------------------------------------- *)
(** ** Runs against a database that accepts every statement *)
(* --------------------------------------------------------------------- *)

Lemma bind_returned {A B} (m : M A) (k : A -> M B) w a w1 :
  m w = (Returned a, w1) -> bind m k w = k a w1.
Proof. intros H. unfold bind. rewrite H. reflexivity. Qed.

Lemma try_catch_returned {A} (body handler : M A) w a w1 :
  body w = (Returned a, w1) -> try_catch body handler w = (Returned a, w1).
Proof. intros H. unfold try_catch. rewrite H. reflexivity. Qed.

Lemma new_Date_run w :
  new_Date w = (Returned (clock w),
                {| db := db w; txn := txn w; log := log w;
                   clock := clock w + 1 |}).
Proof. reflexivity. Qed.

Lemma getProjectMetadata_reliable env pid w :
  reliable env ->
  getProjectMetadata env pid w
  = (Returned (metadata_of pid (tbl_projects (db w))),
     {| db := db w; txn := None;
        log := log w ++ [Query (SelectProject pid)]; clock := clock w |}).
Proof.
  intros [Hst _].
  unfold getProjectMetadata, bind, connect, select, client_query.
  cbn. rewrite Hst. reflexivity.
Qed.

Lemma resolveProjectMetadata_reliable env pid w :
  reliable env -> resolvable env pid (db w) ->
  exists pm w1,
    resolveProjectMetadata env pid w = (Returned pm, w1)
    /\ lastProcessedCommit pm = recordedCommit pid (db w).
Proof.
  intros Hrel Hres. unfold resolveProjectMetadata, recordedCommit.
  rewrite (bind_returned _ _ _ _ _ (getProjectMetadata_reliable _ pid w Hrel)).
  unfold resolvable in Hres.
  destruct (metadata_of pid (tbl_projects (db w))) as [m|].
  - eexists _, _. split; reflexivity.
  - specialize (Hres eq_refl).
    unfold getProject, bind, emit, new_Date. cbn.
    destruct (gitlab_project env pid) as [d|]; [|contradiction].
    eexists _, _. split; reflexivity.
Qed.

Lemma insert_each_reliable env isVector embs w :
  reliable env ->
  exists w', insert_each env isVector embs w = (Returned tt, w').
Proof.
  intros [Hst Hrow]. revert w.
  induction embs as [|e embs IH]; intros w; cbn [insert_each].
  - eexists. reflexivity.
  - assert (Hone : exists w1,
      (if isVector then insert_embedding env true e
       else insert_embedding env false e) w = (Returned tt, w1)).
    { destruct isVector; unfold insert_embedding, execute, client_query;
        rewrite Hst, Hrow; eexists; reflexivity. }
    destruct Hone as (w1 & Hone).
    rewrite (bind_returned _ _ _ _ _ Hone). apply IH.
Qed.

Lemma saveEmbeddings_reliable env embs w :
  reliable env ->
  exists w', saveEmbeddings env embs w = (Returned tt, w').
Proof.
  intros Hrel. pose proof Hrel as [Hst _].
  unfold saveEmbeddings. destruct embs as [|e embs].
  { eexists. reflexivity. }
  rewrite (bind_returned _ _ _ _ _ (connect_run w)).
  set (w0 := {| db := db w; txn := None; log := log w; clock := clock w |}).
  assert (Hsel : exists w1,
    select_column_type env w0
    = (Returned (isVectorColumn (column_type (db w))), w1)).
  { unfold select_column_type, select, client_query. rewrite Hst.
    eexists. reflexivity. }
  destruct Hsel as (w1 & Hsel).
  assert (Hbegin : exists w2, begin_transaction env w1 = (Returned tt, w2)).
  { unfold begin_transaction. rewrite Hst. eexists. reflexivity. }
  destruct Hbegin as (w2 & Hbegin).
  destruct (insert_each_reliable env (isVectorColumn (column_type (db w)))
              (e :: embs) w2 Hrel) as (w3 & Hins).
  assert (Hcommit : exists w4,
    commit_transaction env w3 = (Returned tt, w4)).
  { unfold commit_transaction. rewrite Hst. eexists. reflexivity. }
  destruct Hcommit as (w4 & Hcommit).
  exists w4. apply try_catch_returned.
  rewrite (bind_returned _ _ _ _ _ Hsel).
  rewrite (bind_returned _ _ _ _ _ Hbegin).
  rewrite (bind_returned _ _ _ _ _ Hins).
  exact Hcommit.
Qed.

Lemma saveBatch_reliable env b w :
  reliable env -> exists w', saveBatch env b w = (Returned tt, w').
Proof.
  intros [Hst _]. unfold saveBatch, bind, connect, execute, client_query.
  cbn. rewrite Hst. eexists. reflexivity.
Qed.

Lemma updateProjectMetadata_reliable env m w :
  reliable env ->
  exists w', updateProjectMetadata env m w = (Returned tt, w').
Proof.
  intros [Hst _].
  unfold updateProjectMetadata, bind, connect, execute, client_query.
  cbn. rewrite Hst. eexists. reflexivity.
Qed.

Lemma embedAndStore_reliable env pm pid commit br repo fs w :
  reliable env -> fs <> [] ->
  exists w',
    embedAndStore env pm pid commit br repo fs w = (Returned Completed, w').
Proof.
  intros Hrel Hfs. unfold embedAndStore.
  destruct fs as [|f fs]; [contradiction|].
  destruct (generateEmbeddings_run env (f :: fs) pid commit br w)
    as (embs & w1 & Hgen & _).
  rewrite (bind_returned _ _ _ _ _ Hgen). cbv zeta.
  destruct (saveEmbeddings_reliable env (map (set_repositoryUrl repo) embs)
              w1 Hrel) as (w2 & Hsave).
  rewrite (bind_returned _ _ _ _ _ Hsave).
  rewrite (bind_returned _ _ _ _ _ (new_Date_run w2)).
  match goal with
  | |- context [bind (saveBatch env ?b) _ ?w] =>
      destruct (saveBatch_reliable env b w Hrel) as (w3 & Hbatch)
  end.
  rewrite (bind_returned _ _ _ _ _ Hbatch).
  rewrite (bind_returned _ _ _ _ _ (new_Date_run w3)).
  match goal with
  | |- context [bind (updateProjectMetadata env ?m) _ ?w] =>
      destruct (updateProjectMetadata_reliable env m w Hrel)
        as (w4 & Hupd)
  end.
  rewrite (bind_returned _ _ _ _ _ Hupd).
  eexists. reflexivity.
Qed.

Lemma getAllFiles_returns env pid ref tree w :
  gitlab_tree env pid ref = Some tree ->
  exists fs w',
    getAllFiles env pid ref w = (Returned fs, w')
    /\ db w' = db w
    /\ (fs = [] <-> blobs tree = []).
Proof.
  intros Htree. pose proof (getAllFiles_run env pid ref w) as H.
  rewrite Htree in H. destruct H as (fs & w' & Hrun & Hdb & _ & Hall).
  exists fs, w'. split; [exact Hrun|]. split; [exact Hdb|].
  split; intros E; rewrite E in Hall; inversion Hall; reflexivity.
Qed.

(** The metadata row of the project after a completed run. *)
Lemma completed_run_records pid commit s s' :
  run_stages pid commit true s s' ->
  recordedCommit pid s' = commit.
Proof.
  intros [[Hc _]|(batch & meta & Hrec & Hst)]; [discriminate|].
  destruct Hst as [[Hc _]|[[Hc _]|[_ ->]]]; try discriminate.
  destruct Hrec as (_ & _ & _ & Hmp & Hmc).
  unfold recordedCommit, metadata_of. cbn.
  rewrite find_upsert_project, Hmp, Z.eqb_refl. exact Hmc.
Qed.

(** X21: against a database that accepts every statement, a push is
    carried through whatever the embedding service does.  When the
    commit is none of the all-zero commit and the commit recorded for
    the project, and the provider returns the tree (and the project
    details, where the project is new), the run is skipped if the tree
    has no blob and completed otherwise, also when no file was
    embedded; a completed run leaves the commit of the push recorded
    as last processed. *)
Theorem reliable_push_is_carried_through env (event : GitLabPushEvent)
    (tree : list TreeItem) (w : World) :
  reliable env ->
  after event <> zeroSha ->
  after event <> recordedCommit (project_id event) (db w) ->
  resolvable env (project_id event) (db w) ->
  gitlab_tree env (project_id event) (after event) = Some tree ->
  exists w',
    processWebhook env (Push event) w
    = (Returned (acknowledgement,
                 match blobs tree with
                 | [] => SkippedNoFiles
                 | _ :: _ => Completed
                 end), w')
    /\ match blobs tree with
       | [] => db w' = db w
       | _ :: _ => recordedCommit (project_id event) (db w') = after event
       end.
Proof.
  intros Hrel Hzero Hnew Hres Htree.
  assert (Hrun : exists w',
    processWebhook env (Push event) w
    = (Returned (acknowledgement,
                 match blobs tree with
                 | [] => SkippedNoFiles
                 | _ :: _ => Completed
                 end), w')
    /\ (blobs tree = [] -> db w' = db w)).
  { unfold processWebhook, processPushEvent.
    destruct (str_eqb (after event) zeroSha) eqn:Ez;
      [apply str_eqb_eq in Ez; contradiction|].
    destruct (resolveProjectMetadata_reliable env (project_id event) w
                Hrel Hres) as (pm & w1 & Hpm & Hcommit).
    pose proof (respects_run quiet _ _ _ _
                  (quiet_resolveProjectMetadata env (project_id event)) Hpm)
      as [Hdb1 _].
    destruct (getAllFiles_returns env (project_id event) (after event)
                tree w1 Htree) as (fs & w2 & Hfiles & Hdb2 & Hempty).
    assert (Hcmp : str_eqb (lastProcessedCommit pm) (after event) = false).
    { destruct (str_eqb (lastProcessedCommit pm) (after event)) eqn:E;
        [|reflexivity].
      apply str_eqb_eq in E. rewrite Hcommit in E. congruence. }
    destruct (blobs tree) as [|b bs] eqn:Eb.
    - assert (fs = []) as -> by (apply Hempty; reflexivity).
      exists w2. split; [|intros _; congruence].
      unfold bind, try_catch. cbv zeta. rewrite Hpm, Hcmp, Hfiles.
      reflexivity.
    - assert (Hfs : fs <> []).
      { intros E. apply Hempty in E. discriminate. }
      destruct (embedAndStore_reliable env pm (project_id event)
                  (after event)
                  (replace_first (lit "refs/heads/") [] (ref event))
                  (web_url (push_project event)) fs w2 Hrel Hfs)
        as (w3 & Hstore).
      exists w3. split; [|discriminate].
      unfold bind, try_catch. cbv zeta. rewrite Hpm, Hcmp, Hfiles, Hstore.
      reflexivity. }
  destruct Hrun as (w' & Hrun & Hskip). exists w'.
  split; [exact Hrun|].
  destruct (blobs tree) as [|b bs]; [apply Hskip; reflexivity|].
  destruct (processWebhook_stages env (Push event) w)
    as (st & w'' & Hrun' & Hst).
  rewrite Hrun in Hrun'. injection Hrun' as <- <-.
  cbn [project_of commit_of is_completed] in Hst.
  exact (completed_run_records _ _ _ _ Hst).
Qed.

Lemma reliable_push_is_carried_through_witness :
  exists w',
    processWebhook embedless_env (Push (push_of (lit "c2")))
      (world_of processed_store)
    = (Returned (acknowledgement, Completed), w')
    /\ recordedCommit 7 (db w') = lit "c2".
Proof.
  apply (reliable_push_is_carried_through embedless_env
           (push_of (lit "c2"))
           [ {| ti_type := lit "tree"; ti_path := lit "src" |};
             {| ti_type := lit "blob"; ti_path := lit "src/a.py" |};
             {| ti_type := lit "blob"; ti_path := lit "src/b.bin" |} ]
           (world_of processed_store)).
  - split; intros; reflexivity.
  - discriminate.
  - discriminate.
  - discriminate.
  - reflexivity.
Defined.

(* --------------------------------------------------------------------- *)
(** ** Redelivery, merge requests *)
(* --------------------------------------------------------------------- *)




(** X23: a merge-request event whose action is neither [open] nor
    [update], or that carries no action, is acknowledged and skipped
    with the world untouched: nothing is read, fetched or written. *)
Theorem other_merge_request_actions_are_skipped env
    (event : GitLabMergeRequestEvent) (w : World) :
  action (object_attributes event) <> Some (lit "open") ->
  action (object_attributes event) <> Some (lit "update") ->
  processWebhook env (MergeRequest event) w
  = (Returned (acknowledgement, SkippedAction), w).
Proof.
  intros Hopen Hupdate.
  assert (Hact : actionProcessed (action (object_attributes event))
                 = false).
  { unfold actionProcessed.
    destruct (action (object_attributes event)) as [a|]; [|reflexivity].
    rewrite !str_eqb_neq; [reflexivity| |]; congruence. }
  unfold processWebhook, processMergeRequestEvent, bind, try_catch.
  rewrite Hact. reflexivity.
Qed.

Lemma other_merge_request_actions_are_skipped_witness :
  processWebhook demo_env (MergeRequest (merge_request_of "close" (lit "c1")))
    (world_of processed_store)
  = (Returned (acknowledgement, SkippedAction), world_of processed_store).
Proof.
  apply other_merge_request_actions_are_skipped; discriminate.
Defined.

(** X24: a merge-request event with action [open] or [update] is
    processed whatever commit is recorded for the project.  Against a
    database that accepts every statement, when the provider returns
    the tree of the source branch (and the project details, where the
    project is new), the run is skipped if the tree has no blob and
    completed otherwise; a completed run leaves the last commit of the
    merge request recorded as last processed. *)
Theorem reliable_merge_request_is_carried_through env
    (event : GitLabMergeRequestEvent) (tree : list TreeItem) (w : World) :
  let pid := gp_id (mr_project event) in
  let attrs := object_attributes event in
  reliable env ->
  action attrs = Some (lit "open") \/ action attrs = Some (lit "update") ->
  resolvable env pid (db w) ->
  gitlab_tree env pid (source_branch attrs) = Some tree ->
  exists w',
    processWebhook env (MergeRequest event) w
    = (Returned (acknowledgement,
                 match blobs tree with
                 | [] => SkippedNoFiles
                 | _ :: _ => Completed
                 end), w')
    /\ match blobs tree with
       | [] => db w' = db w
       | _ :: _ => recordedCommit pid (db w') = last_commit_id attrs
       end.
Proof.
  cbv zeta. intros Hrel Haction Hres Htree.
  assert (Hact : actionProcessed (action (object_attributes event)) = true).
  { unfold actionProcessed. destruct Haction as [-> | ->]; reflexivity. }
  assert (Hrun : exists w',
    processWebhook env (MergeRequest event) w
    = (Returned (acknowledgement,
                 match blobs tree with
                 | [] => SkippedNoFiles
                 | _ :: _ => Completed
                 end), w')
    /\ (blobs tree = [] -> db w' = db w)).
  { unfold processWebhook, processMergeRequestEvent. rewrite Hact.
    cbn [negb].
    destruct (resolveProjectMetadata_reliable env
                (gp_id (mr_project event)) w Hrel Hres)
      as (pm & w1 & Hpm & _).
    pose proof (respects_run quiet _ _ _ _
                  (quiet_resolveProjectMetadata env
                     (gp_id (mr_project event))) Hpm) as [Hdb1 _].
    destruct (getAllFiles_returns env (gp_id (mr_project event))
                (source_branch (object_attributes event)) tree w1 Htree)
      as (fs & w2 & Hfiles & Hdb2 & Hempty).
    destruct (blobs tree) as [|b bs] eqn:Eb.
    - assert (fs = []) as -> by (apply Hempty; reflexivity).
      exists w2. split; [|intros _; congruence].
      unfold bind, try_catch. cbv zeta. rewrite Hpm, Hfiles.
      reflexivity.
    - assert (Hfs : fs <> []).
      { intros E. apply Hempty in E. discriminate. }
      destruct (embedAndStore_reliable env pm (gp_id (mr_project event))
                  (last_commit_id (object_attributes event))
                  (source_branch (object_attributes event))
                  (web_url (mr_project event)) fs w2 Hrel Hfs)
        as (w3 & Hstore).
      exists w3. split; [|discriminate].
      unfold bind, try_catch. cbv zeta. rewrite Hpm, Hfiles, Hstore.
      reflexivity. }
  destruct Hrun as (w' & Hrun & Hskip). exists w'.
  split; [exact Hrun|].
  destruct (blobs tree) as [|b bs]; [apply Hskip; reflexivity|].
  destruct (processWebhook_stages env (MergeRequest event) w)
    as (st & w'' & Hrun' & Hst).
  rewrite Hrun in Hrun'. injection Hrun' as <- <-.
  cbn [project_of commit_of is_completed] in Hst.
  exact (completed_run_records _ _ _ _ Hst).
Qed.

Lemma reliable_merge_request_is_carried_through_witness :
  exists w',
    processWebhook demo_env
      (MergeRequest (merge_request_of "open" (lit "c1")))
      (world_of processed_store)
    = (Returned (acknowledgement, Completed), w')
    /\ recordedCommit 7 (db w') = lit "c1".
Proof.
  apply (reliable_merge_request_is_carried_through demo_env
           (merge_request_of "open" (lit "c1"))
           [ {| ti_type := lit "tree"; ti_path := lit "src" |};
             {| ti_type := lit "blob"; ti_path := lit "src/a.py" |};
             {| ti_type := lit "blob"; ti_path := lit "src/b.bin" |} ]
           (world_of processed_store)).
  - split; intros; reflexivity.
  - left. reflexivity.
  - discriminate.
  - reflexivity.
Defined.

(* --------------------------------------------------------------------- *)
(** ** The search endpoint reads *)
(* --------------------------------------------------------------------- *)

Section IssuesOnly.

Variable allowed : Event -> bool.

Lemma issues_only_refl w : issues_only allowed w w.
Proof.
  split; [reflexivity|]. exists []. rewrite app_nil_r.
  split; [reflexivity|constructor].
Qed.

Lemma issues_only_trans a b c :
  issues_only allowed a b -> issues_only allowed b c ->
  issues_only allowed a c.
Proof.
  intros [Hdb1 (l1 & Hl1 & Hw1)] [Hdb2 (l2 & Hl2 & Hw2)].
  split; [congruence|]. exists (l1 ++ l2). split.
  - rewrite Hl2, Hl1, app_assoc. reflexivity.
  - apply Forall_app. split; assumption.
Qed.

Lemma issues_only_emit (e : Event) :
  allowed e = true -> respects (issues_only allowed) (emit e).
Proof.
  intros He w. split; [reflexivity|]. exists [e].
  split; [reflexivity|]. constructor; [exact He|constructor].
Qed.

Lemma issues_only_new_Date : respects (issues_only allowed) new_Date.
Proof.
  intros w. split; [reflexivity|]. exists []. cbn. rewrite app_nil_r.
  split; [reflexivity|constructor].
Qed.

Lemma issues_only_connect : respects (issues_only allowed) connect.
Proof.
  intros w. split; [reflexivity|]. exists []. cbn. rewrite app_nil_r.
  split; [reflexivity|constructor].
Qed.

Lemma issues_only_select env {A} stmt (rows : Store -> option A) :
  allowed (Query stmt) = true ->
  respects (issues_only allowed) (select env stmt rows).
Proof.
  intros Hstmt w. destruct (select env stmt rows w) as [o w'] eqn:Hrun.
  unfold select in Hrun.
  apply client_query_inv in Hrun as (Hlog & _ & [Hq|Hq]); cbn [snd].
  - destruct Hq as (_ & Hdb & _). split; [exact Hdb|].
    exists [Query stmt]. split; [exact Hlog|].
    constructor; [exact Hstmt|constructor].
  - destruct Hq as (a & s' & _ & _ & Hsel & Hcur & Hnone & Hsome).
    destruct (rows (current w)) as [a'|] eqn:Er; [|discriminate].
    injection Hsel as _ <-.
    split.
    + unfold current in *. destruct (txn w) as [t|] eqn:Et.
      * apply Hsome. discriminate.
      * destruct (Hnone eq_refl) as [Hd _]. exact Hd.
    + exists [Query stmt]. split; [exact Hlog|].
      constructor; [exact Hstmt|constructor].
Qed.

End IssuesOnly.

Ltac reads_step :=
  lazymatch goal with
  | |- respects (issues_only _) (ret _) =>
      apply respects_ret; exact (issues_only_refl _)
  | |- respects (issues_only _) throw =>
      apply respects_throw; exact (issues_only_refl _)
  | |- respects (issues_only _) new_Date => apply issues_only_new_Date
  | |- respects (issues_only _) connect => apply issues_only_connect
  | |- respects (issues_only _) (emit _) =>
      apply issues_only_emit; reflexivity
  | |- respects (issues_only _) (select_column_type _) =>
      apply issues_only_select; reflexivity
  | |- respects (issues_only _) (select _ _ _) =>
      apply issues_only_select; reflexivity
  | |- respects (issues_only _) (bind _ _) =>
      apply respects_bind; [exact (issues_only_trans _)| |intros ?]
  | |- respects (issues_only _) (try_catch _ _) =>
      apply respects_try_catch; [exact (issues_only_trans _)| |]
  end.

Lemma similaritySearch_reads env analyze scope q limit :
  respects (issues_only (is_search_call analyze))
    (similaritySearch env scope q limit).
Proof.
  unfold similaritySearch. repeat reads_step.
  - destruct a0; repeat reads_step.
  - destruct a1; repeat reads_step.
Qed.

Lemma analyzeCode_reads env query snippets :
  respects (issues_only (is_search_call true))
    (analyzeCode env query snippets).
Proof.
  unfold analyzeCode.
  destruct (falsy (OPENROUTER_API_KEY env)); repeat reads_step.
  destruct (llm_api env query snippets); repeat reads_step.
Qed.

Lemma analyzeCode_returns env query snippets w :
  exists text w', analyzeCode env query snippets w = (Returned text, w').
Proof.
  unfold analyzeCode, bind, emit, ret.
  destruct (falsy (OPENROUTER_API_KEY env)); [eexists _, _; reflexivity|].
  destruct (llm_api env query snippets); eexists _, _; reflexivity.
Qed.

Lemma searchCode_reads env req :
  respects (issues_only (is_search_call (searchAnalyze req)))
    (searchCode env req).
Proof.
  unfold searchCode, searchAnalyze. cbv zeta. reads_step.
  - destruct (sb_query req) as [[|c query]|]; repeat reads_step.
    + unfold generateEmbedding. repeat reads_step.
      destruct (embed_api env (c :: query)); repeat reads_step.
    + destruct (truthy_id (sb_projectId req));
        apply similaritySearch_reads.
    + destruct a0; repeat reads_step.
      destruct (match sb_analyze req with Some a => a | None => false end);
        repeat reads_step.
      apply analyzeCode_reads.
  - repeat reads_step.
Qed.

Lemma searchCode_body_status (results : list CodeEmbedding)
    (query : jsstring) (analysis : M json) (w : World) (o : Outcome Response)
    (w' : World) :
  (forall w0 o0 w1, analysis w0 = (o0, w1) -> exists j, o0 = Returned j) ->
  match results with
  | [] =>
      ret {| status := 404;
             body := JObj [("message"%string,
                            JStr (lit "No matching code found"));
                           ("query"%string, JStr query);
                           ("results"%string, JArr [])] |}
  | _ :: _ =>
      (analysis <- analysis ;;
       timestamp <- new_Date ;;
       ret {| status := 200;
              body := JObj [("query"%string, JStr query);
                            ("results"%string,
                             JArr (map formatResult results));
                            ("analysis"%string, analysis);
                            ("count"%string,
                             JNum (Z.of_nat (length results)));
                            ("timestamp"%string, JDate timestamp)] |})%monad
  end w = (o, w') ->
  exists resp, o = Returned resp /\ In (status resp) [200; 400; 404; 500].
Proof.
  intros Han H. destruct results as [|r rs].
  - injection H as <- <-. eexists. split; [reflexivity|]. cbn. auto.
  - unfold bind in H. destruct (analysis w) as [oa wa] eqn:Ea.
    destruct (Han _ _ _ Ea) as (j & ->).
    unfold new_Date, ret in H. injection H as <- <-.
    eexists. split; [reflexivity|]. cbn. auto.
Qed.

(** X25: the search endpoint always answers, with status 200, 400, 404
    or 500, and it changes nothing: whatever the request and whatever
    fails, the database is left as it is, and the endpoint asks for
    nothing but the embedding of the query, the statements of the
    search (the column type, the nearest rows, the most recent rows)
    and, only when [analyze] is set, the language model; it fetches
    nothing from the repository provider and writes nothing. *)
Theorem searchCode_answers_and_only_reads env (req : SearchBody)
    (w : World) :
  exists resp w',
    searchCode env req w = (Returned resp, w')
    /\ In (status resp) [200; 400; 404; 500]
    /\ issues_only (is_search_call (searchAnalyze req)) w w'.
Proof.
  destruct (searchCode env req w) as [o w'] eqn:Hrun.
  pose proof (respects_run _ _ _ _ _ (searchCode_reads env req) Hrun)
    as Hreads.
  assert (Hst : exists resp,
    o = Returned resp /\ In (status resp) [200; 400; 404; 500]).
  { unfold searchCode in Hrun. cbv zeta in Hrun.
    apply try_catch_inv in Hrun as [(resp & Hbody & ->)|(w1 & _ & Hh)].
    - exists resp. split; [reflexivity|].
      destruct (sb_query req) as [[|c query]|].
      + injection Hbody as <- _. cbn. auto.
      + inv_bind Hbody as v w1 Hembed Hrest; [|discriminate].
        inv_bind Hrest as results w2 Hsearch Hrest'; [|discriminate].
        apply searchCode_body_status in Hrest'.
        * destruct Hrest' as (resp' & [= <-] & Hin). exact Hin.
        * intros w0 o0 w3.
          destruct (match sb_analyze req with
                    | Some a => a | None => false end).
          -- unfold bind.
             destruct (analyzeCode_returns env (c :: query) results w0)
               as (text & wa & ->).
             unfold ret. intros [= <- _]. eauto.
          -- unfold ret. intros [= <- _]. eauto.
      + injection Hbody as <- _. cbn. auto.
    - injection Hh as <- _. eexists. split; [reflexivity|]. cbn. auto. }
  destruct Hst as (resp & -> & Hin).
  exists resp, w'. repeat split; [exact Hin|apply Hreads|apply Hreads].
Qed.

(** X26: a search request whose query is missing or empty is answered
    with status 400 and the error [Search query is required]; the
    world is untouched: no embedding is requested and no statement is
    issued. *)
Theorem searchCode_requires_a_query env (req : SearchBody) (w : World) :
  sb_query req = None \/ sb_query req = Some [] ->
  searchCode env req w
  = (Returned {| status := 400;
                 body := JObj [("error"%string,
                                JStr (lit "Search query is required"))] |},
     w).
Proof.
  intros [Hq|Hq]; unfold searchCode, try_catch; rewrite Hq; reflexivity.
Qed.

Lemma searchCode_requires_a_query_witness :
  searchCode demo_env no_query (world_of search_store)
  = (Returned {| status := 400;
                 body := JObj [("error"%string,
                                JStr (lit "Search query is required"))] |},
     world_of search_store).
Proof.
  apply searchCode_requires_a_query. left. reflexivity.
Defined.

(** X27: when the embedding of the query cannot be obtained, the
    search endpoint answers with status 500 and the error
    [Internal server error]; the request for the embedding is all that
    happened: the database is not queried. *)
Theorem searchCode_without_embedding env (req : SearchBody)
    (query : jsstring) (w : World) :
  sb_query req = Some query ->
  query <> [] ->
  embed_api env query = None ->
  exists w',
    searchCode env req w
    = (Returned {| status := 500;
                   body := JObj [("error"%string,
                                  JStr (lit "Internal server error"))] |},
       w')
    /\ db w' = db w
    /\ log w' = log w ++ [EmbedRequest query].
Proof.
  intros Hq Hne Hembed.
  unfold searchCode, try_catch, bind, generateEmbedding, emit.
  rewrite Hq. destruct query as [|c query]; [contradiction|].
  cbn. rewrite Hembed. cbn.
  eexists. split; [reflexivity|]. split; reflexivity.
Qed.

Lemma searchCode_without_embedding_witness :
  exists w',
    searchCode embedless_env demo_search (world_of search_store)
    = (Returned {| status := 500;
                   body := JObj [("error"%string,
                                  JStr (lit "Internal server error"))] |},
       w')
    /\ db w' = db (world_of search_store)
    /\ log w' = log (world_of search_store) ++ [EmbedRequest (lit "print")].
Proof.
  apply (searchCode_without_embedding embedless_env demo_search (lit "print")).
  - reflexivity.
  - discriminate.
  - reflexivity.
Defined.

(* --------------------------------------------------------------------- *)
(** ** Authentication *)
(* --------------------------------------------------------------------- *)

Lemma strictNotEqual_false (a b : option jsstring) :
  strictNotEqual a b = false <-> a = b.
Proof.
  destruct a as [x|], b as [y|]; cbn; split; intros H;
    try discriminate; try reflexivity.
  - apply negb_false_iff, str_eqb_eq in H. congruence.
  - injection H as ->. rewrite str_eqb_refl. reflexivity.
Qed.

(** X28: both authentication middlewares let a request through exactly
    when no secret is configured (unset or empty) or the header
    carries the configured secret; every other request, with the
    header missing, empty or different, is answered with status 401. *)
Theorem authentication_passes_iff (secret header : option jsstring) :
  (passes (apiAuth secret header)
   <-> falsy secret = true \/ header = secret)
  /\ (passes (webhookAuth secret header)
      <-> falsy secret = true \/ header = secret)
  /\ (passes (apiAuth secret header) \/ rejects (apiAuth secret header))
  /\ (passes (webhookAuth secret header)
      \/ rejects (webhookAuth secret header)).
Proof.
  unfold passes, rejects, apiAuth, webhookAuth, unauthorized.
  destruct (falsy secret) eqn:Es.
  { repeat split; auto. }
  destruct (falsy header) eqn:Eh.
  { assert (Hne : header <> secret).
    { intros ->. congruence. }
    repeat split; try discriminate;
      try (intros [H|H]; [discriminate|contradiction]);
      right; eexists; split; reflexivity. }
  destruct (strictNotEqual header secret) eqn:En.
  - assert (Hne : header <> secret).
    { intros E. apply strictNotEqual_false in E. congruence. }
    repeat split; try discriminate;
      try (intros [H|H]; [discriminate|contradiction]);
      right; eexists; split; reflexivity.
  - apply strictNotEqual_false in En.
    repeat split; auto.
Qed.
